(** * batch-manager: scheduler, IPv6 remediation and instance decommission

    A shallow embedding of [src/BatchJob.ts] (class [BatchManager]),
    [src/ec2/InstanceIpManager.ts] and [src/ec2/InstanceDiscarder.ts].

    - The marker files under [os.tmpdir()] are a finite map from paths to
      the number [parseInt] reads back from the file.
    - An [async] method is a computation in the [task] monad: it threads the
      object's fields and the list of calls made so far, and ends resolved,
      rejected, or suspended for ever on a promise that never settles.
    - The answers of the collaborators (EC2, autoscaling, pm2, the metadata
      endpoint, the echo service) are fields of an environment record.
    - [console] output is left out, except where the scheduler logs a job's
      failure. *)

From Stdlib Require Import ZArith List Bool String.
From stdpp Require Import base option list strings gmap.
Import ListNotations.

Local Open Scope Z_scope.
Local Open Scope string_scope.
Local Open Scope list_scope.

(* ================================================================== *)
(** * Shared vocabulary *)

(** The four process-level events the classes exchange with
    [process.emit] / [process.on]. *)
Inductive signal := SIGUSR1 | SIGUSR2 | SIGCONT | SIGINT.

(** [Error] values.  The two throws of [requestChangeIpV6] that carry the
    same message (lines 94 and 120) are told apart by the throw site. *)
Inductive error :=
| AssignFailed          (* line 94: no AssignedIpv6Addresses *)
| StaleAddress          (* line 99: a previous address came back *)
| ConfirmFailed         (* line 120: no lookup matched *)
| NoInstanceDetail      (* networkInfo, line 147 *)
| NoNetworkInterface    (* networkInfo, line 157 *)
| MyIpTimeout           (* 'myIpFromRemote Timeout' *)
| ENOENT                (* a file system call on a missing path *)
| External (msg : string).  (* a rejection coming from a collaborator *)

(** How an awaited promise ends. *)
Inductive outcome (A : Type) :=
| Resolved (a : A)
| Rejected (e : error)
| Pending.
Arguments Resolved {A} a.
Arguments Rejected {A} e.
Arguments Pending {A}.

Definition task (S A : Type) : Type := S -> outcome A * S.

Definition ret {S A} (a : A) : task S A := fun s => (Resolved a, s).
Definition throw {S A} (e : error) : task S A := fun s => (Rejected e, s).
Definition bind {S A B} (m : task S A) (k : A -> task S B) : task S B :=
  fun s => match m s with
           | (Resolved a, s') => k a s'
           | (Rejected e, s') => (Rejected e, s')
           | (Pending, s') => (Pending, s')
           end.
(** [try { m } catch (e) { h e }] *)
Definition try_catch {S A} (m : task S A) (h : error -> task S A) : task S A :=
  fun s => match m s with
           | (Rejected e, s') => h e s'
           | r => r
           end.
Definition get {S} : task S S := fun s => (Resolved s, s).
Definition modify {S} (f : S -> S) : task S unit := fun s => (Resolved tt, f s).
(** [await p] for a promise whose fate the environment has fixed. *)
Definition await {S A} (o : outcome A) : task S A := fun s => (o, s).

Declare Scope task_scope.
Delimit Scope task_scope with task.
Notation "'let*' x ':=' m 'in' k" := (bind m (fun x => k))
  (at level 10, x pattern, m at level 100, k at level 200) : task_scope.
Notation "m ';;' k" := (bind m (fun _ => k))
  (at level 100, k at level 200, right associativity) : task_scope.
Notation "'when' b 'then' m" := (if b then m else ret tt)
  (at level 99, b at level 98, m at level 98) : task_scope.

(** JavaScript truthiness of a string: only the empty string is falsy. *)
Definition truthy (s : string) : bool := negb (String.eqb s "").

(* ================================================================== *)
(** * The marker files *)

Module Fs.
(** [fs.writeFileSync(path, pid, { flag: 'wx' })]: creates the file
    exclusively; [None] is the EEXIST throw.  The directory is there and
    writable, so the create fails for no other cause; a create that does
    is in [Unreliable]. *)
Definition writeFileSync_wx (path : string) (pid : Z) (fs : gmap string Z)
  : option (gmap string Z) :=
  match fs !! path with
  | None => Some (<[path := pid]> fs)
  | Some _ => None
  end.

(** [parseInt(fs.readFileSync(path, 'utf8'))]; [None] is the ENOENT throw. *)
Definition readFileSync (path : string) (fs : gmap string Z) : option Z :=
  fs !! path.

(** [fs.unlinkSync(path)]; [None] is the ENOENT throw. *)
Definition unlinkSync (path : string) (fs : gmap string Z)
  : option (gmap string Z) :=
  match fs !! path with
  | Some _ => Some (delete path fs)
  | None => None
  end.

Definition existsSync (path : string) (fs : gmap string Z) : bool :=
  match fs !! path with Some _ => true | None => false end.
End Fs.

(** The election both managers run, over the marker at [path].
    The result is the new file system and what the method returns.
    The create and the read in the [catch] see the same files: no other
    process comes in between, so the read finds the marker the create
    tripped on.  [Unreliable] lifts both assumptions. *)
Module LeaderLock.
Definition isSupervisionProcess (path : string) (pid : Z) (fs : gmap string Z)
  : gmap string Z * outcome bool :=
  match Fs.writeFileSync_wx path pid fs with
  | Some fs' => (fs', Resolved true)
  | None =>
      match Fs.readFileSync path fs with
      | Some spid => (fs, Resolved (Z.eqb spid pid))
      | None => (fs, Rejected ENOENT)
      end
  end.

(** Whether the attempt's exclusive create went through. *)
Definition created (path : string) (pid : Z) (fs : gmap string Z) : bool :=
  match Fs.writeFileSync_wx path pid fs with Some _ => true | None => false end.

Definition unlinkPidFile (path : string) (fs : gmap string Z) : gmap string Z :=
  match Fs.unlinkSync path fs with
  | Some fs' => fs'
  | None => fs        (* catch (e) {} *)
  end.

(** Two attempts one after the other: file systems and answers. *)
Definition race (path : string) (p1 p2 : Z) (fs : gmap string Z)
  : outcome bool * outcome bool * gmap string Z :=
  let '(fs1, r1) := isSupervisionProcess path p1 fs in
  let '(fs2, r2) := isSupervisionProcess path p2 fs1 in
  (r1, r2, fs2).

(** Exactly one of two answers is "leader". *)
Definition exactly_one_leader (r1 r2 : outcome bool) : Prop :=
  (r1 = Resolved true /\ r2 = Resolved false) \/
  (r1 = Resolved false /\ r2 = Resolved true).

(** Number of exclusive creates that succeed along a run of attempts. *)
Fixpoint creates (path : string) (pids : list Z) (fs : gmap string Z) : nat :=
  match pids with
  | [] => 0%nat
  | p :: rest =>
      ((if created path p fs then 1 else 0)
       + creates path rest (fst (isSupervisionProcess path p fs)))%nat
  end.
End LeaderLock.


(* ================================================================== *)
(** * InstanceIpManager *)

Module InstanceIpManager.
Local Open Scope task_scope.

(** The part of [EC2MetaDataResponse] the class reads. *)
Record EC2MetaDataResponse := {
  instanceId : string;
  region : string;
}.

(** The part of the [describeInstances] answer [networkInfo] walks. *)
Record InstanceIpv6Address := { Ipv6Address : option string }.
Record InstanceNetworkInterface := {
  NetworkInterfaceId : option string;
  Ipv6Addresses : option (list InstanceIpv6Address);
}.
Record Instance := { NetworkInterfaces : option (list InstanceNetworkInterface) }.
Record Reservation := { Instances : option (list Instance) }.
Record DescribeInstancesResult := { Reservations : option (list Reservation) }.

Record AssignIpv6AddressesResult := {
  AssignedIpv6Addresses : option (list string);
}.

(** What [networkInfo] returns: [{ id, ips }]. *)
Record NetworkInfo := { id : string; ips : list string }.

Definition IP_CHANGE_LEADTIME : Z := 10000.
Definition MYIP_CHECK_RETRY : nat := 30.
Definition MYIP_CHECK_RETRY_DURATION : Z := 5000.
Definition MYIP_CHECK_TIMEOUT : Z := 1000.

(** The collaborators.  [rp_get i] is the fate of the HTTP request of the
    [i]-th lookup (counted from 0) within the 2 s the hand-made timer
    gives it. *)
Record env := {
  pid : Z;
  tmpdir : string;
  metadata : outcome EC2MetaDataResponse;
  describeInstances : string -> outcome (option DescribeInstancesResult);
  unassignIpv6Addresses : string -> list string -> outcome unit;
  assignIpv6Addresses : string -> Z -> outcome (option AssignIpv6AddressesResult);
  rp_get : nat -> outcome string;
}.

(** Calls that leave the class, in the order they are made. *)
Inductive call :=
| Metadata
| DescribeInstances (instanceIds : list string)
| UnassignIpv6Addresses (networkInterfaceId : string) (addresses : list string)
| AssignIpv6Addresses (networkInterfaceId : string) (count : Z)
| Usleep (ms : Z)
| MyIpFromRemote (timeout : Z)
| UnlinkPidFile
| Emit (sig : signal).

Record state := {
  fs : gmap string Z;
  isWorking : bool;
  calls : list call;
}.

Definition set_fs (f : gmap string Z) (s : state) : state :=
  {| fs := f; isWorking := isWorking s; calls := calls s |}.
Definition set_isWorking (b : bool) (s : state) : state :=
  {| fs := fs s; isWorking := b; calls := calls s |}.
Definition record (c : call) (s : state) : state :=
  {| fs := fs s; isWorking := isWorking s; calls := calls s ++ [c] |}.

(** Make the call, then wait for its answer. *)
Definition invoke {A} (c : call) (o : outcome A) : task state A :=
  modify (record c);; await o.

Definition pidFile (e : env) : string := tmpdir e +:+ "/instance-ip-manager.pid".

Definition orEmpty {A} (o : option (list A)) : list A :=
  match o with Some l => l | None => [] end.

(** The three nested [for ... of] loops of [networkInfo]: the variable is
    overwritten at every interface, so the last one visited stays. *)
Definition lastNetworkInterface (d : DescribeInstancesResult)
  : option InstanceNetworkInterface :=
  fold_left (fun acc reservation =>
    fold_left (fun acc instance =>
      fold_left (fun _ ninterface => Some ninterface)
                (orEmpty (NetworkInterfaces instance)) acc)
      (orEmpty (Instances reservation)) acc)
    (orEmpty (Reservations d)) None.

(** [if (ip.Ipv6Address) ips.push(ip.Ipv6Address)] *)
Definition extractIps (ni : InstanceNetworkInterface) : list string :=
  fold_left (fun ips ip =>
    match Ipv6Address ip with
    | Some a => if truthy a then ips ++ [a] else ips
    | None => ips
    end) (orEmpty (Ipv6Addresses ni)) [].

(** [networkInfo] once [describeInstances] has answered. *)
Definition pickInterface (instanceDetail : option DescribeInstancesResult)
  : outcome NetworkInfo :=
  match instanceDetail with
  | None => Rejected NoInstanceDetail
  | Some d =>
      match lastNetworkInterface d with
      | None => Rejected NoNetworkInterface
      | Some ni =>
          match NetworkInterfaceId ni with
          | None => Rejected NoNetworkInterface
          | Some nid =>
              if truthy nid
              then Resolved {| id := nid; ips := extractIps ni |}
              else Rejected NoNetworkInterface
          end
      end
  end.

Definition networkInfo (e : env) (instanceId : string) : task state NetworkInfo :=
  let* instanceDetail :=
    invoke (DescribeInstances [instanceId]) (describeInstances e instanceId) in
  await (pickInterface instanceDetail).

(** The promise of [myIpFromRemote]: it resolves only if the request
    answers before the 2 s timer rejects it; a failed request leaves the
    promise to that timer. *)
Definition myIpFromRemote (e : env) (i : nat) : task state string :=
  invoke (MyIpFromRemote MYIP_CHECK_TIMEOUT)
         (match rp_get e i with
          | Resolved ip => Resolved ip
          | Rejected _ | Pending => Rejected MyIpTimeout
          end).

(** [ipFromRemote === newIp], with [newIp] possibly [undefined]. *)
Definition same_ip (ipFromRemote : string) (newIp : option string) : bool :=
  match newIp with
  | Some ip => String.eqb ipFromRemote ip
  | None => false
  end.

(** [networkInfo.ips.indexOf(newIp) !== -1] *)
Definition indexOf_found (ips : list string) (newIp : option string) : bool :=
  match newIp with
  | Some ip => existsb (String.eqb ip) ips
  | None => false
  end.

(** The confirmation loop, [n] rounds left, at round [i]; it returns
    [changedConfirm]. *)
Fixpoint confirm (e : env) (newIp : option string) (n i : nat)
  : task state bool :=
  match n with
  | O => ret false
  | S n' =>
      let* matched :=
        try_catch
          (let* ipFromRemote := myIpFromRemote e i in
           ret (same_ip ipFromRemote newIp))
          (fun _ => ret false) in
      if matched : bool then ret true
      else invoke (Usleep MYIP_CHECK_RETRY_DURATION) (Resolved tt);;
           confirm e newIp n' (S i)
  end.

Arguments confirm : simpl never.

Definition requestChangeIpV6 (e : env) : task state (option string) :=
  let* instanceMeta := invoke Metadata (metadata e) in
  let* networkInfo := networkInfo e (instanceId instanceMeta) in
  (when negb (Nat.eqb (length (ips networkInfo)) 0) then
     invoke (UnassignIpv6Addresses (id networkInfo) (ips networkInfo))
            (unassignIpv6Addresses e (id networkInfo) (ips networkInfo)));;
  let* assignedResult :=
    invoke (AssignIpv6Addresses (id networkInfo) 1)
           (assignIpv6Addresses e (id networkInfo) 1) in
  match assignedResult with
  | None => throw AssignFailed
  | Some r =>
      match AssignedIpv6Addresses r with
      | None => throw AssignFailed
      | Some addrs =>
          let newIp := head addrs in
          if indexOf_found (ips networkInfo) newIp then throw StaleAddress
          else
            invoke (Usleep IP_CHANGE_LEADTIME) (Resolved tt);;
            let* changedConfirm := confirm e newIp MYIP_CHECK_RETRY 0 in
            if changedConfirm : bool then ret newIp else throw ConfirmFailed
      end
  end.

Definition isSupervisionProcess (e : env) : task state bool :=
  fun s =>
    let '(fs', r) := LeaderLock.isSupervisionProcess (pidFile e) (pid e) (fs s) in
    (r, set_fs fs' s).

Definition unlinkPidFile (e : env) : task state unit :=
  modify (fun s => record UnlinkPidFile
                     (set_fs (LeaderLock.unlinkPidFile (pidFile e) (fs s)) s)).

Definition emit (sig : signal) : task state unit := modify (record (Emit sig)).

(** [changeIpv6({ discardIfFailed })]; [None] is [undefined]. *)
Definition changeIpv6 (e : env) (discardIfFailed : bool)
  : task state (option string) :=
  let* leader := isSupervisionProcess e in
  if leader : bool then
    let* s := get in
    if isWorking s then ret None
    else
      modify (set_isWorking true);;
      try_catch
        (let* newIp := requestChangeIpV6 e in
         modify (set_isWorking false);;
         unlinkPidFile e;;
         emit SIGCONT;;
         ret newIp)
        (fun err =>
           modify (set_isWorking false);;
           unlinkPidFile e;;
           (when discardIfFailed then emit SIGUSR1);;
           throw err)
  else ret None.

Definition init (f : gmap string Z) : state :=
  {| fs := f; isWorking := false; calls := [] |}.

(** Readings of a list of calls. *)
Definition is_lookup (c : call) : bool :=
  match c with MyIpFromRemote _ => true | _ => false end.
Definition is_usleep (c : call) : bool :=
  match c with Usleep _ => true | _ => false end.
Definition is_unassign (c : call) : bool :=
  match c with UnassignIpv6Addresses _ _ => true | _ => false end.
Definition is_assign (c : call) : bool :=
  match c with AssignIpv6Addresses _ _ => true | _ => false end.
Definition is_emit (c : call) : bool :=
  match c with Emit _ => true | _ => false end.
Definition is_unlink (c : call) : bool :=
  match c with UnlinkPidFile => true | _ => false end.
Definition polling (c : call) : bool := is_lookup c || is_usleep c.
Definition lookups (cs : list call) : nat := length (List.filter is_lookup cs).

Definition local (c : call) : bool := is_emit c || is_unlink c.

(** The calls of a rotation up to and including the assignment. *)
Definition rotation_calls (instanceMeta : EC2MetaDataResponse)
           (networkInfo : NetworkInfo) : list call :=
  [Metadata; DescribeInstances [instanceId instanceMeta]]
  ++ (if Nat.eqb (length (ips networkInfo)) 0 then []
      else [UnassignIpv6Addresses (id networkInfo) (ips networkInfo)])
  ++ [AssignIpv6Addresses (id networkInfo) 1].
Arguments rotation_calls : simpl never.

Definition add_calls (cs : list call) (s : state) : state :=
  {| fs := fs s; isWorking := isWorking s; calls := calls s ++ cs |}.

(** The state right after a won election. *)
Definition elected (e : env) (s : state) : state :=
  {| fs := <[pidFile e := pid e]> (fs s); isWorking := true; calls := calls s |}.

(** The state after the lock is given back and [sigs] are emitted. *)
Definition released (e : env) (sigs : list signal) (s : state) : state :=
  {| fs := LeaderLock.unlinkPidFile (pidFile e) (fs s);
     isWorking := false;
     calls := calls s ++ UnlinkPidFile :: map Emit sigs |}.

(** The election lets the caller through: the marker is absent, or holds
    the caller's own pid. *)
Definition electable (e : env) (s : state) : Prop :=
  fs s !! pidFile e = None \/ fs s !! pidFile e = Some (pid e).

(** The assignment call came back without an address. *)
Definition no_address (a : option AssignIpv6AddressesResult) : Prop :=
  match a with
  | None => True
  | Some r =>
      match AssignedIpv6Addresses r with
      | None | Some [] => True
      | Some (_ :: _) => False
      end
  end.
End InstanceIpManager.

(* ================================================================== *)
(** * BatchManager *)

(** One cooperative event loop.  An [async] callback runs until its next
    [await]; what is left of it waits in [conts] until the awaited promise
    settles.  Every [run()] started and every [usleep] gets a fresh number,
    and the environment decides when, and how, it settles. *)
Module Scheduler.
Definition HOLDED_JOB_WAIT_INTERVAL : Z := 1000.

(** A job class ([ClassType<BatchJob>]), known by its name. *)
Definition jobClass := string.

(** The private fields of [BatchManager] and the two constructor
    switches its handlers read. *)
Record BatchManager := {
  needKillProcess : bool;
  nowRunningTask : Z;
  isDiscarding : bool;
  isIpChanging : bool;
  enableDiscarder : bool;
  enableIpManager : bool;
}.

Inductive settled := Fulfilled | Thrown (e : error).

(** What a suspended callback waits for. *)
Inductive awaited :=
| AwaitRun (j : nat)            (* await new task().run() *)
| AwaitAll (js : list nat)      (* await Promise.all(runners): runners not yet fulfilled *)
| AwaitUsleep (t : nat).        (* await PromiseUtils.usleep(HOLDED_JOB_WAIT_INTERVAL) *)

(** Which callback is suspended, with the variables it closes over. *)
Inductive frame :=
| Booking (jobName : string)
| Infinite (jobName : string) (taskOrTasks : jobClass + list jobClass).

Record cont := { owner : frame; waits : awaited }.

Inductive effect :=
| Booked (jobName schedule : string)
| CheckIn (jobName : string)
| CheckOut (jobName : string)
| Registered (jobName : string)
| Start (jobName : string)
| Completed (jobName : string)
| ConsoleError (e : error)
| Run (j : nat) (task : jobClass)          (* new task().run() *)
| Usleep (t : nat) (ms : Z)
| Received (sig : signal)
| Discard                                  (* this.instanceDiscarder.discard() *)
| ChangeIpv6 (discardIfFailed : bool)      (* this.instanceIpManager.changeIpv6(..) *)
| Killed
| Exit (code : Z).

Record world := {
  mgr : BatchManager;
  booked : list (string * jobClass);     (* the CronJobs created by booking *)
  conts : list cont;
  running : list nat;                     (* run() promises not yet settled *)
  next : nat;
  out : list effect;
  exited : option Z;                      (* process.exit(code) was called *)
}.

Definition with_mgr (f : BatchManager -> BatchManager) (w : world) : world :=
  {| mgr := f (mgr w); booked := booked w; conts := conts w;
     running := running w; next := next w; out := out w; exited := exited w |}.
Definition with_conts (f : list cont -> list cont) (w : world) : world :=
  {| mgr := mgr w; booked := booked w; conts := f (conts w);
     running := running w; next := next w; out := out w; exited := exited w |}.
Definition with_running (f : list nat -> list nat) (w : world) : world :=
  {| mgr := mgr w; booked := booked w; conts := conts w;
     running := f (running w); next := next w; out := out w; exited := exited w |}.
Definition say (es : list effect) (w : world) : world :=
  {| mgr := mgr w; booked := booked w; conts := conts w;
     running := running w; next := next w; out := out w ++ es; exited := exited w |}.
Definition fresh (w : world) : world :=
  {| mgr := mgr w; booked := booked w; conts := conts w;
     running := running w; next := S (next w); out := out w; exited := exited w |}.
Definition process_exit (code : Z) (w : world) : world :=
  {| mgr := mgr w; booked := booked w; conts := conts w;
     running := running w; next := next w; out := out w ++ [Exit code];
     exited := Some code |}.

Definition set_count (n : Z) (m : BatchManager) : BatchManager :=
  {| needKillProcess := needKillProcess m; nowRunningTask := n;
     isDiscarding := isDiscarding m; isIpChanging := isIpChanging m;
     enableDiscarder := enableDiscarder m; enableIpManager := enableIpManager m |}.
Definition set_kill (b : bool) (m : BatchManager) : BatchManager :=
  {| needKillProcess := b; nowRunningTask := nowRunningTask m;
     isDiscarding := isDiscarding m; isIpChanging := isIpChanging m;
     enableDiscarder := enableDiscarder m; enableIpManager := enableIpManager m |}.
Definition set_discarding (b : bool) (m : BatchManager) : BatchManager :=
  {| needKillProcess := needKillProcess m; nowRunningTask := nowRunningTask m;
     isDiscarding := b; isIpChanging := isIpChanging m;
     enableDiscarder := enableDiscarder m; enableIpManager := enableIpManager m |}.
Definition set_ipChanging (b : bool) (m : BatchManager) : BatchManager :=
  {| needKillProcess := needKillProcess m; nowRunningTask := nowRunningTask m;
     isDiscarding := isDiscarding m; isIpChanging := b;
     enableDiscarder := enableDiscarder m; enableIpManager := enableIpManager m |}.

(** [this.isDiscarding || this.isIpChanging || this.needKillProcess] *)
Definition held (m : BatchManager) : bool :=
  isDiscarding m || isIpChanging m || needKillProcess m.

Definition nextTick (w : world) : world :=
  if Z.eqb (nowRunningTask (mgr w)) 0 && needKillProcess (mgr w)
  then process_exit 0 (say [Killed] w)
  else w.

Definition incr (w : world) : world :=
  with_mgr (fun m => set_count (nowRunningTask m + 1) m) w.
Definition decr (w : world) : world :=
  with_mgr (fun m => set_count (nowRunningTask m - 1) m) w.

(** [new task().run()]: the run gets the next number and is in flight. *)
Definition start_run (task : jobClass) (w : world) : nat * world :=
  let j := next w in
  (j, fresh (with_running (fun r => r ++ [j]) (say [Run j task] w))).

(** [taskOrTasks.map(v => new v().run())] *)
Fixpoint start_runs (tasks : list jobClass) (w : world) : list nat * world :=
  match tasks with
  | [] => ([], w)
  | task :: rest =>
      let '(j, w1) := start_run task w in
      let '(js, w2) := start_runs rest w1 in
      (j :: js, w2)
  end.

Definition suspend (c : cont) (w : world) : world :=
  with_conts (fun cs => cs ++ [c]) w.

(** The callback [booking] hands to [CronJob], up to its [await]. *)
Definition tick (jobName : string) (task : jobClass) (w : world) : world :=
  if held (mgr w) then w
  else
    let w1 := say [CheckIn jobName] (incr w) in
    let '(j, w2) := start_run task w1 in
    suspend {| owner := Booking jobName; waits := AwaitRun j |} w2.

(** The same callback from the [await] on. *)
Definition tick_resume (jobName : string) (r : settled) (w : world) : world :=
  let w1 := match r with
            | Fulfilled => w
            | Thrown e => say [ConsoleError e] w
            end in
  nextTick (decr (say [CheckOut jobName] w1)).

(** One pass of the [while (true)] of [infinite], up to its [await]. *)
Definition iterate (jobName : string) (taskOrTasks : jobClass + list jobClass)
           (w : world) : world :=
  if held (mgr w) then
    let t := next w in
    suspend {| owner := Infinite jobName taskOrTasks; waits := AwaitUsleep t |}
            (fresh (say [Usleep t HOLDED_JOB_WAIT_INTERVAL] w))
  else
    let w1 := say [Start jobName] (incr w) in
    match taskOrTasks with
    | inr tasks =>
        let '(js, w2) := start_runs tasks w1 in
        suspend {| owner := Infinite jobName taskOrTasks; waits := AwaitAll js |} w2
    | inl task =>
        let '(j, w2) := start_run task w1 in
        suspend {| owner := Infinite jobName taskOrTasks; waits := AwaitRun j |} w2
    end.

(** After [process.exit] nothing runs any more. *)
Definition alive (w : world) : bool :=
  match exited w with None => true | Some _ => false end.

(** [infinite] after the held branch's [await usleep(..)]. *)
Definition sleep_resume (jobName : string) (taskOrTasks : jobClass + list jobClass)
           (w : world) : world :=
  let w1 := nextTick w in
  if alive w1 then iterate jobName taskOrTasks w1 else w1.

(** [infinite] after the [await] inside its [try]. *)
Definition loop_resume (jobName : string) (taskOrTasks : jobClass + list jobClass)
           (r : settled) (w : world) : world :=
  let w1 := match r with
            | Fulfilled => say [Completed jobName] w
            | Thrown e => say [ConsoleError e] w
            end in
  let w2 := nextTick (decr w1) in
  if alive w2 then iterate jobName taskOrTasks w2 else w2.

Definition waits_on_run (j : nat) (c : cont) : bool :=
  match waits c with
  | AwaitRun j' => Nat.eqb j j'
  | AwaitAll js => existsb (Nat.eqb j) js
  | AwaitUsleep _ => false
  end.
Definition waits_on_usleep (t : nat) (c : cont) : bool :=
  match waits c with
  | AwaitUsleep t' => Nat.eqb t t'
  | _ => false
  end.
Definition waits_on_nothing (c : cont) : bool :=
  match waits c with
  | AwaitAll [] => true
  | _ => false
  end.

(** The first continuation that satisfies [p], and the others. *)
Fixpoint take (p : cont -> bool) (cs : list cont) : option (cont * list cont) :=
  match cs with
  | [] => None
  | c :: rest =>
      if p c then Some (c, rest)
      else match take p rest with
           | Some (c', rest') => Some (c', c :: rest')
           | None => None
           end
  end.

Definition remove_nat (j : nat) (l : list nat) : list nat :=
  List.filter (fun x => negb (Nat.eqb x j)) l.

(** The promise of run [j] settles. *)
Definition settle (j : nat) (r : settled) (w : world) : world :=
  if negb (existsb (Nat.eqb j) (running w)) then w
  else
    let w0 := with_running (remove_nat j) w in
    match take (waits_on_run j) (conts w0) with
    | None => w0          (* nobody awaits this run any more *)
    | Some (c, rest) =>
        let w1 := with_conts (fun _ => rest) w0 in
        match owner c, waits c, r with
        | Booking jobName, _, _ => tick_resume jobName r w1
        | Infinite jobName tasks, AwaitAll js, Fulfilled =>
            match remove_nat j js with
            | [] => loop_resume jobName tasks Fulfilled w1
            | js' => suspend {| owner := owner c; waits := AwaitAll js' |} w1
            end
        | Infinite jobName tasks, _, _ => loop_resume jobName tasks r w1
        end
    end.

Inductive event :=
| CallBooking (jobName schedule : string) (task : jobClass)
| CronTick (i : nat)                  (* the i-th CronJob fires *)
| CallInfinite (jobName : string) (taskOrTasks : jobClass + list jobClass)
| Settle (j : nat) (r : settled)      (* the promise of run j settles *)
| Elapsed (t : nat)                   (* the timer of usleep t fires *)
| AllOfNone                           (* a Promise.all([]) is found resolved *)
| Signal (sig : signal).

Definition on_signal (sig : signal) (w : world) : world :=
  match sig with
  | SIGUSR1 =>
      if enableDiscarder (mgr w)
      then say [Discard] (with_mgr (set_discarding true) w)
      else w
  | SIGUSR2 =>
      let w1 := say [Received SIGUSR2] w in
      if enableIpManager (mgr w1)
      then say [ChangeIpv6 true] (with_mgr (set_ipChanging true) w1)
      else w1
  | SIGCONT =>
      with_mgr (set_ipChanging false) (say [Received SIGCONT] w)
  | SIGINT =>
      nextTick (with_mgr (set_kill true) (say [Received SIGINT] w))
  end.

Definition step (ev : event) (w : world) : world :=
  if negb (alive w) then w
  else
    match ev with
    | CallBooking jobName schedule task =>
        {| mgr := mgr w; booked := booked w ++ [(jobName, task)];
           conts := conts w; running := running w; next := next w;
           out := out w ++ [Booked jobName schedule]; exited := exited w |}
    | CronTick i =>
        match booked w !! i with
        | Some (jobName, task) => tick jobName task w
        | None => w
        end
    | CallInfinite jobName tasks => iterate jobName tasks (say [Registered jobName] w)
    | Settle j r => settle j r w
    | Elapsed t =>
        match take (waits_on_usleep t) (conts w) with
        | Some ({| owner := Infinite jobName tasks |}, rest) =>
            sleep_resume jobName tasks (with_conts (fun _ => rest) w)
        | _ => w
        end
    | AllOfNone =>
        match take waits_on_nothing (conts w) with
        | Some ({| owner := Infinite jobName tasks |}, rest) =>
            loop_resume jobName tasks Fulfilled (with_conts (fun _ => rest) w)
        | _ => w
        end
    | Signal sig => on_signal sig w
    end.

Definition run (evs : list event) (w : world) : world :=
  fold_left (fun w ev => step ev w) evs w.

(** [new BatchManager({ ..., enableDiscarder, enableIpManager })] *)
Definition init (enableDiscarder enableIpManager : bool) : world :=
  {| mgr := {| needKillProcess := false; nowRunningTask := 0;
               isDiscarding := false; isIpChanging := false;
               enableDiscarder := enableDiscarder;
               enableIpManager := enableIpManager |};
     booked := []; conts := []; running := []; next := 0%nat;
     out := []; exited := None |}.

(** The continuations that sit between [nowRunningTask++] and
    [nowRunningTask--]. *)
Definition counted (c : cont) : bool :=
  match waits c with
  | AwaitRun _ | AwaitAll _ => true
  | AwaitUsleep _ => false
  end.

(** Every number handed out so far is below [next]. *)
Definition cont_below (n : nat) (c : cont) : Prop :=
  match waits c with
  | AwaitRun j => (j < n)%nat
  | AwaitAll js => Forall (fun j => (j < n)%nat) js
  | AwaitUsleep t => (t < n)%nat
  end.
Definition fresh_ids (w : world) : Prop :=
  Forall (fun j => (j < next w)%nat) (running w)
  /\ Forall (cont_below (next w)) (conts w).

(** [process.exit] is only ever reached through the guard of [nextTick]. *)
Definition exit_guard (w : world) : Prop :=
  match exited w with
  | None => True
  | Some code =>
      code = 0 /\ nowRunningTask (mgr w) = 0 /\ needKillProcess (mgr w) = true
  end.

(** What the [catch] of a tick or of a loop pass prints. *)
Definition caught (r : settled) : list effect :=
  match r with
  | Fulfilled => []
  | Thrown e => [ConsoleError e]
  end.

(** How far [nowRunningTask] is from the number of such continuations. *)
Definition balance (w : world) : Z :=
  nowRunningTask (mgr w) - Z.of_nat (length (List.filter counted (conts w))).
End Scheduler.

(* ================================================================== *)
(** * InstanceDiscarder *)

(** The object's fields, the marker files, the pending timers and a clock
    in milliseconds.  An attempt's awaits take no time here: the clock
    moves only between callbacks. *)
Module InstanceDiscarder.
Local Open Scope task_scope.

Definition RETRY_INTERVAL : Z := 10 * 1000.
Definition DISCARD_TIMEOUT : Z := 600 * 1000.

(** pm2's [ProcessStatus]. *)
Inductive ProcessStatus :=
| online | stopping | stopped | launching | errored | one_launch_status.

Record Pm2Env := { status : option ProcessStatus }.

(** pm2's [ProcessDescription]; all three fields are optional there. *)
Record ProcessDescription := {
  proc_pid : option Z;
  pm_id : option Z;
  pm2_env : option Pm2Env;
}.

(** What one callback finds when it talks to the outside. *)
Record env := {
  pid : Z;                                   (* process.pid *)
  tmpdir : string;                           (* os.tmpdir() *)
  assignedAsgNames : option (list string);   (* constructor argument *)
  isProduction : bool;                       (* ConfigManager.isProduction() *)
  pm2_connect : outcome unit;
  pm2_list : outcome (list ProcessDescription);
  pm2_stop : Z -> outcome unit;
  metadata : outcome InstanceIpManager.EC2MetaDataResponse;
  terminateInstances : list string -> outcome unit;
  detachInstances : string -> list string -> outcome unit;
  usleep_Infinity : outcome unit;            (* PromiseUtils.usleep(Infinity) *)
}.

Inductive call :=
| SetInterval (ms : Z)
| ClearInterval
| SetTimeout (ms : Z)
| Pm2Connect
| Pm2List
| Pm2Stop (pmId : Z)
| Metadata
| TerminateInstances (instanceIds : list string)
| DetachInstances (asgName : string) (shouldDecrementDesiredCapacity : bool)
                  (instanceIds : list string)
| UnlinkPidFile
| UsleepInfinity
| TimeoutFired.     (* the interval's callback starts *)

Record state := {
  fs : gmap string Z;
  isDiscarding : bool;
  killProcessTimeoutHandle : option Z;   (* when the interval is next due *)
  retries : list Z;                      (* when each pending retry is due *)
  now : Z;
  calls : list call;
}.

Definition set_fs (f : gmap string Z) (s : state) : state :=
  {| fs := f; isDiscarding := isDiscarding s;
     killProcessTimeoutHandle := killProcessTimeoutHandle s;
     retries := retries s; now := now s; calls := calls s |}.
Definition set_isDiscarding (b : bool) (s : state) : state :=
  {| fs := fs s; isDiscarding := b;
     killProcessTimeoutHandle := killProcessTimeoutHandle s;
     retries := retries s; now := now s; calls := calls s |}.
Definition set_handle (h : option Z) (s : state) : state :=
  {| fs := fs s; isDiscarding := isDiscarding s;
     killProcessTimeoutHandle := h;
     retries := retries s; now := now s; calls := calls s |}.
Definition set_retries (r : list Z) (s : state) : state :=
  {| fs := fs s; isDiscarding := isDiscarding s;
     killProcessTimeoutHandle := killProcessTimeoutHandle s;
     retries := r; now := now s; calls := calls s |}.
Definition set_now (t : Z) (s : state) : state :=
  {| fs := fs s; isDiscarding := isDiscarding s;
     killProcessTimeoutHandle := killProcessTimeoutHandle s;
     retries := retries s; now := t; calls := calls s |}.
Definition record (c : call) (s : state) : state :=
  {| fs := fs s; isDiscarding := isDiscarding s;
     killProcessTimeoutHandle := killProcessTimeoutHandle s;
     retries := retries s; now := now s; calls := calls s ++ [c] |}.

Definition invoke {A} (c : call) (o : outcome A) : task state A :=
  modify (record c);; await o.

Definition pidFile (e : env) : string := tmpdir e +:+ "/instance-discarder.pid".

Definition isSupervisionProcess (e : env) : task state bool :=
  fun s =>
    let '(fs', r) := LeaderLock.isSupervisionProcess (pidFile e) (pid e) (fs s) in
    (r, set_fs fs' s).

Definition unlinkPidFile (e : env) : task state unit :=
  modify (fun s => record UnlinkPidFile
                     (set_fs (LeaderLock.unlinkPidFile (pidFile e) (fs s)) s)).

Definition stopNodeProcess (e : env) (pmId : Z) : outcome unit := pm2_stop e pmId.

(** [for (const asgName of this.assignedAsgNames) await asg.detachInstances(..)] *)
Fixpoint detachAll (e : env) (instanceId : string) (asgNames : list string)
  : task state unit :=
  match asgNames with
  | [] => ret tt
  | asgName :: rest =>
      invoke (DetachInstances asgName false [instanceId])
             (detachInstances e asgName [instanceId]);;
      detachAll e instanceId rest
  end.

Definition terminateInstance (e : env) : task state unit :=
  if negb (isProduction e) then ret tt
  else
    let* instanceMeta := invoke Metadata (metadata e) in
    let instanceId := InstanceIpManager.instanceId instanceMeta in
    invoke (TerminateInstances [instanceId]) (terminateInstances e [instanceId]);;
    match assignedAsgNames e with
    | Some asgNames => detachAll e instanceId asgNames
    | None => ret tt
    end.

Definition is_pid (e : env) (proc : ProcessDescription) : bool :=
  match proc_pid proc with
  | Some p => Z.eqb p (pid e)
  | None => false
  end.

(** [status === 'online' || status === 'launching'] *)
Definition active (env2 : Pm2Env) : bool :=
  match status env2 with
  | Some online | Some launching => true
  | _ => false
  end.

(** The [for (const proc of processList)] loop: the coordinator's own pm2
    id, if it was met, and the ids a stop was requested for, in order. *)
Fixpoint scan (e : env) (processList : list ProcessDescription)
         (supervisionProcessPmId : option Z) (tasks : list Z)
  : option Z * list Z :=
  match processList with
  | [] => (supervisionProcessPmId, tasks)
  | proc :: rest =>
      match pm_id proc, pm2_env proc with
      | Some pmId, Some env2 =>
          if is_pid e proc then scan e rest (Some pmId) tasks
          else if active env2 then scan e rest supervisionProcessPmId (tasks ++ [pmId])
          else scan e rest supervisionProcessPmId tasks
      | _, _ => scan e rest supervisionProcessPmId tasks
      end
  end.

(** [Promise.all]: rejected as soon as one member is, resolved once all
    are.  Of several rejections the first in the list is reported. *)
Fixpoint promise_all (os : list (outcome unit)) : outcome unit :=
  match os with
  | [] => Resolved tt
  | Rejected err :: _ => Rejected err
  | Resolved _ :: rest => promise_all rest
  | Pending :: rest =>
      match promise_all rest with
      | Rejected err => Rejected err
      | _ => Pending
      end
  end.

(** The [try] block of [discard] from the removal of the marker on. *)
Definition cleanup (e : env) (supervisionProcessPmId : option Z) : task state unit :=
  unlinkPidFile e;;
  let* s := get in
  (when (match killProcessTimeoutHandle s with Some _ => true | None => false end)
   then modify (fun s => record ClearInterval (set_handle None s)));;
  (match supervisionProcessPmId with
   | Some pmId =>
       invoke (Pm2Stop pmId) (stopNodeProcess e pmId);;
       invoke UsleepInfinity (usleep_Infinity e)
   | None => ret tt
   end);;
  modify (set_isDiscarding false).

(** The body of the [try] block of [discard]. *)
Definition drain_and_terminate (e : env) : task state unit :=
  invoke Pm2Connect (pm2_connect e);;
  let* processList := invoke Pm2List (pm2_list e) in
  let '(supervisionProcessPmId, tasks) := scan e processList None [] in
  modify (fun s => fold_left (fun s pmId => record (Pm2Stop pmId) s) tasks s);;
  (when negb (Nat.eqb (length tasks) 0) then
     await (promise_all (map (stopNodeProcess e) tasks)));;
  terminateInstance e;;
  cleanup e supervisionProcessPmId.

Definition discard (e : env) : task state unit :=
  let* leader := isSupervisionProcess e in
  if negb leader then ret tt
  else
    let* s := get in
    if isDiscarding s then ret tt
    else
      modify (set_isDiscarding true);;
      (when (match killProcessTimeoutHandle s with None => true | Some _ => false end)
       then modify (fun s => record (SetInterval DISCARD_TIMEOUT)
                               (set_handle (Some (now s + DISCARD_TIMEOUT)) s)));;
      try_catch (drain_and_terminate e)
        (fun _ =>
           modify (set_isDiscarding false);;
           modify (fun s => record (SetTimeout RETRY_INTERVAL)
                              (set_retries (retries s ++ [now s + RETRY_INTERVAL]) s))).

(** The callback given to [setInterval]. *)
Definition on_timeout (e : env) : task state unit :=
  modify (record TimeoutFired);;
  try_catch (terminateInstance e) (fun _ => ret tt).

(** The earliest due time among the pending retries. *)
Definition earliest (l : list Z) : option Z :=
  match l with
  | [] => None
  | t :: rest => Some (fold_left Z.min rest t)
  end.

(** Drop the first occurrence of [t]. *)
Fixpoint drop_first (t : Z) (l : list Z) : list Z :=
  match l with
  | [] => []
  | x :: rest => if Z.eqb x t then rest else x :: drop_first t rest
  end.

Inductive timer := TheInterval (due : Z) | ARetry (due : Z).

(** The timer the event loop runs next; on a tie the interval goes first. *)
Definition next_timer (s : state) : option timer :=
  match killProcessTimeoutHandle s, earliest (retries s) with
  | None, None => None
  | Some d, None => Some (TheInterval d)
  | None, Some r => Some (ARetry r)
  | Some d, Some r => if Z.leb d r then Some (TheInterval d) else Some (ARetry r)
  end.

Definition due_of (t : timer) : Z :=
  match t with TheInterval d | ARetry d => d end.

Inductive event :=
| Call (e : env)      (* discard() called from the SIGUSR1 handler *)
| Wait (dt : Z)       (* the loop idles; no timer comes due on the way *)
| Timer (e : env).    (* the loop runs the next due timer *)

Definition step (ev : event) (s : state) : state :=
  match ev with
  | Call e => snd (discard e s)
  | Wait dt =>
      let target := now s + Z.max 0 dt in
      match next_timer s with
      | Some t => set_now (Z.max (now s) (Z.min target (due_of t))) s
      | None => set_now target s
      end
  | Timer e =>
      match next_timer s with
      | None => s
      | Some (TheInterval d) =>
          let s1 := set_handle (Some (d + DISCARD_TIMEOUT)) (set_now (Z.max (now s) d) s) in
          snd (on_timeout e s1)
      | Some (ARetry d) =>
          let s1 := set_retries (drop_first d (retries s)) (set_now (Z.max (now s) d) s) in
          snd (discard e s1)
      end
  end.

Definition run (evs : list event) (s : state) : state :=
  fold_left (fun s ev => step ev s) evs s.

Definition init (f : gmap string Z) : state :=
  {| fs := f; isDiscarding := false; killProcessTimeoutHandle := None;
     retries := []; now := 0; calls := [] |}.

(** How many times the interval's callback has started. *)
Definition is_fired (c : call) : bool :=
  match c with TimeoutFired => true | _ => false end.
Definition fired (s : state) : nat :=
  length (List.filter is_fired (calls s)).

(** How many times the interval has been cleared. *)
Definition is_clear (c : call) : bool :=
  match c with ClearInterval => true | _ => false end.
Definition cleared (s : state) : nat :=
  length (List.filter is_clear (calls s)).

(** How many times an interval has been set. *)
Definition is_arm (c : call) : bool :=
  match c with SetInterval _ => true | _ => false end.
Definition armed (s : state) : nat :=
  length (List.filter is_arm (calls s)).

(** Calls that go to pm2. *)
Definition is_pm2 (c : call) : bool :=
  match c with Pm2Connect | Pm2List | Pm2Stop _ => true | _ => false end.

(** Calls that go to EC2, autoscaling or the metadata endpoint. *)
Definition is_cloud (c : call) : bool :=
  match c with
  | Metadata | TerminateInstances _ | DetachInstances _ _ _ => true
  | _ => false
  end.

Definition add_calls (cs : list call) (s : state) : state :=
  {| fs := fs s; isDiscarding := isDiscarding s;
     killProcessTimeoutHandle := killProcessTimeoutHandle s;
     retries := retries s; now := now s; calls := calls s ++ cs |}.

(** Calls that neither fire, clear nor set the interval. *)
Definition harmless (c : call) : bool := negb (is_fired c || is_clear c || is_arm c).

(** The clock, the retries and the counts of firings and settings agree. *)
Definition unchanged (s s' : state) : Prop :=
  now s' = now s /\ retries s' = retries s
  /\ fired s' = fired s /\ armed s' = armed s.

(** The election lets the caller through. *)
Definition electable (e : env) (s : state) : Prop :=
  fs s !! pidFile e = None \/ fs s !! pidFile e = Some (pid e).

(** An interval set at time [t0], when [f0] firings had been seen, has
    fired [k] more times: the clock has reached the [k]-th multiple of the
    period after [t0], not passed the next one, and the next firing is due
    there. *)
Definition on_schedule (t0 : Z) (f0 : nat) (s : state) : Prop :=
  exists k : nat,
    fired s = (f0 + k)%nat
    /\ killProcessTimeoutHandle s = Some (t0 + (Z.of_nat k + 1) * DISCARD_TIMEOUT)
    /\ now s <= t0 + (Z.of_nat k + 1) * DISCARD_TIMEOUT
    /\ ((1 <= k)%nat -> t0 + Z.of_nat k * DISCARD_TIMEOUT <= now s).

(** Drain and terminate both come to a normal end under [e]. *)
Definition completes (e : env) : Prop :=
  pm2_connect e = Resolved tt
  /\ (exists processList,
        pm2_list e = Resolved processList
        /\ promise_all (map (stopNodeProcess e) (snd (scan e processList None [])))
           = Resolved tt)
  /\ (forall s, fst (terminateInstance e s) = Resolved tt).
End InstanceDiscarder.

(* ================================================================== *)
(** * Sample runs *)

Module Samples.
Import InstanceIpManager.

Definition meta : EC2MetaDataResponse :=
  {| instanceId := "i-0abc"; region := "ap-northeast-2" |}.

(** One reservation, one instance, one interface bound to [addrs]. *)
Definition detail (addrs : list string) : option DescribeInstancesResult :=
  Some {| Reservations := Some [
    {| Instances := Some [
      {| NetworkInterfaces := Some [
        {| NetworkInterfaceId := Some "eni-1";
           Ipv6Addresses :=
             Some (map (fun a => {| Ipv6Address := Some a |}) addrs) |} ] |} ] |} ] |}.

(** The interface holds [bound]; the assignment answers [assigned]; the
    echo service fails twice and then returns [echo]. *)
Definition remediation (bound : list string) (assigned : option (list string))
           (echo : string) : env :=
  {| pid := 4242;
     tmpdir := "/tmp";
     metadata := Resolved meta;
     describeInstances := fun _ => Resolved (detail bound);
     unassignIpv6Addresses := fun _ _ => Resolved tt;
     assignIpv6Addresses := fun _ _ =>
       Resolved (Some {| AssignedIpv6Addresses := assigned |});
     rp_get := fun i => if Nat.ltb i 2 then Rejected (External "ESOCKETTIMEDOUT")
                        else Resolved echo |}.

Definition A : string := "2001:db8::a".
Definition B : string := "2001:db8::b".

(** pm2 lists the coordinator (pid 4242, pm2 id 0), an online worker, a
    stopped one and a launching one. *)
Definition processList : list InstanceDiscarder.ProcessDescription :=
  [ {| InstanceDiscarder.proc_pid := Some 4242; InstanceDiscarder.pm_id := Some 0;
       InstanceDiscarder.pm2_env := Some {| InstanceDiscarder.status := Some InstanceDiscarder.online |} |};
    {| InstanceDiscarder.proc_pid := Some 4250; InstanceDiscarder.pm_id := Some 1;
       InstanceDiscarder.pm2_env := Some {| InstanceDiscarder.status := Some InstanceDiscarder.online |} |};
    {| InstanceDiscarder.proc_pid := Some 4251; InstanceDiscarder.pm_id := Some 2;
       InstanceDiscarder.pm2_env := Some {| InstanceDiscarder.status := Some InstanceDiscarder.stopped |} |};
    {| InstanceDiscarder.proc_pid := Some 4252; InstanceDiscarder.pm_id := Some 3;
       InstanceDiscarder.pm2_env := Some {| InstanceDiscarder.status := Some InstanceDiscarder.launching |} |} ].

(** A decommission on host process 4242, in production: how [pm2.connect]
    ends, how each [pm2.stop] ends, and how [terminateInstances] ends. *)
Definition decommission (connect : outcome unit) (stop : Z -> outcome unit)
           (terminate : outcome unit) : InstanceDiscarder.env :=
  {| InstanceDiscarder.pid := 4242;
     InstanceDiscarder.tmpdir := "/tmp";
     InstanceDiscarder.assignedAsgNames := Some ["crawlers"];
     InstanceDiscarder.isProduction := true;
     InstanceDiscarder.pm2_connect := connect;
     InstanceDiscarder.pm2_list := Resolved processList;
     InstanceDiscarder.pm2_stop := stop;
     InstanceDiscarder.metadata := Resolved meta;
     InstanceDiscarder.terminateInstances := fun _ => terminate;
     InstanceDiscarder.detachInstances := fun _ _ => Resolved tt;
     InstanceDiscarder.usleep_Infinity := Pending |}.

(** [pm2.connect] never calls back, so the drain is stuck, and EC2 refuses
    the termination. *)
Definition stuck : InstanceDiscarder.env :=
  decommission Pending (fun _ => Resolved tt)
               (Rejected (External "UnauthorizedOperation")).

(** pm2 cannot be reached, so every attempt fails and is retried, and EC2
    refuses the termination. *)
Definition unreachable : InstanceDiscarder.env :=
  decommission (Rejected (External "connect ECONNREFUSED")) (fun _ => Resolved tt)
               (Rejected (External "UnauthorizedOperation")).

End Samples.

(* ================================================================== *)
(** * BatchJob, and BatchManager wired to its InstanceIpManager *)

(** The two protected methods of [BatchJob]: each is one
    [process.emit(sig, sig)]. *)
Module BatchJob.
Definition discardInstance : signal := SIGUSR1.
Definition revivalIpBlockedCrawler : signal := SIGUSR2.
End BatchJob.

(** [process.emit] runs the listeners of the same process at once. Here
    the manager's SIGUSR2 listener is run together with the
    [InstanceIpManager] it owns: the listener sets its flag and calls
    [changeIpv6({ discardIfFailed: true })], and the signals [changeIpv6]
    emits reach the manager's listeners in the order they are emitted. The
    awaits of [changeIpv6] are collapsed: no other event of the loop comes
    in between. *)
Module Wiring.
Record process := {
  manager : Scheduler.world;
  ipManager : InstanceIpManager.state;
}.

(** The signals among a list of calls. *)
Definition emitted (cs : list InstanceIpManager.call) : list signal :=
  flat_map (fun c => match c with
                     | InstanceIpManager.Emit sig => [sig]
                     | _ => []
                     end) cs.

Definition deliver (sigs : list signal) (w : Scheduler.world) : Scheduler.world :=
  fold_left (fun w sig => Scheduler.step (Scheduler.Signal sig) w) sigs w.

(** [process.emit('SIGUSR2', 'SIGUSR2')] in a process whose manager is
    [manager p]; the result of [changeIpv6] is returned beside the new
    process. *)
Definition emit_SIGUSR2 (e : InstanceIpManager.env) (p : process)
  : process * outcome (option string) :=
  let w1 := Scheduler.step (Scheduler.Signal BatchJob.revivalIpBlockedCrawler)
                           (manager p) in
  if Scheduler.alive (manager p)
     && Scheduler.enableIpManager (Scheduler.mgr (manager p))
  then
    let '(r, s') := InstanceIpManager.changeIpv6 e true (ipManager p) in
    let sigs := emitted (drop (length (InstanceIpManager.calls (ipManager p)))
                              (InstanceIpManager.calls s')) in
    ({| manager := deliver sigs w1; ipManager := s' |}, r)
  else ({| manager := w1; ipManager := ipManager p |}, Resolved None).
End Wiring.

(* ================================================================== *)
(** * Further readings of the three classes *)

Module IpReadings.
Import InstanceIpManager.

(** Every interface of every instance of every reservation, in the order
    the loops of [networkInfo] visit them. *)
Definition interfaces (d : DescribeInstancesResult) : list InstanceNetworkInterface :=
  flat_map (fun reservation =>
    flat_map (fun instance => orEmpty (NetworkInterfaces instance))
             (orEmpty (Instances reservation)))
    (orEmpty (Reservations d)).

(** The addresses of an interface that are present and not empty. *)
Definition bound (ni : InstanceNetworkInterface) : list string :=
  flat_map (fun ip => match Ipv6Address ip with
                      | Some a => if truthy a then [a] else []
                      | None => []
                      end) (orEmpty (Ipv6Addresses ni)).

(** Milliseconds spent in [usleep] along a list of calls. *)
Definition slept (cs : list call) : Z :=
  fold_right (fun c t => match c with Usleep ms => ms + t | _ => t end) 0 cs.
End IpReadings.

Module SchedulerReadings.
Import Scheduler.

Definition is_run (ef : effect) : bool :=
  match ef with Run _ _ => true | _ => false end.

(** How many times [run()] has been called. *)
Definition runs_started (w : world) : nat := length (List.filter is_run (out w)).

(** The two flags no handler ever clears. *)
Definition sticky (m : BatchManager) : bool := isDiscarding m || needKillProcess m.

Definition is_loop (c : cont) : bool :=
  match owner c with Infinite _ _ => true | Booking _ => false end.

(** How many calls of [infinite] are suspended somewhere in their loop. *)
Definition loops (w : world) : nat := length (List.filter is_loop (conts w)).

Definition is_CallInfinite (ev : event) : bool :=
  match ev with CallInfinite _ _ => true | _ => false end.

Definition is_SIGINT (ev : event) : bool :=
  match ev with Signal SIGINT => true | _ => false end.

Definition is_Signal (ev : event) : bool :=
  match ev with Signal _ => true | _ => false end.

Definition is_SIGCONT (ev : event) : bool :=
  match ev with Signal SIGCONT => true | _ => false end.

(** The fields of the manager other than the counter. *)
Definition flags (m : BatchManager) : bool * bool * bool * bool * bool :=
  (needKillProcess m, isDiscarding m, isIpChanging m, enableDiscarder m,
   enableIpManager m).

(** The [run()] calls of a fan-out whose first run gets number [j]. *)
Definition fan_out (j : nat) (tasks : list jobClass) : list effect :=
  map (fun '(j, task) => Run j task) (combine (seq j (length tasks)) tasks).

(** The guard of [nextTick] is false. *)
Definition at_rest (w : world) : Prop :=
  alive w = true -> needKillProcess (mgr w) = true -> nowRunningTask (mgr w) <> 0.
End SchedulerReadings.

Module DiscarderReadings.
Import InstanceDiscarder.

(** The call [terminateInstance] makes for one group. *)
Definition detach (instanceId asgName : string) : call :=
  DetachInstances asgName false [instanceId].

(** The pm2 ids of the listed entries that are the coordinator's own. *)
Definition own_ids (e : env) (processList : list ProcessDescription) : list Z :=
  flat_map (fun proc => match pm_id proc, pm2_env proc with
                        | Some pmId, Some _ => if is_pid e proc then [pmId] else []
                        | _, _ => []
                        end) processList.
End DiscarderReadings.

(* ================================================================== *)
(** * The election on a file system that can fail *)

(** What can go wrong around one call of [isSupervisionProcess] besides
    the marker being there: the exclusive create can fail for another
    cause (the [catch] takes every error), and the holder of the marker
    can unlink it between the failed create and the read. *)
Module Unreliable.
Import InstanceDiscarder.
Local Open Scope task_scope.

Record faults := {
  create_fails : bool;         (* writeFileSync throws, and not with EEXIST *)
  unlinked_meanwhile : bool;   (* the holder runs unlinkPidFile() before the read *)
}.

Definition none : faults := {| create_fails := false; unlinked_meanwhile := false |}.

(** [None] is a throw, whatever its cause. *)
Definition writeFileSync_wx (f : faults) (path : string) (pid : Z) (fs : gmap string Z)
  : option (gmap string Z) :=
  if create_fails f then None else Fs.writeFileSync_wx path pid fs.

(** [isSupervisionProcess]: the [try] and its [catch]; a throw of the read
    leaves the method. *)
Definition isSupervisionProcess (f : faults) (path : string) (pid : Z)
           (fs : gmap string Z) : gmap string Z * outcome bool :=
  match writeFileSync_wx f path pid fs with
  | Some fs' => (fs', Resolved true)
  | None =>
      let fs1 := if unlinked_meanwhile f then LeaderLock.unlinkPidFile path fs else fs in
      match Fs.readFileSync path fs1 with
      | Some spid => (fs1, Resolved (Z.eqb spid pid))
      | None => (fs1, Rejected ENOENT)
      end
  end.

(** [discard] from the line after the election on. *)
Definition attempt (e : env) (leader : bool) : task state unit :=
  if negb leader then ret tt
  else
    let* s := get in
    if isDiscarding s then ret tt
    else
      modify (set_isDiscarding true);;
      (when (match killProcessTimeoutHandle s with None => true | Some _ => false end)
       then modify (fun s => record (SetInterval DISCARD_TIMEOUT)
                               (set_handle (Some (now s + DISCARD_TIMEOUT)) s)));;
      try_catch (drain_and_terminate e)
        (fun _ =>
           modify (set_isDiscarding false);;
           modify (fun s => record (SetTimeout RETRY_INTERVAL)
                              (set_retries (retries s ++ [now s + RETRY_INTERVAL]) s))).

(** [discard]: the election sits before the [try]. *)
Definition discard (f : faults) (e : env) : task state unit :=
  let* leader :=
    (fun s => let '(fs', r) := isSupervisionProcess f (pidFile e) (pid e) (fs s) in
              (r, set_fs fs' s)) in
  attempt e leader.
End Unreliable.

Module MoreSamples.
Import InstanceIpManager.

(** Two interfaces on the instance: the first bound to [first], the
    second, without an address entry that counts, to [second]. *)
Definition two_interfaces (first second : list string) : option DescribeInstancesResult :=
  Some {| Reservations := Some [
    {| Instances := Some [
      {| NetworkInterfaces := Some [
        {| NetworkInterfaceId := Some "eni-1";
           Ipv6Addresses :=
             Some (map (fun a => {| Ipv6Address := Some a |}) first) |};
        {| NetworkInterfaceId := Some "eni-2";
           Ipv6Addresses :=
             Some ({| Ipv6Address := None |} :: {| Ipv6Address := Some "" |}
                   :: map (fun a => {| Ipv6Address := Some a |}) second) |} ] |} ] |} ] |}.

(** The metadata endpoint never answers. *)
Definition hanging : env :=
  {| pid := 4242;
     tmpdir := "/tmp";
     metadata := Pending;
     describeInstances := fun _ => Resolved (Samples.detail [Samples.A]);
     unassignIpv6Addresses := fun _ _ => Resolved tt;
     assignIpv6Addresses := fun _ _ =>
       Resolved (Some {| AssignedIpv6Addresses := Some [Samples.B] |});
     rp_get := fun _ => Resolved Samples.B |}.

(** Another process of the same host. *)
Definition rival : env :=
  {| pid := 4250;
     tmpdir := "/tmp";
     metadata := Resolved Samples.meta;
     describeInstances := fun _ => Resolved (Samples.detail [Samples.A]);
     unassignIpv6Addresses := fun _ _ => Resolved tt;
     assignIpv6Addresses := fun _ _ =>
       Resolved (Some {| AssignedIpv6Addresses := Some [Samples.B] |});
     rp_get := fun _ => Resolved Samples.B |}.

(** A decommission on an instance of three groups; autoscaling refuses to
    detach it from the second. *)
Definition half_detached : InstanceDiscarder.env :=
  {| InstanceDiscarder.pid := 4242;
     InstanceDiscarder.tmpdir := "/tmp";
     InstanceDiscarder.assignedAsgNames := Some ["crawlers"; "indexers"; "mailers"];
     InstanceDiscarder.isProduction := true;
     InstanceDiscarder.pm2_connect := Resolved tt;
     InstanceDiscarder.pm2_list := Resolved Samples.processList;
     InstanceDiscarder.pm2_stop := fun _ => Resolved tt;
     InstanceDiscarder.metadata := Resolved Samples.meta;
     InstanceDiscarder.terminateInstances := fun _ => Resolved tt;
     InstanceDiscarder.detachInstances := fun asgName _ =>
       if String.eqb asgName "indexers" then Rejected (External "ValidationError")
       else Resolved tt;
     InstanceDiscarder.usleep_Infinity := Pending |}.

(** A decommission where everything answers. *)
Definition smooth : InstanceDiscarder.env :=
  Samples.decommission (Resolved tt) (fun _ => Resolved tt) (Resolved tt).
End MoreSamples.

(* ================================================================== *)
(** * Properties of the marker files and of the election *)

Ltac conjs := repeat match goal with |- _ /\ _ => split end.

Section LeaderLockFacts.
Variable path : string.

Lemma isSupervisionProcess_free (pid : Z) (fs : gmap string Z) :
  fs !! path = None ->
  LeaderLock.isSupervisionProcess path pid fs = (<[path := pid]> fs, Resolved true).
Proof.
  intros Hfree. unfold LeaderLock.isSupervisionProcess, Fs.writeFileSync_wx.
  now rewrite Hfree.
Qed.

Lemma isSupervisionProcess_held (pid spid : Z) (fs : gmap string Z) :
  fs !! path = Some spid ->
  LeaderLock.isSupervisionProcess path pid fs = (fs, Resolved (Z.eqb spid pid)).
Proof.
  intros Hheld.
  unfold LeaderLock.isSupervisionProcess, Fs.writeFileSync_wx, Fs.readFileSync.
  now rewrite Hheld.
Qed.

(** The read in the [catch] always finds the file the create tripped on. *)
Lemma isSupervisionProcess_answers (pid : Z) (fs : gmap string Z) :
  exists b, snd (LeaderLock.isSupervisionProcess path pid fs) = Resolved b.
Proof.
  destruct (fs !! path) as [spid|] eqn:E.
  - rewrite (isSupervisionProcess_held _ _ _ E). eauto.
  - rewrite (isSupervisionProcess_free _ _ E). eauto.
Qed.

(** After any attempt the marker is there. *)
Lemma isSupervisionProcess_marks (pid : Z) (fs : gmap string Z) :
  is_Some (fst (LeaderLock.isSupervisionProcess path pid fs) !! path).
Proof.
  destruct (fs !! path) as [spid|] eqn:E.
  - rewrite (isSupervisionProcess_held _ _ _ E). simpl. rewrite E. eauto.
  - rewrite (isSupervisionProcess_free _ _ E). simpl.
    rewrite lookup_insert_eq. eauto.
Qed.

(** An attempt on one marker leaves every other path alone. *)
Lemma isSupervisionProcess_other (pid : Z) (fs : gmap string Z) (other : string) :
  other <> path ->
  fst (LeaderLock.isSupervisionProcess path pid fs) !! other = fs !! other.
Proof.
  intros Hne. destruct (fs !! path) as [spid|] eqn:E.
  - now rewrite (isSupervisionProcess_held _ _ _ E).
  - rewrite (isSupervisionProcess_free _ _ E). simpl.
    now rewrite lookup_insert_ne.
Qed.

Lemma creates_held (pids : list Z) (fs : gmap string Z) :
  is_Some (fs !! path) -> LeaderLock.creates path pids fs = 0%nat.
Proof.
  revert fs. induction pids as [|p rest IH]; intros fs [spid Hheld]; [reflexivity|].
  simpl. unfold LeaderLock.created, Fs.writeFileSync_wx. rewrite Hheld.
  rewrite (isSupervisionProcess_held _ _ _ Hheld). simpl. apply IH. eauto.
Qed.

(** However many attempts follow one another without an unlink, at most
    one exclusive create goes through. *)
Lemma creates_at_most_one (pids : list Z) (fs : gmap string Z) :
  (LeaderLock.creates path pids fs <= 1)%nat.
Proof.
  destruct pids as [|p rest]; simpl; [lia|].
  rewrite creates_held by apply isSupervisionProcess_marks.
  destruct (LeaderLock.created path p fs); lia.
Qed.

Lemma unlinkPidFile_gone (fs : gmap string Z) :
  LeaderLock.unlinkPidFile path fs !! path = None.
Proof.
  unfold LeaderLock.unlinkPidFile, Fs.unlinkSync.
  destruct (fs !! path) eqn:E; [apply lookup_delete_eq | exact E].
Qed.

(** [unlinkSync] throws on a missing marker; [unlinkPidFile] swallows it. *)
Lemma unlinkPidFile_missing (fs : gmap string Z) :
  fs !! path = None ->
  Fs.unlinkSync path fs = None /\ LeaderLock.unlinkPidFile path fs = fs.
Proof.
  intros Hfree. unfold LeaderLock.unlinkPidFile, Fs.unlinkSync.
  now rewrite Hfree.
Qed.
End LeaderLockFacts.

(** The two markers are different files, whatever the temporary directory. *)
Lemma pidFiles_differ (e1 : InstanceIpManager.env) (e2 : InstanceDiscarder.env) :
  InstanceIpManager.tmpdir e1 = InstanceDiscarder.tmpdir e2 ->
  InstanceDiscarder.pidFile e2 <> InstanceIpManager.pidFile e1.
Proof.
  intros Htmp. unfold InstanceIpManager.pidFile, InstanceDiscarder.pidFile.
  rewrite Htmp. intros Heq. apply (inj (String.app _)) in Heq. discriminate Heq.
Qed.

(** So an election for one protocol leaves the other protocol's lock as it
    is. *)
Lemma locks_independent (e1 : InstanceIpManager.env) (e2 : InstanceDiscarder.env)
      (fs : gmap string Z) :
  InstanceIpManager.tmpdir e1 = InstanceDiscarder.tmpdir e2 ->
  fst (LeaderLock.isSupervisionProcess (InstanceIpManager.pidFile e1)
         (InstanceIpManager.pid e1) fs) !! InstanceDiscarder.pidFile e2
  = fs !! InstanceDiscarder.pidFile e2.
Proof.
  intros Htmp. apply isSupervisionProcess_other. now apply pidFiles_differ.
Qed.

(** C1, as the claim states it, fails: with a marker left behind by a third
    process (pid 99), two attempts by pids 1 and 2 on the discarder's lock
    both find the file, neither reads its own pid, and there is no leader
    at all, although the owner the second caller reads is not its own. *)
Lemma C1_stale_marker_no_leader :
  let path := "/tmp/instance-discarder.pid" in
  let fs0 : gmap string Z := {[ path := 99 ]} in
  let '(r1, r2, fs2) := LeaderLock.race path 1 2 fs0 in
  Fs.readFileSync path (fst (LeaderLock.isSupervisionProcess path 1 fs0)) <> Some 2
  /\ r1 = Resolved false /\ r2 = Resolved false
  /\ ~ LeaderLock.exactly_one_leader r1 r2.
Proof.
  vm_compute. repeat split; try congruence.
  intros [[H _]|[_ H]]; discriminate H.
Qed.

(** The holder comes back after a rival: the marker names pid 2, which is
    in the middle of its protocol; pid 1 tries and is turned away, then
    pid 2 tries again (the retry of [discard]) and is let in. The second
    caller reads its own pid, yet the first attempt did not report
    Leader. *)
Lemma holder_reentry_after_rival :
  let path := "/tmp/instance-discarder.pid" in
  LeaderLock.race path 1 2 {[ path := 2 ]}
  = (Resolved false, Resolved true, {[ path := 2 ]}).
Proof. vm_compute. reflexivity. Qed.

(** C1 (amended): when no marker for the name exists before the two
    attempts, the first caller creates it and is Leader; the second is
    Leader exactly when its pid is the recorded one (re-entry of the same
    process) and NotLeader otherwise, so two different processes get
    exactly one Leader; the marker then names the first caller; of any
    attempts that follow one another at most one exclusive create
    succeeds; and a caller that finds a marker is Leader exactly when the
    recorded pid is its own. *)
Theorem C1_race_on_free_lock (path : string) (p1 p2 : Z) (fs : gmap string Z) :
  fs !! path = None ->
  let '(r1, r2, fs2) := LeaderLock.race path p1 p2 fs in
  r1 = Resolved true
  /\ r2 = Resolved (Z.eqb p1 p2)
  /\ (p1 <> p2 -> LeaderLock.exactly_one_leader r1 r2)
  /\ (p1 = p2 -> r1 = Resolved true /\ r2 = Resolved true)
  /\ fs2 !! path = Some p1
  /\ LeaderLock.creates path [p1; p2] fs = 1%nat
  /\ (forall pids fs', (LeaderLock.creates path pids fs' <= 1)%nat)
  /\ (forall pid spid fs',
        fs' !! path = Some spid ->
        LeaderLock.isSupervisionProcess path pid fs'
        = (fs', Resolved (Z.eqb spid pid))).
Proof.
  intros Hfree. unfold LeaderLock.race.
  rewrite (isSupervisionProcess_free _ _ _ Hfree).
  assert (Hheld : <[path := p1]> fs !! path = Some p1) by apply lookup_insert_eq.
  rewrite (isSupervisionProcess_held _ _ _ _ Hheld).
  repeat match goal with |- _ /\ _ => split end.
  - reflexivity.
  - reflexivity.
  - intros Hne. left. split; [reflexivity|].
    f_equal. now apply Z.eqb_neq.
  - intros ->. now rewrite Z.eqb_refl.
  - exact Hheld.
  - simpl. unfold LeaderLock.created, Fs.writeFileSync_wx. rewrite Hfree.
    rewrite (isSupervisionProcess_free _ _ _ Hfree). simpl. now rewrite Hheld.
  - intros pids fs'. apply creates_at_most_one.
  - intros pid spid fs'. apply isSupervisionProcess_held.
Qed.

Lemma C1_race_on_free_lock_witness :
  let path := "/tmp/instance-ip-manager.pid" in
  let '(r1, r2, fs2) := LeaderLock.race path 11 12 ∅ in
  r1 = Resolved true
  /\ r2 = Resolved (Z.eqb 11 12)
  /\ (11 <> 12 -> LeaderLock.exactly_one_leader r1 r2)
  /\ (11 = 12 -> r1 = Resolved true /\ r2 = Resolved true)
  /\ fs2 !! path = Some 11
  /\ LeaderLock.creates path [11; 12] ∅ = 1%nat
  /\ (forall pids fs', (LeaderLock.creates path pids fs' <= 1)%nat)
  /\ (forall pid spid fs',
        fs' !! path = Some spid ->
        LeaderLock.isSupervisionProcess path pid fs'
        = (fs', Resolved (Z.eqb spid pid))).
Proof.
  exact (C1_race_on_free_lock "/tmp/instance-ip-manager.pid" 11 12 ∅ eq_refl).
Defined.

(* ================================================================== *)
(** * Properties of InstanceIpManager *)

Section IpManagerFacts.
Import InstanceIpManager.
Variable e : env.

Ltac run_task :=
  unfold invoke, bind, ret, throw, await, modify, get, try_catch; simpl.

(** One round of the confirmation loop. *)
Lemma confirm_S (newIp : option string) (n i : nat) (s : state) :
  confirm e newIp (S n) i s =
  let s1 := record (MyIpFromRemote MYIP_CHECK_TIMEOUT) s in
  let again := confirm e newIp n (S i) (record (Usleep MYIP_CHECK_RETRY_DURATION) s1) in
  match rp_get e i with
  | Resolved ipFromRemote =>
      if same_ip ipFromRemote newIp then (Resolved true, s1) else again
  | Rejected _ | Pending => again
  end.
Proof.
  unfold confirm; fold confirm. unfold myIpFromRemote. run_task.
  destruct (rp_get e i) as [ip| |]; simpl; try reflexivity.
  destruct (same_ip ip newIp); reflexivity.
Qed.

(** The loop only looks up and sleeps, never stays suspended, and makes
    at most [n] lookups. *)
Lemma confirm_frame (newIp : option string) (n i : nat) (s : state) :
  exists b cs,
    confirm e newIp n i s
    = (Resolved b, {| fs := fs s; isWorking := isWorking s; calls := calls s ++ cs |})
    /\ forallb polling cs = true
    /\ (lookups cs <= n)%nat
    /\ (b = false -> lookups cs = n)
    /\ (b = true -> (1 <= lookups cs)%nat).
Proof.
  revert i s. induction n as [|n IH]; intros i s.
  - exists false, []. simpl. unfold ret. rewrite app_nil_r.
    destruct s; simpl. conjs; reflexivity || lia || discriminate.
  - rewrite confirm_S. cbv zeta.
    set (s1 := record (MyIpFromRemote MYIP_CHECK_TIMEOUT) s).
    set (s2 := record (Usleep MYIP_CHECK_RETRY_DURATION) s1).
    assert (Hagain : exists b cs,
               confirm e newIp n (S i) s2
               = (Resolved b, {| fs := fs s; isWorking := isWorking s;
                                 calls := calls s ++ cs |})
               /\ forallb polling cs = true
               /\ (lookups cs <= S n)%nat
               /\ (b = false -> lookups cs = S n)
               /\ (b = true -> (1 <= lookups cs)%nat)).
    { destruct (IH (S i) s2) as (b & cs & Heq & Hpoll & Hle & Hmiss & _).
      exists b, ([MyIpFromRemote MYIP_CHECK_TIMEOUT; Usleep MYIP_CHECK_RETRY_DURATION] ++ cs).
      rewrite Heq. unfold s2, s1. simpl. rewrite <- !app_assoc. simpl.
      unfold lookups in *. simpl.
      conjs; [reflexivity | exact Hpoll | lia
             | intros Hb; rewrite (Hmiss Hb); reflexivity | lia]. }
    destruct (rp_get e i) as [ip| |]; try exact Hagain.
    destruct (same_ip ip newIp); try exact Hagain.
    exists true, [MyIpFromRemote MYIP_CHECK_TIMEOUT]. unfold s1. simpl.
    unfold lookups. simpl. conjs; reflexivity || lia || discriminate.
Qed.

(** With [newIp] undefined no lookup can match. *)
Lemma confirm_undefined (n i : nat) (s : state) :
  fst (confirm e None n i s) = Resolved false.
Proof.
  revert i s. induction n as [|n IH]; intros i s; [reflexivity|].
  rewrite confirm_S. cbv zeta. destruct (rp_get e i); simpl; apply IH.
Qed.

(** A lookup that returns the new address within the rounds left ends
    the loop with [changedConfirm = true]. *)
Lemma confirm_hit (B : string) (n i k : nat) (s : state) :
  (k < n)%nat -> rp_get e (i + k) = Resolved B ->
  fst (confirm e (Some B) n i s) = Resolved true.
Proof.
  revert i k s. induction n as [|n IH]; intros i k s Hk Hget; [lia|].
  rewrite confirm_S. cbv zeta.
  destruct k as [|k].
  - rewrite Nat.add_0_r in Hget. rewrite Hget. simpl.
    now rewrite String.eqb_refl.
  - assert (Hget' : rp_get e (S i + k) = Resolved B).
    { rewrite <- Hget. f_equal. lia. }
    assert (Hk' : (k < n)%nat) by lia.
    destruct (rp_get e i) as [ip| |]; try (eapply IH; eassumption).
    destruct (same_ip ip (Some B)); [reflexivity | eapply IH; eassumption].
Qed.

(** If none of the rounds left returns the new address the loop ends
    with [changedConfirm = false]. *)
Lemma confirm_miss (newIp : option string) (n i : nat) (s : state) :
  (forall k ip, (k < n)%nat -> rp_get e (i + k) = Resolved ip -> same_ip ip newIp = false) ->
  fst (confirm e newIp n i s) = Resolved false.
Proof.
  revert i s. induction n as [|n IH]; intros i s Hmiss; [reflexivity|].
  rewrite confirm_S. cbv zeta.
  assert (Hrest : forall s', fst (confirm e newIp n (S i) s') = Resolved false).
  { intros s'. apply IH. intros k ip Hk Hget. apply (Hmiss (S k) ip); [lia|].
    rewrite <- Hget. f_equal. lia. }
  destruct (rp_get e i) as [ip| |] eqn:Hget; try apply Hrest.
  rewrite (Hmiss 0%nat ip); [apply Hrest | lia | now rewrite Nat.add_0_r].
Qed.

Lemma add_calls_add_calls (cs cs' : list call) (s : state) :
  add_calls cs' (add_calls cs s) = add_calls (cs ++ cs') s.
Proof. unfold add_calls. simpl. now rewrite app_assoc. Qed.

Lemma confirm_add_calls (newIp : option string) (n i : nat) (s : state) :
  exists b cs,
    confirm e newIp n i s = (Resolved b, add_calls cs s)
    /\ forallb polling cs = true
    /\ (lookups cs <= n)%nat
    /\ (b = false -> lookups cs = n)
    /\ (b = true -> (1 <= lookups cs)%nat).
Proof. exact (confirm_frame newIp n i s). Qed.

Section Rotation.
Variables (s : state) (instanceMeta : EC2MetaDataResponse)
          (instanceDetail : option DescribeInstancesResult)
          (networkInfo : NetworkInfo).
Hypothesis Hmeta : metadata e = Resolved instanceMeta.
Hypothesis Hdescribe :
  describeInstances e (instanceId instanceMeta) = Resolved instanceDetail.
Hypothesis Hpick : pickInterface instanceDetail = Resolved networkInfo.

Let unassign := unassignIpv6Addresses e (id networkInfo) (ips networkInfo).

(** A failed (or stuck) unassign ends the run right there. *)
Lemma request_unassign_unsettled :
  ips networkInfo <> [] -> unassign <> Resolved tt ->
  requestChangeIpV6 e s
  = (match unassign with
     | Rejected err => Rejected err
     | _ => Pending
     end,
     add_calls [Metadata; DescribeInstances [instanceId instanceMeta];
                UnassignIpv6Addresses (id networkInfo) (ips networkInfo)] s).
Proof.
  intros Hips Hun. subst unassign.
  unfold requestChangeIpV6, InstanceIpManager.networkInfo. run_task.
  rewrite Hmeta. simpl. rewrite Hdescribe. simpl. rewrite Hpick. simpl.
  destruct (ips networkInfo) as [|a l] eqn:E; [congruence|]. simpl.
  unfold add_calls, record. simpl.
  rewrite <- !app_assoc. simpl.
  destruct (unassignIpv6Addresses e (id networkInfo) (a :: l)) as [[]| |];
    [congruence| reflexivity | reflexivity].
Qed.

(** Past the unassign, the run is decided by the assignment's answer
    and by the lookups. *)
Lemma request_assign :
  ips networkInfo = [] \/ unassign = Resolved tt ->
  requestChangeIpV6 e s
  = let s3 := add_calls (rotation_calls instanceMeta networkInfo) s in
    match assignIpv6Addresses e (id networkInfo) 1 with
    | Resolved (Some {| AssignedIpv6Addresses := Some addrs |}) =>
        if indexOf_found (ips networkInfo) (head addrs)
        then (Rejected StaleAddress, s3)
        else
          match confirm e (head addrs) MYIP_CHECK_RETRY 0
                        (add_calls [Usleep IP_CHANGE_LEADTIME] s3) with
          | (Resolved true, s4) => (Resolved (head addrs), s4)
          | (Resolved false, s4) => (Rejected ConfirmFailed, s4)
          | (Rejected err, s4) => (Rejected err, s4)
          | (Pending, s4) => (Pending, s4)
          end
    | Resolved _ => (Rejected AssignFailed, s3)
    | Rejected err => (Rejected err, s3)
    | Pending => (Pending, s3)
    end.
Proof.
  intros Hun. subst unassign.
  unfold requestChangeIpV6, InstanceIpManager.networkInfo, rotation_calls. run_task.
  rewrite Hmeta. simpl. rewrite Hdescribe. simpl. rewrite Hpick. simpl.
  destruct (ips networkInfo) as [|a l] eqn:E; simpl.
  - unfold add_calls, record; simpl. rewrite <- !app_assoc; simpl.
    destruct (assignIpv6Addresses e (id networkInfo) 1) as [[[[addrs|]]|]| |];
      simpl; try reflexivity.
    destruct (indexOf_found [] (head addrs)); [reflexivity|].
    simpl. rewrite <- ?app_assoc; simpl.
    destruct (confirm e (head addrs) MYIP_CHECK_RETRY 0 _) as [[[|]| |] s4];
      reflexivity.
  - destruct Hun as [Hun|Hun]; [discriminate|]. rewrite Hun. simpl.
    unfold add_calls, record; simpl. rewrite <- !app_assoc; simpl.
    destruct (assignIpv6Addresses e (id networkInfo) 1) as [[[[addrs|]]|]| |];
      simpl; try reflexivity.
    destruct (indexOf_found (a :: l) (head addrs)); [reflexivity|].
    simpl. rewrite <- ?app_assoc; simpl.
    destruct (confirm e (head addrs) MYIP_CHECK_RETRY 0 _) as [[[|]| |] s4];
      reflexivity.
Qed.
End Rotation.

Lemma filter_polling (p : call -> bool) (cs : list call) :
  (forall c, polling c = true -> p c = false) ->
  forallb polling cs = true -> List.filter p cs = [].
Proof.
  intros Hp. induction cs as [|c cs IH]; simpl; [reflexivity|].
  intros [Hc Hcs]%andb_prop. rewrite (Hp c Hc). now apply IH.
Qed.

Lemma polling_not_local (c : call) : polling c = true -> local c = false.
Proof. now destruct c. Qed.
Lemma polling_not_unassign (c : call) : polling c = true -> is_unassign c = false.
Proof. now destruct c. Qed.
Lemma polling_not_assign (c : call) : polling c = true -> is_assign c = false.
Proof. now destruct c. Qed.
Lemma polling_not_emit (c : call) : polling c = true -> is_emit c = false.
Proof. now destruct c. Qed.

Lemma indexOf_found_In (ips : list string) (newIp : string) :
  In newIp ips -> indexOf_found ips (Some newIp) = true.
Proof.
  intros Hin. simpl. apply existsb_exists. exists newIp.
  split; [exact Hin | apply String.eqb_refl].
Qed.

Lemma indexOf_found_other (A B : string) :
  B <> A -> indexOf_found [A] (Some B) = false.
Proof.
  intros Hne. simpl. rewrite orb_false_r. now apply String.eqb_neq.
Qed.

(** The rotation touches neither the marker nor [isWorking], and neither
    emits nor unlinks. *)
Lemma request_frame (s : state) :
  exists cs, snd (requestChangeIpV6 e s) = add_calls cs s
             /\ List.filter local cs = [].
Proof.
  destruct (metadata e) as [meta| |] eqn:Hmeta.
  2,3: exists [Metadata]; unfold requestChangeIpV6; run_task; rewrite Hmeta; now simpl.
  destruct (describeInstances e (instanceId meta)) as [d| |] eqn:Hd.
  2,3: exists [Metadata; DescribeInstances [instanceId meta]];
       unfold requestChangeIpV6, networkInfo; run_task; rewrite Hmeta; simpl;
       rewrite Hd; simpl; unfold add_calls, record; simpl;
       now rewrite <- app_assoc.
  destruct (pickInterface d) as [info| |] eqn:Hpick.
  2,3: exists [Metadata; DescribeInstances [instanceId meta]];
       unfold requestChangeIpV6, networkInfo; run_task; rewrite Hmeta; simpl;
       rewrite Hd; simpl; rewrite Hpick; simpl; unfold add_calls, record; simpl;
       now rewrite <- app_assoc.
  assert (Hrot : List.filter local (rotation_calls meta info) = []).
  { unfold rotation_calls. now destruct (length (ips info) =? 0)%nat. }
  assert (Hcases : (ips info = [] \/
                    unassignIpv6Addresses e (id info) (ips info) = Resolved tt)
                   \/ (ips info <> [] /\
                       unassignIpv6Addresses e (id info) (ips info) <> Resolved tt)).
  { destruct (ips info); [left; now left|].
    destruct (unassignIpv6Addresses e (id info) (s0 :: l)) as [[]| |];
      [left; now right | right; split; congruence | right; split; congruence]. }
  destruct Hcases as [Hok|[Hips Hun]].
  - rewrite (request_assign s meta d info Hmeta Hd Hpick Hok). cbv zeta.
    destruct (assignIpv6Addresses e (id info) 1) as [[[[addrs|]]|]| |];
      try (exists (rotation_calls meta info); split; [reflexivity | exact Hrot]).
    destruct (indexOf_found (ips info) (head addrs));
      [exists (rotation_calls meta info); split; [reflexivity | exact Hrot]|].
    destruct (confirm_add_calls (head addrs) MYIP_CHECK_RETRY 0
                (add_calls [Usleep IP_CHANGE_LEADTIME]
                   (add_calls (rotation_calls meta info) s)))
      as (b & cs & Heq & Hpoll & _).
    rewrite Heq.
    exists (rotation_calls meta info ++ [Usleep IP_CHANGE_LEADTIME] ++ cs). split.
    + destruct b; cbn [snd]; now rewrite !add_calls_add_calls.
    + rewrite !List.filter_app, Hrot. simpl.
      apply (filter_polling local cs polling_not_local Hpoll).
  - rewrite (request_unassign_unsettled s meta d info Hmeta Hd Hpick Hips Hun).
    eexists. split; [reflexivity | reflexivity].
Qed.

(** What a call of [changeIpv6] does once the election lets it through. *)
Lemma changeIpv6_run (discardIfFailed : bool) (s : state) :
  electable e s -> isWorking s = false ->
  changeIpv6 e discardIfFailed s
  = match requestChangeIpV6 e (elected e s) with
    | (Resolved newIp, s1) => (Resolved newIp, released e [SIGCONT] s1)
    | (Rejected err, s1) =>
        (Rejected err, released e (if discardIfFailed then [SIGUSR1] else []) s1)
    | (Pending, s1) => (Pending, s1)
    end.
Proof.
  intros Hel Hidle.
  assert (Hlead : LeaderLock.isSupervisionProcess (pidFile e) (pid e) (fs s)
                  = (<[pidFile e := pid e]> (fs s), Resolved true)).
  { destruct Hel as [Hfree|Hown].
    - now apply isSupervisionProcess_free.
    - rewrite (isSupervisionProcess_held _ _ _ _ Hown), Z.eqb_refl.
      now rewrite (insert_id _ _ _ Hown). }
  unfold changeIpv6, isSupervisionProcess, unlinkPidFile, emit. run_task.
  rewrite Hlead. simpl. rewrite Hidle.
  change (set_isWorking true (set_fs (<[pidFile e:=pid e]> (fs s)) s)) with (elected e s).
  destruct (requestChangeIpV6 e (elected e s)) as [[newIp|err|] s1]; simpl.
  - unfold released, record, set_fs, set_isWorking. simpl.
    now rewrite <- app_assoc.
  - unfold released, record, set_fs, set_isWorking.
    destruct discardIfFailed; simpl; [now rewrite <- app_assoc | reflexivity].
  - reflexivity.
Qed.

(** A caller that finds another owner's marker, or that is already at
    work, returns [undefined] and calls nothing. *)
Lemma changeIpv6_declined (discardIfFailed : bool) (s : state) (spid : Z) :
  fs s !! pidFile e = Some spid ->
  spid <> pid e \/ isWorking s = true ->
  changeIpv6 e discardIfFailed s = (Resolved None, s).
Proof.
  intros Hheld Hwhy.
  unfold changeIpv6, isSupervisionProcess. run_task.
  rewrite (isSupervisionProcess_held _ _ _ _ Hheld).
  assert (Hs : set_fs (fs s) s = s) by now destruct s.
  destruct (Z.eqb_spec spid (pid e)) as [->|Hne]; simpl; rewrite Hs.
  - destruct Hwhy as [Hne|Hbusy]; [congruence | now rewrite Hbusy].
  - reflexivity.
Qed.
End IpManagerFacts.

Section IpManagerClaims.
Import InstanceIpManager.
Variable e : env.

(** C5: in a run whose assignment call returns, as its first address, one
    that [networkInfo] had listed as bound, [requestChangeIpV6] throws
    right after the assignment: the calls made are the rotation's only,
    with no lookup of the echo service and no sleep among them; the run
    of [changeIpv6] ends with that same error. *)
Theorem C5_stale_address_fails_at_once
        (discardIfFailed : bool) (s : state)
        (instanceMeta : EC2MetaDataResponse)
        (instanceDetail : option DescribeInstancesResult)
        (networkInfo : NetworkInfo) (newIp : string) (others : list string) :
  metadata e = Resolved instanceMeta ->
  describeInstances e (instanceId instanceMeta) = Resolved instanceDetail ->
  pickInterface instanceDetail = Resolved networkInfo ->
  unassignIpv6Addresses e (id networkInfo) (ips networkInfo) = Resolved tt ->
  assignIpv6Addresses e (id networkInfo) 1
    = Resolved (Some {| AssignedIpv6Addresses := Some (newIp :: others) |}) ->
  In newIp (ips networkInfo) ->
  requestChangeIpV6 e s
    = (Rejected StaleAddress, add_calls (rotation_calls instanceMeta networkInfo) s)
  /\ lookups (rotation_calls instanceMeta networkInfo) = 0%nat
  /\ List.filter is_usleep (rotation_calls instanceMeta networkInfo) = []
  /\ (electable e s -> isWorking s = false ->
      changeIpv6 e discardIfFailed s
      = (Rejected StaleAddress,
         released e (if discardIfFailed then [SIGUSR1] else [])
                  (add_calls (rotation_calls instanceMeta networkInfo)
                             (elected e s)))).
Proof.
  intros Hmeta Hd Hpick Hun Hassign Hin.
  assert (Hreq : forall s0, requestChangeIpV6 e s0
            = (Rejected StaleAddress,
               add_calls (rotation_calls instanceMeta networkInfo) s0)).
  { intros s0.
    rewrite (request_assign e s0 _ _ _ Hmeta Hd Hpick (or_intror Hun)).
    cbv zeta. rewrite Hassign. cbn [head].
    now rewrite (indexOf_found_In _ _ Hin). }
  conjs.
  - apply Hreq.
  - unfold rotation_calls, lookups.
    now destruct (length (ips networkInfo) =? 0)%nat.
  - unfold rotation_calls.
    now destruct (length (ips networkInfo) =? 0)%nat.
  - intros Hel Hidle. rewrite (changeIpv6_run e _ _ Hel Hidle).
    now rewrite Hreq.
Qed.

(** C6: once the interface is known, the rotation asks to unassign
    exactly the addresses [networkInfo] listed, in one call, and makes no
    such call when the list is empty; it asks for new addresses at most
    once and always for one; when the unassign did not fail that call is
    made, and if it comes back without an address the run is rejected. *)
Theorem C6_rotation_calls
        (s : state) (instanceMeta : EC2MetaDataResponse)
        (instanceDetail : option DescribeInstancesResult)
        (networkInfo : NetworkInfo) :
  metadata e = Resolved instanceMeta ->
  describeInstances e (instanceId instanceMeta) = Resolved instanceDetail ->
  pickInterface instanceDetail = Resolved networkInfo ->
  let unassign := UnassignIpv6Addresses (id networkInfo) (ips networkInfo) in
  let assign := AssignIpv6Addresses (id networkInfo) 1 in
  let '(r, s') := requestChangeIpV6 e s in
  exists cs,
    calls s' = calls s ++ cs
    /\ List.filter is_unassign cs
       = (if Nat.eqb (length (ips networkInfo)) 0 then [] else [unassign])
    /\ (List.filter is_assign cs = [] \/ List.filter is_assign cs = [assign])
    /\ (ips networkInfo = [] \/
        unassignIpv6Addresses e (id networkInfo) (ips networkInfo) = Resolved tt ->
        List.filter is_assign cs = [assign]
        /\ forall a, assignIpv6Addresses e (id networkInfo) 1 = Resolved a ->
                     no_address a -> exists err, r = Rejected err).
Proof.
  intros Hmeta Hd Hpick unassign assign.
  assert (Hrot_un : List.filter is_unassign (rotation_calls instanceMeta networkInfo)
                    = (if Nat.eqb (length (ips networkInfo)) 0 then [] else [unassign])).
  { unfold rotation_calls. now destruct (length (ips networkInfo) =? 0)%nat. }
  assert (Hrot_as : List.filter is_assign (rotation_calls instanceMeta networkInfo)
                    = [assign]).
  { unfold rotation_calls. now destruct (length (ips networkInfo) =? 0)%nat. }
  assert (Hcases : (ips networkInfo = [] \/
                    unassignIpv6Addresses e (id networkInfo) (ips networkInfo) = Resolved tt)
                   \/ (ips networkInfo <> [] /\
                       unassignIpv6Addresses e (id networkInfo) (ips networkInfo)
                       <> Resolved tt)).
  { destruct (ips networkInfo) as [|a l]; [left; now left|].
    destruct (unassignIpv6Addresses e (id networkInfo) (a :: l)) as [[]| |];
      [left; now right | right; split; congruence | right; split; congruence]. }
  destruct Hcases as [Hok|[Hips Hun]].
  - rewrite (request_assign e s _ _ _ Hmeta Hd Hpick Hok). cbv zeta.
    destruct (assignIpv6Addresses e (id networkInfo) 1) as [a| |] eqn:Hassign.
    2,3: exists (rotation_calls instanceMeta networkInfo);
         conjs; [reflexivity | exact Hrot_un | now right |];
         intros _; split; [exact Hrot_as | intros a; discriminate].
    destruct a as [[[addrs|]]|].
    2,3: exists (rotation_calls instanceMeta networkInfo);
         conjs; [reflexivity | exact Hrot_un | now right |];
         intros _; split; [exact Hrot_as | intros a _ _; now exists AssignFailed].
    destruct (indexOf_found (ips networkInfo) (head addrs)) eqn:Hfound.
    { exists (rotation_calls instanceMeta networkInfo).
      conjs; [reflexivity | exact Hrot_un | now right |].
      intros _; split; [exact Hrot_as | intros a _ _; now exists StaleAddress]. }
    destruct (confirm_add_calls e (head addrs) MYIP_CHECK_RETRY 0
                (add_calls [Usleep IP_CHANGE_LEADTIME]
                   (add_calls (rotation_calls instanceMeta networkInfo) s)))
      as (b & cs & Heq & Hpoll & _).
    pose proof (confirm_undefined e MYIP_CHECK_RETRY 0
                  (add_calls [Usleep IP_CHANGE_LEADTIME]
                     (add_calls (rotation_calls instanceMeta networkInfo) s)))
      as Hundef.
    rewrite Heq.
    assert (Htail_un : List.filter is_unassign
              (rotation_calls instanceMeta networkInfo
               ++ [Usleep IP_CHANGE_LEADTIME] ++ cs)
            = (if Nat.eqb (length (ips networkInfo)) 0 then [] else [unassign])).
    { rewrite !List.filter_app, Hrot_un. simpl.
      rewrite (filter_polling is_unassign cs polling_not_unassign Hpoll).
      apply app_nil_r. }
    assert (Htail_as : List.filter is_assign
              (rotation_calls instanceMeta networkInfo
               ++ [Usleep IP_CHANGE_LEADTIME] ++ cs) = [assign]).
    { rewrite !List.filter_app, Hrot_as. simpl.
      now rewrite (filter_polling is_assign cs polling_not_assign Hpoll). }
    destruct b; cbv beta iota;
      exists (rotation_calls instanceMeta networkInfo ++ [Usleep IP_CHANGE_LEADTIME] ++ cs).
    + conjs; [unfold add_calls; cbn [calls]; now rewrite <- !app_assoc
             | exact Htail_un | now right |].
      intros _; split; [exact Htail_as|].
      intros a [= <-] Hno. simpl in Hno.
      destruct addrs; [|contradiction]. cbn [head] in Heq.
      rewrite Heq in Hundef. discriminate Hundef.
    + conjs; [unfold add_calls; cbn [calls]; now rewrite <- !app_assoc
             | exact Htail_un | now right |].
      intros _; split; [exact Htail_as | intros a _ _; now exists ConfirmFailed].
  - rewrite (request_unassign_unsettled e s _ _ _ Hmeta Hd Hpick Hips Hun).
    exists [Metadata; DescribeInstances [instanceId instanceMeta]; unassign].
    conjs; [reflexivity | | now left | intros [?|?]; contradiction].
    simpl. destruct (ips networkInfo); [contradiction | reflexivity].
Qed.

(** C7: a run that wins the election, finds the interface bound to [A]
    alone, has its unassign accepted and is assigned [B], different from
    [A], asks to unassign [A] once and for one new address once. If one
    of the (at most 30) lookups returns [B] -- failed lookups count as no
    match -- [changeIpv6] returns [B], gives the marker back and emits
    SIGCONT last; if none of the 30 does, the run is rejected after 30
    lookups and SIGCONT is not emitted. *)
Theorem C7_remediation_success
        (discardIfFailed : bool) (s : state)
        (instanceMeta : EC2MetaDataResponse)
        (instanceDetail : option DescribeInstancesResult)
        (nid A B : string) :
  electable e s -> isWorking s = false ->
  metadata e = Resolved instanceMeta ->
  describeInstances e (instanceId instanceMeta) = Resolved instanceDetail ->
  pickInterface instanceDetail = Resolved {| id := nid; ips := [A] |} ->
  unassignIpv6Addresses e nid [A] = Resolved tt ->
  assignIpv6Addresses e nid 1
    = Resolved (Some {| AssignedIpv6Addresses := Some [B] |}) ->
  B <> A ->
  let '(r, s') := changeIpv6 e discardIfFailed s in
  exists cs,
    calls s' = calls s ++ cs
    /\ List.filter is_unassign cs = [UnassignIpv6Addresses nid [A]]
    /\ List.filter is_assign cs = [AssignIpv6Addresses nid 1]
    /\ (lookups cs <= MYIP_CHECK_RETRY)%nat
    /\ fs s' !! pidFile e = None
    /\ ((exists k, (k < MYIP_CHECK_RETRY)%nat /\ rp_get e k = Resolved B) ->
        r = Resolved (Some B)
        /\ List.filter is_emit cs = [Emit SIGCONT]
        /\ last cs = Some (Emit SIGCONT)
        /\ (1 <= lookups cs)%nat)
    /\ ((forall k, (k < MYIP_CHECK_RETRY)%nat -> rp_get e k <> Resolved B) ->
        r = Rejected ConfirmFailed
        /\ lookups cs = MYIP_CHECK_RETRY
        /\ List.filter is_emit cs
           = (if discardIfFailed then [Emit SIGUSR1] else [])).
Proof.
  intros Hel Hidle Hmeta Hd Hpick Hun Hassign Hne.
  rewrite (changeIpv6_run e _ _ Hel Hidle).
  rewrite (request_assign e _ _ _ _ Hmeta Hd Hpick (or_intror Hun)).
  cbv zeta. cbn [id ips]. rewrite Hassign. cbn [head].
  rewrite (indexOf_found_other A B Hne).
  set (rot := rotation_calls instanceMeta {| id := nid; ips := [A] |}).
  assert (Hrot : rot = [Metadata; DescribeInstances [instanceId instanceMeta];
                        UnassignIpv6Addresses nid [A]; AssignIpv6Addresses nid 1])
    by reflexivity.
  destruct (confirm_add_calls e (Some B) MYIP_CHECK_RETRY 0
              (add_calls [Usleep IP_CHANGE_LEADTIME] (add_calls rot (elected e s))))
    as (b & cs0 & Heq & Hpoll & Hle & Hmiss & Hhit).
  pose proof (filter_polling is_unassign cs0 polling_not_unassign Hpoll) as Hun0.
  pose proof (filter_polling is_assign cs0 polling_not_assign Hpoll) as Has0.
  pose proof (filter_polling is_emit cs0 polling_not_emit Hpoll) as Hem0.
  assert (Hlook : forall tail, List.filter is_lookup tail = [] ->
             lookups (rot ++ [Usleep IP_CHANGE_LEADTIME] ++ cs0 ++ tail) = lookups cs0).
  { intros tail Htail. unfold lookups. rewrite Hrot.
    rewrite !List.filter_app, Htail. simpl. now rewrite app_nil_r. }
  rewrite Heq. destruct b; cbv beta iota.
  - exists (rot ++ [Usleep IP_CHANGE_LEADTIME] ++ cs0 ++ [UnlinkPidFile; Emit SIGCONT]).
    conjs.
    + unfold released, add_calls, elected. cbn [calls map].
      now rewrite <- !app_assoc.
    + rewrite Hrot, !List.filter_app, Hun0. reflexivity.
    + rewrite Hrot, !List.filter_app, Has0. reflexivity.
    + rewrite Hlook by reflexivity. exact Hle.
    + apply unlinkPidFile_gone.
    + intros _. conjs.
      * reflexivity.
      * rewrite Hrot, !List.filter_app, Hem0. reflexivity.
      * change [UnlinkPidFile; Emit SIGCONT] with ([UnlinkPidFile] ++ [Emit SIGCONT]).
        rewrite !app_assoc. apply last_snoc.
      * rewrite Hlook by reflexivity. now apply Hhit.
    + intros Hnone.
      assert (Hfalse : fst (confirm e (Some B) MYIP_CHECK_RETRY 0
                (add_calls [Usleep IP_CHANGE_LEADTIME] (add_calls rot (elected e s))))
              = Resolved false).
      { apply confirm_miss. intros k ip Hk Hget. simpl.
        apply String.eqb_neq. intros ->. now apply (Hnone k Hk). }
      rewrite Heq in Hfalse. discriminate Hfalse.
  - exists (rot ++ [Usleep IP_CHANGE_LEADTIME] ++ cs0
            ++ UnlinkPidFile :: map Emit (if discardIfFailed then [SIGUSR1] else [])).
    assert (Htail : List.filter is_lookup
              (UnlinkPidFile :: map Emit (if discardIfFailed then [SIGUSR1] else [])) = [])
      by now destruct discardIfFailed.
    conjs.
    + unfold released, add_calls, elected. cbn [calls].
      now rewrite <- !app_assoc.
    + rewrite Hrot, !List.filter_app, Hun0. now destruct discardIfFailed.
    + rewrite Hrot, !List.filter_app, Has0. now destruct discardIfFailed.
    + rewrite (Hlook _ Htail). exact Hle.
    + apply unlinkPidFile_gone.
    + intros (k & Hk & Hget).
      assert (Htrue : fst (confirm e (Some B) MYIP_CHECK_RETRY 0
                (add_calls [Usleep IP_CHANGE_LEADTIME] (add_calls rot (elected e s))))
              = Resolved true)
        by now apply (confirm_hit e B MYIP_CHECK_RETRY 0 k).
      rewrite Heq in Htrue. discriminate Htrue.
    + intros _. conjs.
      * reflexivity.
      * rewrite (Hlook _ Htail). now apply Hmiss.
      * rewrite Hrot, !List.filter_app, Hem0. now destruct discardIfFailed.
Qed.

(** C8: a run that got past the election ends as [requestChangeIpV6]
    does. If that throws, [changeIpv6] clears [isWorking], unlinks the
    marker, emits SIGUSR1 if and only if [discardIfFailed] is set, and
    rethrows the same error. If it returns, [changeIpv6] unlinks the
    marker, emits SIGCONT and returns the address. Unlinking a marker
    that is already gone throws inside [unlinkPidFile] and is swallowed
    there. *)
Theorem C8_release_and_signal (discardIfFailed : bool) (s : state) :
  electable e s -> isWorking s = false ->
  let '(r_request, s1) := requestChangeIpV6 e (elected e s) in
  let '(r, s') := changeIpv6 e discardIfFailed s in
  match r with
  | Rejected err =>
      r_request = Rejected err
      /\ fs s' !! pidFile e = None
      /\ isWorking s' = false
      /\ calls s' = calls s1 ++ UnlinkPidFile
                             :: (if discardIfFailed then [Emit SIGUSR1] else [])
      /\ List.filter local (calls s')
         = List.filter local (calls s)
           ++ UnlinkPidFile :: (if discardIfFailed then [Emit SIGUSR1] else [])
  | Resolved newIp =>
      r_request = Resolved newIp
      /\ fs s' !! pidFile e = None
      /\ isWorking s' = false
      /\ calls s' = calls s1 ++ [UnlinkPidFile; Emit SIGCONT]
      /\ List.filter local (calls s')
         = List.filter local (calls s) ++ [UnlinkPidFile; Emit SIGCONT]
  | Pending => r_request = Pending /\ s' = s1
  end
  /\ (forall f : gmap string Z,
        f !! pidFile e = None ->
        Fs.unlinkSync (pidFile e) f = None
        /\ LeaderLock.unlinkPidFile (pidFile e) f = f).
Proof.
  intros Hel Hidle.
  rewrite (changeIpv6_run e _ _ Hel Hidle).
  destruct (request_frame e (elected e s)) as (cs & Hs1 & Hquiet).
  destruct (requestChangeIpV6 e (elected e s)) as [[newIp|err|] s1];
    cbn [snd] in Hs1; subst s1;
    (split; [|intros f Hf; now apply unlinkPidFile_missing]).
  - conjs; try reflexivity.
    + apply unlinkPidFile_gone.
    + unfold released, add_calls, elected. cbn [calls map].
      rewrite !List.filter_app, Hquiet. now rewrite app_nil_r.
  - conjs; try reflexivity.
    + apply unlinkPidFile_gone.
    + now destruct discardIfFailed.
    + unfold released, add_calls, elected. cbn [calls].
      rewrite !List.filter_app, Hquiet, app_nil_r.
      now destruct discardIfFailed.
  - split; reflexivity.
Qed.
End IpManagerClaims.

Section IpManagerWitnesses.
Import InstanceIpManager Samples.

Lemma C5_stale_address_fails_at_once_witness :
  let e := remediation [A; B] (Some [A]) A in
  let info := {| id := "eni-1"; ips := [A; B] |} in
  requestChangeIpV6 e (init ∅)
    = (Rejected StaleAddress, add_calls (rotation_calls meta info) (init ∅))
  /\ lookups (rotation_calls meta info) = 0%nat
  /\ List.filter is_usleep (rotation_calls meta info) = []
  /\ (electable e (init ∅) -> isWorking (init ∅) = false ->
      changeIpv6 e true (init ∅)
      = (Rejected StaleAddress,
         released e [SIGUSR1]
                  (add_calls (rotation_calls meta info) (elected e (init ∅))))).
Proof.
  apply (C5_stale_address_fails_at_once
           (remediation [A; B] (Some [A]) A) true (init ∅) meta
           (detail [A; B]) {| id := "eni-1"; ips := [A; B] |} A []);
    try reflexivity.
  simpl. now left.
Defined.

Lemma C6_rotation_calls_witness :
  let e := remediation [A] (Some []) A in
  let '(r, s') := requestChangeIpV6 e (init ∅) in
  exists cs,
    calls s' = calls (init ∅) ++ cs
    /\ List.filter is_unassign cs = [UnassignIpv6Addresses "eni-1" [A]]
    /\ (List.filter is_assign cs = [] \/
        List.filter is_assign cs = [AssignIpv6Addresses "eni-1" 1])
    /\ ([A] = [] \/ unassignIpv6Addresses e "eni-1" [A] = Resolved tt ->
        List.filter is_assign cs = [AssignIpv6Addresses "eni-1" 1]
        /\ forall a, assignIpv6Addresses e "eni-1" 1 = Resolved a ->
                     no_address a -> exists err, r = Rejected err).
Proof.
  exact (C6_rotation_calls (remediation [A] (Some []) A) (init ∅) meta
           (detail [A]) {| id := "eni-1"; ips := [A] |}
           eq_refl eq_refl eq_refl).
Defined.

Lemma C7_remediation_success_witness :
  let e := remediation [A] (Some [B]) B in
  let '(r, s') := changeIpv6 e true (init ∅) in
  exists cs,
    calls s' = calls (init ∅) ++ cs
    /\ List.filter is_unassign cs = [UnassignIpv6Addresses "eni-1" [A]]
    /\ List.filter is_assign cs = [AssignIpv6Addresses "eni-1" 1]
    /\ (lookups cs <= MYIP_CHECK_RETRY)%nat
    /\ fs s' !! pidFile e = None
    /\ ((exists k, (k < MYIP_CHECK_RETRY)%nat /\ rp_get e k = Resolved B) ->
        r = Resolved (Some B)
        /\ List.filter is_emit cs = [Emit SIGCONT]
        /\ last cs = Some (Emit SIGCONT)
        /\ (1 <= lookups cs)%nat)
    /\ ((forall k, (k < MYIP_CHECK_RETRY)%nat -> rp_get e k <> Resolved B) ->
        r = Rejected ConfirmFailed
        /\ lookups cs = MYIP_CHECK_RETRY
        /\ List.filter is_emit cs = [Emit SIGUSR1]).
Proof.
  apply (C7_remediation_success (remediation [A] (Some [B]) B) true (init ∅)
           meta (detail [A]) "eni-1" A B);
    try reflexivity.
  - now left.
  - discriminate.
Defined.

Lemma C8_release_and_signal_witness :
  let e := remediation [A] (Some [A]) A in
  let '(r_request, s1) := requestChangeIpV6 e (elected e (init ∅)) in
  let '(r, s') := changeIpv6 e true (init ∅) in
  match r with
  | Rejected err =>
      r_request = Rejected err
      /\ fs s' !! pidFile e = None
      /\ isWorking s' = false
      /\ calls s' = calls s1 ++ [UnlinkPidFile; Emit SIGUSR1]
      /\ List.filter local (calls s')
         = List.filter local (calls (init ∅)) ++ [UnlinkPidFile; Emit SIGUSR1]
  | Resolved newIp =>
      r_request = Resolved newIp
      /\ fs s' !! pidFile e = None
      /\ isWorking s' = false
      /\ calls s' = calls s1 ++ [UnlinkPidFile; Emit SIGCONT]
      /\ List.filter local (calls s')
         = List.filter local (calls (init ∅)) ++ [UnlinkPidFile; Emit SIGCONT]
  | Pending => r_request = Pending /\ s' = s1
  end
  /\ (forall f : gmap string Z,
        f !! pidFile e = None ->
        Fs.unlinkSync (pidFile e) f = None
        /\ LeaderLock.unlinkPidFile (pidFile e) f = f).
Proof.
  apply (C8_release_and_signal (remediation [A] (Some [A]) A) true (init ∅)).
  - now left.
  - reflexivity.
Defined.
End IpManagerWitnesses.

(* ================================================================== *)
(** * Properties of BatchManager *)

Section SchedulerFacts.
Import Scheduler.

Lemma nextTick_mgr (w : world) : mgr (nextTick w) = mgr w.
Proof. unfold nextTick. now destruct (_ && _). Qed.

Lemma nextTick_conts (w : world) : conts (nextTick w) = conts w.
Proof. unfold nextTick. now destruct (_ && _). Qed.

Lemma nextTick_balance (w : world) : balance (nextTick w) = balance w.
Proof. unfold balance. now rewrite nextTick_mgr, nextTick_conts. Qed.

(** [nextTick] exits exactly when the counter is 0 and the kill flag is
    set, and always with code 0. *)
Lemma nextTick_exited (w : world) :
  exited w = None ->
  exited (nextTick w)
  = if Z.eqb (nowRunningTask (mgr w)) 0 && needKillProcess (mgr w)
    then Some 0 else None.
Proof. intros Hw. unfold nextTick. now destruct (_ && _). Qed.

Lemma start_runs_frame (tasks : list jobClass) (w : world) :
  mgr (snd (start_runs tasks w)) = mgr w
  /\ conts (snd (start_runs tasks w)) = conts w
  /\ exited (snd (start_runs tasks w)) = exited w.
Proof.
  revert w. induction tasks as [|task rest IH]; intros w; [easy|].
  simpl. destruct (start_runs rest _) as [js w2] eqn:E.
  specialize (IH (fresh (with_running (fun r => r ++ [next w]) (say [Run (next w) task] w)))).
  rewrite E in IH. exact IH.
Qed.

Lemma filter_counted_app (cs : list cont) (c : cont) :
  length (List.filter counted (cs ++ [c]))
  = (length (List.filter counted cs) + (if counted c then 1 else 0))%nat.
Proof.
  rewrite List.filter_app, length_app. simpl. now destruct (counted c).
Qed.

Lemma tick_balance (jobName : string) (task : jobClass) (w : world) :
  balance (tick jobName task w) = balance w.
Proof.
  unfold tick. destruct (held (mgr w)); [reflexivity|].
  unfold balance. simpl. rewrite filter_counted_app. simpl. lia.
Qed.

Lemma iterate_balance (jobName : string) (tasks : jobClass + list jobClass) (w : world) :
  balance (iterate jobName tasks w) = balance w.
Proof.
  unfold iterate. destruct (held (mgr w)).
  - unfold balance. simpl. rewrite filter_counted_app. simpl. lia.
  - destruct tasks as [task|tasks].
    + unfold balance. simpl. rewrite filter_counted_app. simpl. lia.
    + destruct (start_runs tasks _) as [js w2] eqn:E.
      pose proof (start_runs_frame tasks (say [Start jobName] (incr w))) as (Hm & Hc & _).
      rewrite E in Hm, Hc. simpl in Hm, Hc.
      unfold balance. simpl. rewrite Hm, Hc, filter_counted_app. simpl. lia.
Qed.

Lemma tick_resume_balance (jobName : string) (r : settled) (w : world) :
  balance (tick_resume jobName r w) = balance w - 1.
Proof.
  unfold tick_resume. rewrite nextTick_balance.
  unfold balance. destruct r; simpl; lia.
Qed.

Lemma loop_resume_balance (jobName : string) (tasks : jobClass + list jobClass)
      (r : settled) (w : world) :
  balance (loop_resume jobName tasks r w) = balance w - 1.
Proof.
  unfold loop_resume.
  assert (H : balance (nextTick (decr match r with
                                      | Fulfilled => say [Completed jobName] w
                                      | Thrown e => say [ConsoleError e] w
                                      end)) = balance w - 1).
  { rewrite nextTick_balance. unfold balance. destruct r; simpl; lia. }
  destruct (alive _); [now rewrite iterate_balance | exact H].
Qed.

Lemma sleep_resume_balance (jobName : string) (tasks : jobClass + list jobClass)
      (w : world) :
  balance (sleep_resume jobName tasks w) = balance w.
Proof.
  unfold sleep_resume.
  destruct (alive _); [rewrite iterate_balance|]; apply nextTick_balance.
Qed.

Lemma take_Some (p : cont -> bool) (cs : list cont) (c : cont) (rest : list cont) :
  take p cs = Some (c, rest) ->
  p c = true
  /\ length (List.filter counted cs)
     = ((if counted c then 1 else 0) + length (List.filter counted rest))%nat.
Proof.
  revert rest. induction cs as [|c0 cs IH]; intros rest; simpl; [discriminate|].
  destruct (p c0) eqn:Hp.
  - intros [= <- <-]. split; [exact Hp|]. destruct (counted c0); reflexivity.
  - destruct (take p cs) as [[c' rest']|]; [|discriminate].
    intros [= <- <-]. destruct (IH rest' eq_refl) as [Hc Hlen].
    split; [exact Hc|]. simpl. destruct (counted c0), (counted c'); simpl; lia.
Qed.

Lemma waits_on_run_counted (j : nat) (c : cont) :
  waits_on_run j c = true -> counted c = true.
Proof. unfold waits_on_run, counted. destruct (waits c); easy. Qed.

Lemma waits_on_nothing_counted (c : cont) :
  waits_on_nothing c = true -> counted c = true.
Proof. unfold waits_on_nothing, counted. destruct (waits c); easy. Qed.

Lemma waits_on_usleep_counted (t : nat) (c : cont) :
  waits_on_usleep t c = true -> counted c = false.
Proof. unfold waits_on_usleep, counted. destruct (waits c); easy. Qed.

Lemma settle_balance (j : nat) (r : settled) (w : world) :
  balance (settle j r w) = balance w.
Proof.
  unfold settle. destruct (negb _); [reflexivity|].
  cbn [conts with_running].
  destruct (take (waits_on_run j) (conts w)) as [[c rest]|] eqn:Htake;
    [|reflexivity].
  destruct (take_Some _ _ _ _ Htake) as [Hc Hlen].
  apply waits_on_run_counted in Hc. rewrite Hc in Hlen.
  set (w1 := with_conts (fun _ => rest) (with_running (remove_nat j) w)).
  assert (Hw1 : balance w1 = balance w + 1).
  { unfold balance, w1. simpl. rewrite Hlen. lia. }
  destruct (owner c) as [jobName|jobName tasks].
  - rewrite tick_resume_balance. lia.
  - destruct (waits c) as [j'|js|t] eqn:Hwaits;
      try (rewrite loop_resume_balance; lia).
    destruct r; [|rewrite loop_resume_balance; lia].
    destruct (remove_nat j js) as [|j' js'];
      [rewrite loop_resume_balance; lia|].
    unfold balance, suspend. cbn [mgr conts with_conts].
    rewrite filter_counted_app. cbn [counted waits].
    unfold balance in Hw1. lia.
Qed.

Lemma on_signal_balance (sig : signal) (w : world) :
  balance (on_signal sig w) = balance w.
Proof.
  destruct sig; simpl.
  - now destruct (enableDiscarder (mgr w)).
  - now destruct (enableIpManager (mgr w)).
  - reflexivity.
  - now rewrite nextTick_balance.
Qed.

Lemma step_balance (ev : event) (w : world) :
  balance (step ev w) = balance w.
Proof.
  unfold step. destruct (negb (alive w)); [reflexivity|].
  destruct ev as [jobName schedule task|i|jobName tasks|j r|t| |sig].
  - reflexivity.
  - destruct (booked w !! i) as [[jobName task]|]; [apply tick_balance | reflexivity].
  - now rewrite iterate_balance.
  - apply settle_balance.
  - destruct (take (waits_on_usleep t) (conts w)) as [[[[jobName|jobName tasks] a] rest]|]
      eqn:Htake; try reflexivity.
    destruct (take_Some _ _ _ _ Htake) as [Hc Hlen].
    apply waits_on_usleep_counted in Hc. rewrite Hc in Hlen.
    rewrite sleep_resume_balance. unfold balance. simpl. rewrite Hlen. lia.
  - destruct (take waits_on_nothing (conts w)) as [[[[jobName|jobName tasks] a] rest]|]
      eqn:Htake; try reflexivity.
    destruct (take_Some _ _ _ _ Htake) as [Hc Hlen].
    apply waits_on_nothing_counted in Hc. rewrite Hc in Hlen.
    rewrite loop_resume_balance. unfold balance. simpl. rewrite Hlen. lia.
  - apply on_signal_balance.
Qed.

Lemma run_balance (evs : list event) (w : world) :
  balance (run evs w) = balance w.
Proof.
  revert w. induction evs as [|ev evs IH]; intros w; [reflexivity|].
  simpl. change (fold_left _ evs (step ev w)) with (run evs (step ev w)).
  now rewrite IH, step_balance.
Qed.
End SchedulerFacts.

(** C10: whatever happens to a freshly built manager -- bookings, cron
    ticks, calls of [infinite], runs that fulfil or throw, sleeps, signals
    -- [nowRunningTask] equals the number of callbacks suspended between
    its increment and its decrement (a booked tick or a loop pass whose
    awaited run has not settled), so it is never negative; and resuming
    such a callback takes exactly one off the counter, whether the run
    fulfilled or threw. *)
Theorem C10_counter_never_negative
        (enableDiscarder enableIpManager : bool) (evs : list Scheduler.event) :
  let w := Scheduler.run evs (Scheduler.init enableDiscarder enableIpManager) in
  Scheduler.nowRunningTask (Scheduler.mgr w)
  = Z.of_nat (length (List.filter Scheduler.counted (Scheduler.conts w)))
  /\ 0 <= Scheduler.nowRunningTask (Scheduler.mgr w)
  /\ (forall jobName r w0,
        Scheduler.nowRunningTask (Scheduler.mgr (Scheduler.tick_resume jobName r w0))
        = Scheduler.nowRunningTask (Scheduler.mgr w0) - 1)
  /\ (forall jobName tasks r w0,
        Scheduler.balance (Scheduler.loop_resume jobName tasks r w0)
        = Scheduler.balance w0 - 1).
Proof.
  intros w.
  assert (H : Scheduler.balance w = 0).
  { unfold w. now rewrite run_balance. }
  unfold Scheduler.balance in H. conjs.
  - lia.
  - lia.
  - intros jobName r w0. unfold Scheduler.tick_resume.
    rewrite nextTick_mgr. now destruct r.
  - intros. apply loop_resume_balance.
Qed.

Section SchedulerReachable.
Import Scheduler.

Lemma cont_below_S (n : nat) (c : cont) : cont_below n c -> cont_below (S n) c.
Proof.
  unfold cont_below. destruct (waits c) as [j|js|t]; try lia.
  apply List.Forall_impl. intros; lia.
Qed.

Lemma cont_below_le (n m : nat) (c : cont) :
  (n <= m)%nat -> cont_below n c -> cont_below m c.
Proof.
  induction 1 as [|m Hle IH]; [easy|]. intros H. now apply cont_below_S, IH.
Qed.

Lemma fresh_ids_nextTick (w : world) : fresh_ids w -> fresh_ids (nextTick w).
Proof. unfold nextTick. now destruct (_ && _). Qed.

(** Starting the runs of a fan-out hands out consecutive numbers. *)
Lemma start_runs_ids (tasks : list jobClass) (w : world) :
  fresh_ids w ->
  let '(js, w2) := start_runs tasks w in
  fresh_ids w2 /\ (next w <= next w2)%nat
  /\ Forall (fun j => (j < next w2)%nat) js.
Proof.
  revert w. induction tasks as [|task rest IH]; intros w Hw; simpl.
  - conjs; [exact Hw | lia | constructor].
  - set (w1 := fresh (with_running (fun r => r ++ [next w]) (say [Run (next w) task] w))).
    assert (Hw1 : fresh_ids w1).
    { destruct Hw as [Hr Hc]. split; simpl.
      - apply Forall_app. split.
        + eapply List.Forall_impl; [|exact Hr]. intros; simpl in *; lia.
        + repeat constructor.
      - eapply List.Forall_impl; [|exact Hc]. intros c. apply cont_below_S. }
    specialize (IH w1 Hw1). destruct (start_runs rest w1) as [js w2].
    destruct IH as (Hw2 & Hle & Hjs). simpl in Hle.
    conjs; [exact Hw2 | lia | constructor; [lia | exact Hjs]].
Qed.

Lemma fresh_ids_suspend (c : cont) (w : world) :
  fresh_ids w -> cont_below (next w) c -> fresh_ids (suspend c w).
Proof.
  intros [Hr Hc] Hbelow. split; simpl; [exact Hr|].
  apply Forall_app. split; [exact Hc | now repeat constructor].
Qed.

Lemma fresh_ids_start_run (w : world) (es : list effect) :
  fresh_ids w ->
  fresh_ids (fresh (with_running (fun r => r ++ [next w]) (say es w))).
Proof.
  intros [Hr Hc]. split; simpl.
  - apply Forall_app. split.
    + eapply List.Forall_impl; [|exact Hr]. intros; simpl in *; lia.
    + repeat constructor.
  - eapply List.Forall_impl; [|exact Hc]. intros c. apply cont_below_S.
Qed.

Lemma fresh_ids_tick (jobName : string) (task : jobClass) (w : world) :
  fresh_ids w -> fresh_ids (tick jobName task w).
Proof.
  intros Hw. unfold tick. destruct (held (mgr w)); [exact Hw|].
  cbn [start_run next say incr with_mgr].
  apply fresh_ids_suspend.
  - apply (fresh_ids_start_run (say [CheckIn jobName] (incr w))). exact Hw.
  - unfold cont_below. simpl. lia.
Qed.

Lemma fresh_ids_iterate (jobName : string) (tasks : jobClass + list jobClass)
      (w : world) :
  fresh_ids w -> fresh_ids (iterate jobName tasks w).
Proof.
  intros Hw. unfold iterate. destruct (held (mgr w)).
  - apply fresh_ids_suspend.
    + destruct Hw as [Hr Hc]. split; simpl.
      * eapply List.Forall_impl; [|exact Hr]. intros; simpl in *; lia.
      * eapply List.Forall_impl; [|exact Hc]. intros c. apply cont_below_S.
    + unfold cont_below. simpl. lia.
  - destruct tasks as [task|tasks].
    + cbn [start_run next say incr with_mgr].
      apply fresh_ids_suspend.
      * apply (fresh_ids_start_run (say [Start jobName] (incr w))). exact Hw.
      * unfold cont_below. simpl. lia.
    + pose proof (start_runs_ids tasks (say [Start jobName] (incr w)) Hw) as H.
      destruct (start_runs tasks _) as [js w2]. destruct H as (Hw2 & _ & Hjs).
      apply fresh_ids_suspend; [exact Hw2 | exact Hjs].
Qed.

Lemma fresh_ids_tick_resume (jobName : string) (r : settled) (w : world) :
  fresh_ids w -> fresh_ids (tick_resume jobName r w).
Proof.
  intros Hw. unfold tick_resume. apply fresh_ids_nextTick. now destruct r.
Qed.

Lemma fresh_ids_loop_resume (jobName : string) (tasks : jobClass + list jobClass)
      (r : settled) (w : world) :
  fresh_ids w -> fresh_ids (loop_resume jobName tasks r w).
Proof.
  intros Hw. unfold loop_resume.
  assert (H : fresh_ids (nextTick (decr match r with
                                         | Fulfilled => say [Completed jobName] w
                                         | Thrown e => say [ConsoleError e] w
                                         end))).
  { apply fresh_ids_nextTick. now destruct r. }
  destruct (alive _); [now apply fresh_ids_iterate | exact H].
Qed.

Lemma fresh_ids_sleep_resume (jobName : string) (tasks : jobClass + list jobClass)
      (w : world) :
  fresh_ids w -> fresh_ids (sleep_resume jobName tasks w).
Proof.
  intros Hw. unfold sleep_resume.
  destruct (alive _); [apply fresh_ids_iterate|]; now apply fresh_ids_nextTick.
Qed.

Lemma take_Forall (P : cont -> Prop) (p : cont -> bool) (cs : list cont)
      (c : cont) (rest : list cont) :
  take p cs = Some (c, rest) -> Forall P cs -> P c /\ Forall P rest.
Proof.
  revert rest. induction cs as [|c0 cs IH]; intros rest; simpl; [discriminate|].
  destruct (p c0).
  - intros [= <- <-] H. now inversion H.
  - destruct (take p cs) as [[c' rest']|]; [|discriminate].
    intros [= <- <-] H. inversion H as [|? ? Hc0 Hcs]; subst.
    destruct (IH rest' eq_refl Hcs) as [Hc Hrest]. split; [exact Hc|].
    now constructor.
Qed.

Lemma remove_nat_Forall (P : nat -> Prop) (j : nat) (l : list nat) :
  Forall P l -> Forall P (remove_nat j l).
Proof.
  intros H. apply List.Forall_forall. intros x [Hx _]%List.filter_In.
  revert x Hx. now apply List.Forall_forall.
Qed.

Lemma fresh_ids_taken (p : cont -> bool) (w : world) (c : cont) (rest : list cont)
      (f : list nat -> list nat) :
  fresh_ids w -> take p (conts w) = Some (c, rest) ->
  (forall l, Forall (fun j => (j < next w)%nat) l ->
             Forall (fun j => (j < next w)%nat) (f l)) ->
  cont_below (next w) c
  /\ fresh_ids (with_conts (fun _ => rest) (with_running f w)).
Proof.
  intros [Hr Hc] Htake Hf.
  destruct (take_Forall _ _ _ _ _ Htake Hc) as [Hbelow Hrest].
  split; [exact Hbelow|]. split; simpl; [now apply Hf | exact Hrest].
Qed.

Lemma fresh_ids_settle (j : nat) (r : settled) (w : world) :
  fresh_ids w -> fresh_ids (settle j r w).
Proof.
  intros Hw. unfold settle. destruct (negb _); [exact Hw|].
  cbn [conts with_running].
  destruct (take (waits_on_run j) (conts w)) as [[c rest]|] eqn:Htake.
  - destruct (fresh_ids_taken _ w c rest (remove_nat j) Hw Htake) as [Hbelow Hw1].
    { intros l. apply remove_nat_Forall. }
    destruct (owner c) as [jobName|jobName tasks].
    + now apply fresh_ids_tick_resume.
    + destruct (waits c) as [j'|js|t] eqn:Hwaits;
        try now apply fresh_ids_loop_resume.
      destruct r; [|now apply fresh_ids_loop_resume].
      destruct (remove_nat j js) as [|j' js'] eqn:Hjs;
        [now apply fresh_ids_loop_resume|].
      apply fresh_ids_suspend; [exact Hw1|].
      unfold cont_below in *. rewrite Hwaits in Hbelow. cbn [waits next with_conts with_running].
      rewrite <- Hjs. now apply remove_nat_Forall.
  - destruct Hw as [Hr Hc]. split; simpl; [now apply remove_nat_Forall | exact Hc].
Qed.

Lemma fresh_ids_step (ev : event) (w : world) :
  fresh_ids w -> fresh_ids (step ev w).
Proof.
  intros Hw. unfold step. destruct (negb (alive w)); [exact Hw|].
  destruct ev as [jobName schedule task|i|jobName tasks|j r|t| |sig].
  - exact Hw.
  - destruct (booked w !! i) as [[jobName task]|]; [now apply fresh_ids_tick | exact Hw].
  - now apply fresh_ids_iterate.
  - now apply fresh_ids_settle.
  - destruct (take (waits_on_usleep t) (conts w)) as [[[[jobName|jobName tasks] a] rest]|]
      eqn:Htake; try exact Hw.
    apply fresh_ids_sleep_resume.
    now destruct (fresh_ids_taken _ w _ rest (fun l => l) Hw Htake).
  - destruct (take waits_on_nothing (conts w)) as [[[[jobName|jobName tasks] a] rest]|]
      eqn:Htake; try exact Hw.
    apply fresh_ids_loop_resume.
    now destruct (fresh_ids_taken _ w _ rest (fun l => l) Hw Htake).
  - destruct sig; simpl.
    + now destruct (enableDiscarder (mgr w)).
    + now destruct (enableIpManager (mgr w)).
    + exact Hw.
    + now apply fresh_ids_nextTick.
Qed.

Lemma fresh_ids_run (evs : list event) (w : world) :
  fresh_ids w -> fresh_ids (run evs w).
Proof.
  revert w. induction evs as [|ev evs IH]; intros w Hw; [exact Hw|].
  simpl. change (fold_left _ evs (step ev w)) with (run evs (step ev w)).
  now apply IH, fresh_ids_step.
Qed.

Lemma fresh_ids_init (ed ei : bool) : fresh_ids (init ed ei).
Proof. split; constructor. Qed.
End SchedulerReachable.

Section SchedulerShutdown.
Import Scheduler.

Lemma exit_guard_nextTick (w : world) : exited w = None -> exit_guard (nextTick w).
Proof.
  intros Hw. unfold nextTick, exit_guard.
  destruct (_ && _) eqn:Hcond; [|now rewrite Hw].
  apply andb_prop in Hcond as [Hzero Hkill]. apply Z.eqb_eq in Hzero.
  simpl. now rewrite Hzero, Hkill.
Qed.

Lemma exit_guard_alive (w : world) : exited w = None -> exit_guard w.
Proof. unfold exit_guard. now intros ->. Qed.

Lemma tick_exited (jobName : string) (task : jobClass) (w : world) :
  exited (tick jobName task w) = exited w.
Proof. unfold tick. now destruct (held (mgr w)). Qed.

Lemma iterate_exited (jobName : string) (tasks : jobClass + list jobClass) (w : world) :
  exited (iterate jobName tasks w) = exited w.
Proof.
  unfold iterate. destruct (held (mgr w)); [reflexivity|].
  destruct tasks as [task|tasks]; [reflexivity|].
  pose proof (start_runs_frame tasks (say [Start jobName] (incr w))) as (_ & _ & He).
  now destruct (start_runs tasks _).
Qed.

Lemma exit_guard_resumed (jobName : string) (tasks : jobClass + list jobClass)
      (w : world) :
  exited w = None ->
  exit_guard (let w1 := nextTick w in
              if alive w1 then iterate jobName tasks w1 else w1).
Proof.
  intros Hw. cbv zeta. unfold alive.
  destruct (exited (nextTick w)) eqn:He.
  - pose proof (exit_guard_nextTick w Hw) as H. exact H.
  - apply exit_guard_alive. now rewrite iterate_exited.
Qed.

Lemma exit_guard_settle (j : nat) (r : settled) (w : world) :
  exited w = None -> exit_guard (settle j r w).
Proof.
  intros Hw. unfold settle. destruct (negb _); [now apply exit_guard_alive|].
  cbn [conts with_running].
  destruct (take (waits_on_run j) (conts w)) as [[c rest]|];
    [|now apply exit_guard_alive].
  assert (Hloop : forall jobName tasks r',
             exit_guard (loop_resume jobName tasks r'
                           (with_conts (fun _ => rest) (with_running (remove_nat j) w)))).
  { intros jobName tasks r'. unfold loop_resume.
    apply (exit_guard_resumed jobName tasks). now destruct r'. }
  destruct (owner c) as [jobName|jobName tasks].
  - unfold tick_resume. apply exit_guard_nextTick. now destruct r.
  - destruct (waits c) as [j'|js|t]; try apply Hloop.
    destruct r; [|apply Hloop].
    destruct (remove_nat j js); [apply Hloop | now apply exit_guard_alive].
Qed.

Lemma exit_guard_step (ev : event) (w : world) :
  exit_guard w -> exit_guard (step ev w).
Proof.
  intros Hw. unfold step, alive.
  destruct (exited w) as [code|] eqn:He; [exact Hw|]. cbn [negb].
  destruct ev as [jobName schedule task|i|jobName tasks|j r|t| |sig].
  - now apply exit_guard_alive.
  - destruct (booked w !! i) as [[jobName task]|]; [|exact Hw].
    apply exit_guard_alive. now rewrite tick_exited.
  - apply exit_guard_alive. now rewrite iterate_exited.
  - now apply exit_guard_settle.
  - destruct (take (waits_on_usleep t) (conts w)) as [[[[jobName|jobName tasks] a] rest]|];
      try exact Hw.
    apply (exit_guard_resumed jobName tasks). exact He.
  - destruct (take waits_on_nothing (conts w)) as [[[[jobName|jobName tasks] a] rest]|];
      try exact Hw.
    unfold loop_resume. apply (exit_guard_resumed jobName tasks). exact He.
  - destruct sig; simpl.
    + apply exit_guard_alive. now destruct (enableDiscarder (mgr w)).
    + apply exit_guard_alive. now destruct (enableIpManager (mgr w)).
    + now apply exit_guard_alive.
    + now apply exit_guard_nextTick.
Qed.

(** The exit guard, over every run: the process is only ever left with
    code 0, the counter at 0 and the kill flag set. *)
Lemma exit_only_when_idle_and_killed (evs : list event) (w : world) (code : Z) :
  exited w = None -> exited (run evs w) = Some code ->
  code = 0
  /\ nowRunningTask (mgr (run evs w)) = 0
  /\ needKillProcess (mgr (run evs w)) = true.
Proof.
  intros Hw Hexit.
  assert (H : exit_guard (run evs w)).
  { apply exit_guard_alive in Hw. clear Hexit. revert w Hw.
    induction evs as [|ev evs IH]; intros w Hw; [exact Hw|].
    simpl. change (fold_left _ evs (step ev w)) with (run evs (step ev w)).
    now apply IH, exit_guard_step. }
  unfold exit_guard in H. now rewrite Hexit in H.
Qed.

(** The scenario of the specification on the booked path: two ticks in
    flight, SIGINT, and the exit only comes when the second run settles. *)
Lemma booking_shutdown_waits :
  let prefix := [CallBooking "crawl" "*/5 * * * * *" "Crawler"; CronTick 0; CronTick 0;
                 Signal SIGINT] in
  let w2 := run prefix (init true true) in
  let w1 := step (Settle 0%nat Fulfilled) w2 in
  let w0 := step (Settle 1%nat (Thrown (External "boom"))) w1 in
  (nowRunningTask (mgr w2) = 2 /\ needKillProcess (mgr w2) = true /\ exited w2 = None)
  /\ (nowRunningTask (mgr w1) = 1 /\ exited w1 = None)
  /\ (nowRunningTask (mgr w0) = 0 /\ exited w0 = Some 0 /\ running w0 = []).
Proof. vm_compute. conjs; reflexivity. Qed.
End SchedulerShutdown.

(** C2, at the failing input: [infinite] is given two job classes; both
    runs are started (numbers 0 and 1) and the counter is 1; SIGINT sets
    the kill flag; run 0 throws. [Promise.all] rejects at once, the [catch]
    logs, the counter drops to 0 and [nextTick] calls [process.exit(0)]
    while run 1 has not settled. *)
Theorem C2_exit_with_run_in_flight :
  let before := Scheduler.run
                  [Scheduler.CallInfinite "crawl" (inr ["Crawler"; "Indexer"]);
                   Scheduler.Signal SIGINT]
                  (Scheduler.init true true) in
  let after := Scheduler.step (Scheduler.Settle 0%nat (Scheduler.Thrown (External "boom")))
                              before in
  (Scheduler.exited before = None
   /\ Scheduler.needKillProcess (Scheduler.mgr before) = true
   /\ Scheduler.nowRunningTask (Scheduler.mgr before) = 1
   /\ Scheduler.running before = [0%nat; 1%nat])
  /\ (Scheduler.exited after = Some 0
      /\ Scheduler.nowRunningTask (Scheduler.mgr after) = 0
      /\ Scheduler.running after = [1%nat]
      /\ Scheduler.out after
         = [Scheduler.Registered "crawl"; Scheduler.Start "crawl";
            Scheduler.Run 0 "Crawler"; Scheduler.Run 1 "Indexer";
            Scheduler.Received SIGINT;
            Scheduler.ConsoleError (External "boom");
            Scheduler.Killed; Scheduler.Exit 0]).
Proof. vm_compute. conjs; reflexivity. Qed.

Section SchedulerTicks.
Import Scheduler.

Lemma remove_nat_fresh (j : nat) (l : list nat) :
  Forall (fun x => (x < j)%nat) l -> remove_nat j (l ++ [j]) = l.
Proof.
  intros Hl. unfold remove_nat. rewrite List.filter_app. simpl.
  rewrite Nat.eqb_refl. simpl. rewrite app_nil_r.
  induction Hl as [|x l Hx Hl IH]; [reflexivity|]. simpl.
  destruct (Nat.eqb_spec x j) as [->|_]; [lia|]. simpl. now rewrite IH.
Qed.

Lemma existsb_snoc (j : nat) (l : list nat) :
  existsb (Nat.eqb j) (l ++ [j]) = true.
Proof. rewrite existsb_app. simpl. now rewrite Nat.eqb_refl, orb_true_r. Qed.

Lemma waits_on_run_below (j : nat) (c : cont) :
  cont_below j c -> waits_on_run j c = false.
Proof.
  unfold cont_below, waits_on_run. destruct (waits c) as [j'|js|t].
  - intros H. apply Nat.eqb_neq. lia.
  - intros H. induction H as [|x js Hx Hjs IH]; [reflexivity|]. simpl.
    rewrite IH, orb_false_r. apply Nat.eqb_neq. lia.
  - reflexivity.
Qed.

Lemma take_fresh (j : nat) (cs : list cont) (c : cont) :
  Forall (cont_below j) cs -> waits_on_run j c = true ->
  take (waits_on_run j) (cs ++ [c]) = Some (c, cs).
Proof.
  intros Hcs Hc. induction Hcs as [|c0 cs Hc0 Hcs IH]; simpl.
  - now rewrite Hc.
  - now rewrite (waits_on_run_below _ _ Hc0), IH.
Qed.

(** A held tick leaves the whole world as it was. *)
Lemma held_tick_skipped (w : world) (i : nat) :
  (forall jobName task, booked w !! i = Some (jobName, task) -> held (mgr w) = true) ->
  step (CronTick i) w = w.
Proof.
  intros Hheld. unfold step. destruct (negb (alive w)); [reflexivity|].
  destruct (booked w !! i) as [[jobName task]|] eqn:Hb; [|reflexivity].
  unfold tick. now rewrite (Hheld jobName task eq_refl).
Qed.

(** What the rest of a booked tick does when its run settles. *)
Lemma settle_booking (w : world) (j : nat) (jobName : string) (r : settled)
      (rest : list cont) :
  alive w = true ->
  existsb (Nat.eqb j) (running w) = true ->
  take (waits_on_run j) (conts w)
  = Some ({| owner := Booking jobName; waits := AwaitRun j |}, rest) ->
  let leave := Z.eqb (nowRunningTask (mgr w) - 1) 0 && needKillProcess (mgr w) in
  let w' := step (Settle j r) w in
  out w' = out w ++ caught r ++ [CheckOut jobName]
                 ++ (if leave then [Killed; Exit 0] else [])
  /\ nowRunningTask (mgr w') = nowRunningTask (mgr w) - 1
  /\ needKillProcess (mgr w') = needKillProcess (mgr w)
  /\ running w' = remove_nat j (running w)
  /\ conts w' = rest
  /\ exited w' = (if leave then Some 0 else exited w).
Proof.
  intros Halive Hrun Htake. cbv zeta.
  unfold step, settle. rewrite Halive, Hrun. cbn [negb conts with_running].
  rewrite Htake. cbn [owner waits]. unfold tick_resume, nextTick.
  destruct r as [|e]; cbn [caught];
    cbn [decr say with_mgr with_conts with_running mgr conts running out exited
         set_count nowRunningTask needKillProcess];
    destruct (_ && _); cbn; rewrite <- ?app_assoc; conjs; reflexivity.
Qed.
End SchedulerTicks.

(** C3: for a manager in any state it can reach, still running, whose
    [i]-th booking is ([jobName], [task]): while one of the three flags is
    set, any number of ticks leaves the world exactly as it was -- no run
    is started, no continuation is kept, nothing is stored to be replayed.
    With the three flags clear, a tick adds one to the counter, logs the
    check-in, starts one run and waits for it. When that run settles,
    fulfilled or thrown, the [catch] logs the error if there is one, the
    check-out is logged, the counter is back where it was and nothing else
    is left behind; and if SIGINT came in between, [nextTick] then leaves
    the process exactly when the counter is back at 0. *)
Theorem C3_tick_gate (enableDiscarder enableIpManager : bool)
        (evs : list Scheduler.event) (i : nat) (jobName : string)
        (task : Scheduler.jobClass) :
  let w := Scheduler.run evs (Scheduler.init enableDiscarder enableIpManager) in
  Scheduler.alive w = true ->
  Scheduler.booked w !! i = Some (jobName, task) ->
  (Scheduler.held (Scheduler.mgr w) = true ->
   forall n, Scheduler.run (repeat (Scheduler.CronTick i) n) w = w)
  /\ (Scheduler.held (Scheduler.mgr w) = false ->
      let j := Scheduler.next w in
      let w1 := Scheduler.step (Scheduler.CronTick i) w in
      Scheduler.nowRunningTask (Scheduler.mgr w1)
      = Scheduler.nowRunningTask (Scheduler.mgr w) + 1
      /\ Scheduler.out w1
         = Scheduler.out w ++ [Scheduler.CheckIn jobName; Scheduler.Run j task]
      /\ Scheduler.running w1 = Scheduler.running w ++ [j]
      /\ Scheduler.conts w1
         = Scheduler.conts w
           ++ [{| Scheduler.owner := Scheduler.Booking jobName;
                  Scheduler.waits := Scheduler.AwaitRun j |}]
      /\ forall r,
          (let w2 := Scheduler.step (Scheduler.Settle j r) w1 in
           Scheduler.out w2
           = Scheduler.out w1 ++ Scheduler.caught r ++ [Scheduler.CheckOut jobName]
           /\ Scheduler.nowRunningTask (Scheduler.mgr w2)
              = Scheduler.nowRunningTask (Scheduler.mgr w)
           /\ Scheduler.running w2 = Scheduler.running w
           /\ Scheduler.conts w2 = Scheduler.conts w
           /\ Scheduler.exited w2 = None)
          /\
          (let w3 := Scheduler.step (Scheduler.Settle j r)
                       (Scheduler.step (Scheduler.Signal SIGINT) w1) in
           let leave := Z.eqb (Scheduler.nowRunningTask (Scheduler.mgr w)) 0 in
           Scheduler.out w3
           = Scheduler.out w1 ++ [Scheduler.Received SIGINT] ++ Scheduler.caught r
             ++ [Scheduler.CheckOut jobName]
             ++ (if leave then [Scheduler.Killed; Scheduler.Exit 0] else [])
           /\ Scheduler.exited w3 = (if leave then Some 0 else None))).
Proof.
  intros w Halive Hbooked.
  assert (Hexited : Scheduler.exited w = None).
  { unfold Scheduler.alive in Halive. now destruct (Scheduler.exited w). }
  split.
  - intros Hheld n. induction n as [|n IH]; [reflexivity|]. simpl.
    rewrite held_tick_skipped; [exact IH|]. intros; exact Hheld.
  - intros Hfree. cbv zeta.
    assert (Hids : Scheduler.fresh_ids w)
      by apply fresh_ids_run, fresh_ids_init.
    assert (Hbal : Scheduler.balance w = 0).
    { unfold w. now rewrite run_balance. }
    assert (Hnonneg : 0 <= Scheduler.nowRunningTask (Scheduler.mgr w)).
    { unfold Scheduler.balance in Hbal. lia. }
    assert (Hkill : Scheduler.needKillProcess (Scheduler.mgr w) = false).
    { unfold Scheduler.held in Hfree.
      now destruct (Scheduler.needKillProcess (Scheduler.mgr w));
        [rewrite orb_true_r in Hfree|]. }
    set (c := {| Scheduler.owner := Scheduler.Booking jobName;
                 Scheduler.waits := Scheduler.AwaitRun (Scheduler.next w) |}).
    assert (Hw1 : Scheduler.step (Scheduler.CronTick i) w
                  = Scheduler.suspend c
                      (Scheduler.fresh
                         (Scheduler.with_running (fun r => r ++ [Scheduler.next w])
                            (Scheduler.say [Scheduler.Run (Scheduler.next w) task]
                               (Scheduler.say [Scheduler.CheckIn jobName]
                                  (Scheduler.incr w)))))).
    { unfold Scheduler.step. rewrite Halive, Hbooked. cbn [negb].
      unfold Scheduler.tick. now rewrite Hfree. }
    rewrite Hw1. set (w1 := Scheduler.suspend c _).
    destruct Hids as [Hrun Hconts].
    assert (Htake : Scheduler.take (Scheduler.waits_on_run (Scheduler.next w))
                      (Scheduler.conts w ++ [c]) = Some (c, Scheduler.conts w)).
    { apply take_fresh; [exact Hconts|]. simpl. apply Nat.eqb_refl. }
    conjs.
    + reflexivity.
    + simpl. now rewrite <- app_assoc.
    + reflexivity.
    + reflexivity.
    + intros r. split.
      * destruct (settle_booking w1 (Scheduler.next w) jobName r (Scheduler.conts w))
          as (Hout & Hcount & _ & Hrunning & Hc & Hex).
        { exact Halive. }
        { apply existsb_snoc. }
        { exact Htake. }
        cbv zeta. rewrite Hout, Hcount, Hrunning, Hc, Hex.
        assert (Hk1 : Scheduler.needKillProcess (Scheduler.mgr w1) = false) by exact Hkill.
        rewrite Hk1, andb_false_r, app_nil_r.
        conjs; try reflexivity.
        -- simpl. lia.
        -- apply remove_nat_fresh. exact Hrun.
        -- exact Hexited.
      * set (wk := Scheduler.step (Scheduler.Signal SIGINT) w1).
        assert (Hwk : wk = Scheduler.with_mgr (Scheduler.set_kill true)
                             (Scheduler.say [Scheduler.Received SIGINT] w1)).
        { assert (Halive1 : Scheduler.alive w1 = true) by exact Halive.
          unfold wk, Scheduler.step. rewrite Halive1. cbn [negb Scheduler.on_signal].
          unfold Scheduler.nextTick.
          assert (Hnz : Z.eqb (Scheduler.nowRunningTask
                                 (Scheduler.mgr (Scheduler.with_mgr (Scheduler.set_kill true)
                                    (Scheduler.say [Scheduler.Received SIGINT] w1)))) 0
                        = false).
          { apply Z.eqb_neq. simpl. lia. }
          now rewrite Hnz. }
        destruct (settle_booking wk (Scheduler.next w) jobName r (Scheduler.conts w))
          as (Hout & _ & _ & _ & _ & Hex).
        { rewrite Hwk. exact Halive. }
        { rewrite Hwk. apply existsb_snoc. }
        { rewrite Hwk. exact Htake. }
        cbv zeta. rewrite Hout, Hex. rewrite Hwk.
        cbn [Scheduler.say Scheduler.with_mgr Scheduler.out Scheduler.mgr
             Scheduler.set_kill Scheduler.needKillProcess Scheduler.nowRunningTask
             Scheduler.exited].
        rewrite andb_true_r.
        assert (Hc1 : Scheduler.nowRunningTask (Scheduler.mgr w1) - 1
                      = Scheduler.nowRunningTask (Scheduler.mgr w)) by (simpl; lia).
        rewrite Hc1, <- !app_assoc. split; [reflexivity|].
        change (Scheduler.exited w1) with (Scheduler.exited w). now rewrite Hexited.
Qed.

Lemma C3_tick_gate_witness :
  let booking := Scheduler.CallBooking "crawl" "*/5 * * * * *" "Crawler" in
  let held := Scheduler.run [booking; Scheduler.Signal SIGUSR2]
                            (Scheduler.init true true) in
  let free := Scheduler.run [booking; Scheduler.Signal SIGUSR2; Scheduler.Signal SIGCONT]
                            (Scheduler.init true true) in
  (Scheduler.held (Scheduler.mgr held) = true
   /\ forall n, Scheduler.run (repeat (Scheduler.CronTick 0) n) held = held)
  /\ (Scheduler.held (Scheduler.mgr free) = false
      /\ Scheduler.nowRunningTask
           (Scheduler.mgr (Scheduler.step (Scheduler.CronTick 0) free))
         = Scheduler.nowRunningTask (Scheduler.mgr free) + 1).
Proof.
  split; (split; [reflexivity|]).
  - exact (proj1 (C3_tick_gate true true
                    [Scheduler.CallBooking "crawl" "*/5 * * * * *" "Crawler";
                     Scheduler.Signal SIGUSR2]
                    0 "crawl" "Crawler" eq_refl eq_refl) eq_refl).
  - exact (proj1 (proj2 (C3_tick_gate true true
                           [Scheduler.CallBooking "crawl" "*/5 * * * * *" "Crawler";
                            Scheduler.Signal SIGUSR2; Scheduler.Signal SIGCONT]
                           0 "crawl" "Crawler" eq_refl eq_refl) eq_refl)).
Defined.

(* ================================================================== *)
(** * Properties of InstanceDiscarder *)

Section DiscarderFacts.
Import InstanceDiscarder.
Variable e : env.

Ltac run_task :=
  unfold invoke, bind, ret, throw, await, modify, get, try_catch; simpl.

Lemma bind_invoke {A B} (c : call) (o : outcome A) (k : A -> task state B) (s : state) :
  bind (invoke c o) k s
  = match o with
    | Resolved a => k a (record c s)
    | Rejected err => (Rejected err, record c s)
    | Pending => (Pending, record c s)
    end.
Proof. unfold invoke, bind, modify, await. now destruct o. Qed.

Lemma bind_modify {B} (f : state -> state) (k : unit -> task state B) (s : state) :
  bind (modify f) k s = k tt (f s).
Proof. reflexivity. Qed.

Lemma bind_ret {A B} (a : A) (k : A -> task state B) (s : state) :
  bind (ret a) k s = k a s.
Proof. reflexivity. Qed.

Lemma bind_await {A B} (o : outcome A) (k : A -> task state B) (s : state) :
  bind (await o) k s
  = match o with
    | Resolved a => k a s
    | Rejected err => (Rejected err, s)
    | Pending => (Pending, s)
    end.
Proof. unfold bind, await. now destruct o. Qed.

Lemma add_calls_nil (s : state) : add_calls [] s = s.
Proof. unfold add_calls. rewrite app_nil_r. now destruct s. Qed.

Lemma add_calls_app (cs cs' : list call) (s : state) :
  add_calls cs' (add_calls cs s) = add_calls (cs ++ cs') s.
Proof. unfold add_calls. simpl. now rewrite app_assoc. Qed.

Lemma record_add_calls (c : call) (s : state) : record c s = add_calls [c] s.
Proof. reflexivity. Qed.

Lemma stops_recorded (tasks : list Z) (s : state) :
  fold_left (fun s pmId => record (Pm2Stop pmId) s) tasks s
  = add_calls (map Pm2Stop tasks) s.
Proof.
  revert s. induction tasks as [|pmId rest IH]; intros s; cbn [fold_left map].
  - now rewrite add_calls_nil.
  - rewrite IH, record_add_calls, add_calls_app. reflexivity.
Qed.



Lemma detachAll_frame (instanceId : string) (asgNames : list string) :
  exists o cs,
    (forall s, detachAll e instanceId asgNames s = (o, add_calls cs s))
    /\ forallb is_cloud cs = true.
Proof.
  induction asgNames as [|asgName rest IH].
  - exists (Resolved tt), []. split; [|reflexivity].
    intros s. simpl. unfold ret. now rewrite add_calls_nil.
  - destruct IH as (o & cs & Heq & Hcs). simpl. run_task.
    destruct (detachInstances e asgName [instanceId]) as [[]|err|].
    + exists o, (DetachInstances asgName false [instanceId] :: cs). split; [|exact Hcs].
      intros s. now rewrite Heq, record_add_calls, add_calls_app.
    + exists (Rejected err), [DetachInstances asgName false [instanceId]].
      split; [now intros s | reflexivity].
    + exists Pending, [DetachInstances asgName false [instanceId]].
      split; [now intros s | reflexivity].
Qed.

(** [terminateInstance] ends the same way and makes the same calls from
    any state; the calls go to the cloud only. *)
Lemma terminateInstance_frame :
  exists o cs,
    (forall s, terminateInstance e s = (o, add_calls cs s))
    /\ forallb is_cloud cs = true.
Proof.
  unfold terminateInstance. destruct (isProduction e); cbn [negb].
  2: { exists (Resolved tt), []. split; [|reflexivity].
       intros s. unfold ret. now rewrite add_calls_nil. }
  run_task.
  destruct (metadata e) as [instanceMeta|err|].
  2: { exists (Rejected err), [Metadata]. now split. }
  2: { exists Pending, [Metadata]. now split. }
  set (iid := InstanceIpManager.instanceId instanceMeta).
  destruct (terminateInstances e [iid]) as [[]|err|].
  2: { exists (Rejected err), [Metadata; TerminateInstances [iid]]. split; [|reflexivity].
       intros s. unfold add_calls, record. simpl. now rewrite <- app_assoc. }
  2: { exists Pending, [Metadata; TerminateInstances [iid]]. split; [|reflexivity].
       intros s. unfold add_calls, record. simpl. now rewrite <- app_assoc. }
  destruct (assignedAsgNames e) as [asgNames|].
  - destruct (detachAll_frame iid asgNames) as (o & cs & Heq & Hcs).
    exists o, ([Metadata; TerminateInstances [iid]] ++ cs). split; [|exact Hcs].
    intros s. rewrite Heq, !record_add_calls, !add_calls_app. reflexivity.
  - exists (Resolved tt), [Metadata; TerminateInstances [iid]]. split; [|reflexivity].
    intros s. unfold ret, add_calls, record. simpl. now rewrite <- app_assoc.
Qed.

(** The [try] block, case by case. *)
Lemma drain_eq (s : state) :
  drain_and_terminate e s
  = match pm2_connect e with
    | Resolved _ =>
        match pm2_list e with
        | Resolved processList =>
            let '(sup, tasks) := scan e processList None [] in
            let s2 := add_calls (Pm2Connect :: Pm2List :: map Pm2Stop tasks) s in
            match promise_all (map (stopNodeProcess e) tasks) with
            | Resolved _ => bind (terminateInstance e) (fun _ => cleanup e sup) s2
            | Rejected err => (Rejected err, s2)
            | Pending => (Pending, s2)
            end
        | Rejected err => (Rejected err, add_calls [Pm2Connect; Pm2List] s)
        | Pending => (Pending, add_calls [Pm2Connect; Pm2List] s)
        end
    | Rejected err => (Rejected err, add_calls [Pm2Connect] s)
    | Pending => (Pending, add_calls [Pm2Connect] s)
    end.
Proof.
  unfold drain_and_terminate. rewrite bind_invoke.
  destruct (pm2_connect e) as [[]|err|]; try reflexivity.
  rewrite bind_invoke.
  destruct (pm2_list e) as [processList|err|];
    try (rewrite !record_add_calls, add_calls_app; reflexivity).
  destruct (scan e processList None []) as [sup tasks].
  rewrite bind_modify, stops_recorded.
  rewrite !record_add_calls, !add_calls_app. cbn [app].
  destruct tasks as [|pmId rest].
  - cbn [length Nat.eqb negb]. now rewrite bind_ret.
  - cbn [length Nat.eqb negb]. rewrite bind_await.
    destruct (promise_all _) as [[]|err|]; reflexivity.
Qed.

Lemma cleanup_eq (sup : option Z) (s : state) :
  cleanup e sup s
  = let s1 := record UnlinkPidFile
                (set_fs (LeaderLock.unlinkPidFile (pidFile e) (fs s)) s) in
    let s2 := match killProcessTimeoutHandle s with
              | Some _ => record ClearInterval (set_handle None s1)
              | None => s1
              end in
    match sup with
    | None => (Resolved tt, set_isDiscarding false s2)
    | Some pmId =>
        match pm2_stop e pmId with
        | Resolved _ =>
            let s3 := record UsleepInfinity (record (Pm2Stop pmId) s2) in
            match usleep_Infinity e with
            | Resolved _ => (Resolved tt, set_isDiscarding false s3)
            | Rejected err => (Rejected err, s3)
            | Pending => (Pending, s3)
            end
        | Rejected err => (Rejected err, record (Pm2Stop pmId) s2)
        | Pending => (Pending, record (Pm2Stop pmId) s2)
        end
    end.
Proof.
  unfold cleanup, unlinkPidFile, stopNodeProcess. run_task.
  destruct (killProcessTimeoutHandle s); destruct sup as [pmId|]; simpl;
    try reflexivity;
    destruct (pm2_stop e pmId) as [[]| |]; simpl; try reflexivity;
    now destruct (usleep_Infinity e) as [[]| |].
Qed.

Lemma discard_eq (s : state) :
  discard e s
  = match LeaderLock.isSupervisionProcess (pidFile e) (pid e) (fs s) with
    | (fs', Resolved true) =>
        if isDiscarding s then (Resolved tt, set_fs fs' s)
        else
          let s1 := set_isDiscarding true (set_fs fs' s) in
          let s2 := match killProcessTimeoutHandle s with
                    | None => record (SetInterval DISCARD_TIMEOUT)
                                (set_handle (Some (now s + DISCARD_TIMEOUT)) s1)
                    | Some _ => s1
                    end in
          match drain_and_terminate e s2 with
          | (Rejected _, s3) =>
              (Resolved tt,
               record (SetTimeout RETRY_INTERVAL)
                 (set_retries (retries s3 ++ [now s3 + RETRY_INTERVAL])
                    (set_isDiscarding false s3)))
          | r => r
          end
    | (fs', Resolved false) => (Resolved tt, set_fs fs' s)
    | (fs', Rejected err) => (Rejected err, set_fs fs' s)
    | (fs', Pending) => (Pending, set_fs fs' s)
    end.
Proof.
  unfold discard, isSupervisionProcess.
  unfold bind at 1.
  destruct (LeaderLock.isSupervisionProcess (pidFile e) (pid e) (fs s))
    as [fs' [[|]|err|]]; try reflexivity.
  cbn [negb]. unfold bind at 1, get at 1. cbn [isDiscarding set_fs].
  destruct (isDiscarding s); [reflexivity|].
  rewrite bind_modify. cbn [killProcessTimeoutHandle set_fs].
  destruct (killProcessTimeoutHandle s).
  - rewrite bind_ret. unfold try_catch.
    destruct (drain_and_terminate e _) as [[[]|err|] s3]; reflexivity.
  - rewrite bind_modify. unfold try_catch.
    cbn [now set_isDiscarding set_fs].
    destruct (drain_and_terminate e _) as [[[]|err|] s3]; reflexivity.
Qed.
End DiscarderFacts.

Section DiscarderDrain.
Import InstanceDiscarder.
Variable e : env.

End DiscarderDrain.


Section DiscarderTimer.
Import InstanceDiscarder.
Variable e : env.

Lemma harmless_counts (cs : list call) :
  forallb harmless cs = true ->
  List.filter is_fired cs = [] /\ List.filter is_clear cs = []
  /\ List.filter is_arm cs = [].
Proof.
  induction cs as [|c cs IH]; [easy|]. simpl.
  intros [Hc Hcs]%andb_prop. destruct (IH Hcs) as (H1 & H2 & H3).
  unfold harmless in Hc. apply negb_true_iff in Hc.
  apply orb_false_iff in Hc as [Hc Harm]. apply orb_false_iff in Hc as [Hfire Hclear].
  now rewrite Hfire, Hclear, Harm.
Qed.

Lemma forallb_weaken (p q : call -> bool) (cs : list call) :
  (forall c, p c = true -> q c = true) ->
  forallb p cs = true -> forallb q cs = true.
Proof.
  intros Hpq. induction cs as [|c cs IH]; [easy|]. simpl.
  intros [Hc Hcs]%andb_prop. now rewrite (Hpq c Hc), IH.
Qed.

Lemma cloud_harmless (c : call) : is_cloud c = true -> harmless c = true.
Proof. now destruct c. Qed.

Lemma pm2_harmless (c : call) : is_pm2 c = true -> harmless c = true.
Proof. now destruct c. Qed.

Lemma stops_pm2 (tasks : list Z) : forallb is_pm2 (map Pm2Stop tasks) = true.
Proof. induction tasks as [|t l IH]; [reflexivity | exact IH]. Qed.

Lemma drain_summary (s : state) :
  let s' := snd (drain_and_terminate e s) in
  unchanged s s'
  /\ ((killProcessTimeoutHandle s' = killProcessTimeoutHandle s
       /\ cleared s' = cleared s)
      \/ (killProcessTimeoutHandle s <> None
          /\ killProcessTimeoutHandle s' = None
          /\ cleared s' = S (cleared s)
          /\ completes e)).
Proof.
  cbv zeta.
  assert (Hquiet : forall cs, forallb harmless cs = true ->
             unchanged s (add_calls cs s)
             /\ ((killProcessTimeoutHandle (add_calls cs s) = killProcessTimeoutHandle s
                  /\ cleared (add_calls cs s) = cleared s)
                 \/ (killProcessTimeoutHandle s <> None
                     /\ killProcessTimeoutHandle (add_calls cs s) = None
                     /\ cleared (add_calls cs s) = S (cleared s)
                     /\ completes e))).
  { intros cs Hcs. destruct (harmless_counts cs Hcs) as (H1 & H2 & H3).
    unfold unchanged, fired, armed, cleared. cbn [calls now retries add_calls
      killProcessTimeoutHandle]. rewrite !List.filter_app, H1, H2, H3, !app_nil_r.
    conjs; try reflexivity. now left. }
  rewrite drain_eq.
  destruct (pm2_connect e) as [[]|err|] eqn:Hconnect; try (now apply Hquiet).
  destruct (pm2_list e) as [processList|err|] eqn:Hlist; try (now apply Hquiet).
  destruct (scan e processList None []) as [sup tasks] eqn:Hscan.
  assert (Hpre : forallb harmless (Pm2Connect :: Pm2List :: map Pm2Stop tasks) = true).
  { cbn. apply (forallb_weaken is_pm2); [apply pm2_harmless | apply stops_pm2]. }
  destruct (promise_all (map (stopNodeProcess e) tasks)) as [[]|err|] eqn:Hall;
    try (now apply Hquiet).
  unfold bind. destruct (terminateInstance_frame e) as (o & cs & Heq & Hcs).
  rewrite Heq, add_calls_app.
  set (pre := (Pm2Connect :: Pm2List :: map Pm2Stop tasks) ++ cs).
  assert (Hall_quiet : forallb harmless pre = true).
  { unfold pre. rewrite forallb_app, Hpre. cbn [andb].
    apply (forallb_weaken is_cloud); [apply cloud_harmless | exact Hcs]. }
  destruct o as [[]|err|]; try (now apply Hquiet).
  assert (Hcompletes : completes e).
  { unfold completes. conjs; [exact Hconnect | | intros s0; now rewrite Heq].
    exists processList. rewrite Hscan. now split. }
  destruct (harmless_counts pre Hall_quiet) as (H1 & H2 & H3).
  rewrite cleanup_eq. cbv zeta. cbn [killProcessTimeoutHandle add_calls fs].
  destruct (killProcessTimeoutHandle s) as [d|] eqn:Hhandle;
    destruct sup as [pmId|]; try destruct (pm2_stop e pmId) as [[]|err|];
    try destruct (usleep_Infinity e) as [[]|err|];
    unfold unchanged, fired, armed, cleared;
    cbn [snd calls now retries killProcessTimeoutHandle record set_handle set_fs
         set_isDiscarding add_calls];
    rewrite !List.filter_app, ?H1, ?H2, ?H3;
    cbn [List.filter is_fired is_clear is_arm app]; rewrite ?app_nil_r, ?length_app;
    cbn [length]; rewrite ?Hhandle;
    (conjs; try reflexivity;
     first [ left; split; [reflexivity | lia]
           | right; conjs; [congruence | reflexivity | lia | exact Hcompletes] ]).
Qed.

Lemma discard_summary (s : state) :
  let s' := snd (discard e s) in
  now s' = now s /\ fired s' = fired s /\ (cleared s <= cleared s')%nat
  /\ match killProcessTimeoutHandle s with
     | Some d =>
         armed s' = armed s
         /\ ((killProcessTimeoutHandle s' = Some d /\ cleared s' = cleared s)
             \/ (killProcessTimeoutHandle s' = None
                 /\ cleared s' = S (cleared s) /\ completes e))
     | None =>
         (killProcessTimeoutHandle s' = None
          /\ armed s' = armed s /\ cleared s' = cleared s)
         \/ (armed s' = S (armed s)
             /\ ((killProcessTimeoutHandle s' = Some (now s + DISCARD_TIMEOUT)
                  /\ cleared s' = cleared s)
                 \/ (killProcessTimeoutHandle s' = None
                     /\ cleared s' = S (cleared s) /\ completes e)))
     end.
Proof.
  cbv zeta. rewrite discard_eq.
  assert (Hsame : forall fs', 
    let s' := set_fs fs' s in
    now s' = now s /\ fired s' = fired s /\ (cleared s <= cleared s')%nat
    /\ match killProcessTimeoutHandle s with
       | Some d =>
           armed s' = armed s
           /\ ((killProcessTimeoutHandle s' = Some d /\ cleared s' = cleared s)
               \/ (killProcessTimeoutHandle s' = None
                   /\ cleared s' = S (cleared s) /\ completes e))
       | None =>
           (killProcessTimeoutHandle s' = None
            /\ armed s' = armed s /\ cleared s' = cleared s)
           \/ (armed s' = S (armed s)
               /\ ((killProcessTimeoutHandle s' = Some (now s + DISCARD_TIMEOUT)
                    /\ cleared s' = cleared s)
                   \/ (killProcessTimeoutHandle s' = None
                       /\ cleared s' = S (cleared s) /\ completes e)))
       end).
  { intros fs'. cbv zeta. conjs; try reflexivity.
    destruct (killProcessTimeoutHandle s) eqn:Hh.
    - split; [reflexivity|]. left. now split.
    - left. now conjs. }
  destruct (LeaderLock.isSupervisionProcess (pidFile e) (pid e) (fs s))
    as [fs' [[|]|err|]]; try apply Hsame.
  destruct (isDiscarding s); [apply Hsame|]. cbv zeta.
  set (s1 := set_isDiscarding true (set_fs fs' s)).
  set (s2 := match killProcessTimeoutHandle s with
             | Some _ => s1
             | None => record (SetInterval DISCARD_TIMEOUT)
                         (set_handle (Some (now s + DISCARD_TIMEOUT)) s1)
             end).
  pose proof (drain_summary s2) as Hdrain. cbv zeta in Hdrain.
  assert (Hretry : forall s3,
    let s4 := record (SetTimeout RETRY_INTERVAL)
                (set_retries (retries s3 ++ [now s3 + RETRY_INTERVAL])
                   (set_isDiscarding false s3)) in
    now s4 = now s3 /\ fired s4 = fired s3 /\ cleared s4 = cleared s3
    /\ armed s4 = armed s3
    /\ killProcessTimeoutHandle s4 = killProcessTimeoutHandle s3).
  { intros s3. unfold fired, cleared, armed. cbn.
    rewrite !List.filter_app. cbn. rewrite !app_nil_r. now conjs. }
  assert (Hs2 : now s2 = now s /\ fired s2 = fired s /\ cleared s2 = cleared s
                /\ match killProcessTimeoutHandle s with
                   | Some d => armed s2 = armed s
                               /\ killProcessTimeoutHandle s2 = Some d
                   | None => armed s2 = S (armed s)
                             /\ killProcessTimeoutHandle s2
                                = Some (now s + DISCARD_TIMEOUT)
                   end).
  { unfold s2, s1. destruct (killProcessTimeoutHandle s) eqn:Hh.
    - conjs; try reflexivity. exact Hh.
    - unfold fired, cleared, armed. cbn. rewrite !List.filter_app. cbn.
      rewrite !app_nil_r, length_app. cbn. conjs; try reflexivity. lia. }
  destruct Hs2 as (Hnow2 & Hfired2 & Hcleared2 & Harm2).
  assert (Hgoal : forall s',
    now s' = now (snd (drain_and_terminate e s2)) ->
    fired s' = fired (snd (drain_and_terminate e s2)) ->
    cleared s' = cleared (snd (drain_and_terminate e s2)) ->
    armed s' = armed (snd (drain_and_terminate e s2)) ->
    killProcessTimeoutHandle s'
    = killProcessTimeoutHandle (snd (drain_and_terminate e s2)) ->
    now s' = now s /\ fired s' = fired s /\ (cleared s <= cleared s')%nat
    /\ match killProcessTimeoutHandle s with
       | Some d =>
           armed s' = armed s
           /\ ((killProcessTimeoutHandle s' = Some d /\ cleared s' = cleared s)
               \/ (killProcessTimeoutHandle s' = None
                   /\ cleared s' = S (cleared s) /\ completes e))
       | None =>
           (killProcessTimeoutHandle s' = None
            /\ armed s' = armed s /\ cleared s' = cleared s)
           \/ (armed s' = S (armed s)
               /\ ((killProcessTimeoutHandle s' = Some (now s + DISCARD_TIMEOUT)
                    /\ cleared s' = cleared s)
                   \/ (killProcessTimeoutHandle s' = None
                       /\ cleared s' = S (cleared s) /\ completes e)))
       end).
  { intros s' -> -> -> -> ->.
    destruct Hdrain as ((Hn & _ & Hf & Ha) & Hh).
    rewrite Hn, Hf, Ha, Hnow2, Hfired2.
    destruct (killProcessTimeoutHandle s) as [d|];
      destruct Harm2 as [Harm2 Hh2]; rewrite Harm2.
    - destruct Hh as [[Hh Hc]|(_ & Hh & Hc & Hdone)]; rewrite Hh, Hc, Hcleared2;
        (conjs; [reflexivity | reflexivity | lia | reflexivity |]);
        [left; now rewrite Hh2 | right; now conjs].
    - destruct Hh as [[Hh Hc]|(_ & Hh & Hc & Hdone)]; rewrite Hh, Hc, Hcleared2;
        (conjs; [reflexivity | reflexivity | lia |]); right;
        (split; [reflexivity|]); [left; now rewrite Hh2 | right; now conjs]. }
  destruct (drain_and_terminate e s2) as [[[]|err|] s3]; cbn [snd] in *.
  - now apply Hgoal.
  - destruct (Hretry s3) as (H1 & H2 & H3 & H4 & H5). now apply Hgoal.
  - now apply Hgoal.
Qed.

(** The interval's callback logs, and calls the cloud only. *)
Lemma on_timeout_eq :
  exists cs, forallb is_cloud cs = true
             /\ forall s, snd (on_timeout e s) = add_calls (TimeoutFired :: cs) s.
Proof.
  destruct (terminateInstance_frame e) as (o & cs & Heq & Hcs).
  exists cs. split; [exact Hcs|]. intros s.
  unfold on_timeout. rewrite bind_modify. unfold try_catch. rewrite Heq.
  rewrite record_add_calls, add_calls_app.
  destruct o as [[]|err|]; reflexivity.
Qed.

Lemma on_timeout_summary (s : state) :
  let s' := snd (on_timeout e s) in
  now s' = now s /\ retries s' = retries s
  /\ killProcessTimeoutHandle s' = killProcessTimeoutHandle s
  /\ fired s' = S (fired s) /\ cleared s' = cleared s /\ armed s' = armed s
  /\ exists cs, calls s' = calls s ++ TimeoutFired :: cs
                /\ List.filter is_pm2 cs = [].
Proof.
  cbv zeta. destruct on_timeout_eq as (cs & Hcs & Heq). rewrite Heq.
  destruct (harmless_counts cs (forallb_weaken _ _ _ cloud_harmless Hcs))
    as (H1 & H2 & H3).
  unfold fired, cleared, armed. cbn. rewrite !List.filter_app. cbn.
  rewrite H1, H2, H3, !app_nil_r, length_app. cbn.
  conjs; try reflexivity; [lia|].
  exists cs. split; [reflexivity|].
  clear - Hcs. induction cs as [|c cs IH]; [reflexivity|].
  cbn in Hcs. apply andb_prop in Hcs as [Hc Hcs]. cbn.
  destruct c; try discriminate Hc; now apply IH.
Qed.
End DiscarderTimer.

Section DiscarderSchedule.
Import InstanceDiscarder.

Lemma next_timer_armed (s : state) (d : Z) :
  killProcessTimeoutHandle s = Some d ->
  next_timer s = Some (TheInterval d)
  \/ exists r, next_timer s = Some (ARetry r) /\ r < d.
Proof.
  intros Hh. unfold next_timer. rewrite Hh.
  destruct (earliest (retries s)) as [r|]; [|now left].
  destruct (Z.leb_spec d r); [now left | right; eauto].
Qed.

Lemma next_timer_unarmed (s : state) :
  killProcessTimeoutHandle s = None ->
  next_timer s = None \/ exists r, next_timer s = Some (ARetry r).
Proof.
  intros Hh. unfold next_timer. rewrite Hh.
  destruct (earliest (retries s)) as [r|]; eauto.
Qed.

(** The interval is never cleared behind the back of [cleared]. *)
Lemma step_cleared (ev : event) (s : state) :
  (cleared s <= cleared (step ev s))%nat.
Proof.
  destruct ev as [e|dt|e]; cbn [step].
  - now destruct (discard_summary e s) as (_ & _ & H & _).
  - destruct (next_timer s); unfold cleared; cbn [calls set_now]; lia.
  - destruct (next_timer s) as [[d|d]|]; [| |lia].
    + set (s1 := set_handle _ _).
      destruct (on_timeout_summary e s1) as (_ & _ & _ & _ & H & _).
      rewrite H. unfold cleared, s1. cbn [calls set_now set_handle]. lia.
    + set (s1 := set_retries _ _).
      destruct (discard_summary e s1) as (_ & _ & H & _).
      etransitivity; [|exact H]. unfold cleared, s1. cbn [calls set_now set_retries]. lia.
Qed.

Lemma DISCARD_TIMEOUT_pos : 0 < DISCARD_TIMEOUT.
Proof. reflexivity. Qed.

(** One event keeps the interval on its schedule, unless it clears it. *)
Lemma step_on_schedule (ev : event) (s : state) (t0 : Z) (f0 : nat) :
  on_schedule t0 f0 s ->
  cleared (step ev s) = cleared s ->
  on_schedule t0 f0 (step ev s).
Proof.
  intros (k & Hfired & Hhandle & Hupper & Hlower) Hclear.
  pose proof DISCARD_TIMEOUT_pos as Hpos.
  set (d := t0 + (Z.of_nat k + 1) * DISCARD_TIMEOUT) in *.
  assert (Hattempt : forall e s1,
            fired s1 = fired s -> killProcessTimeoutHandle s1 = Some d ->
            cleared s1 = cleared s ->
            now s <= now s1 <= d ->
            cleared (snd (discard e s1)) = cleared s ->
            on_schedule t0 f0 (snd (discard e s1))).
  { intros e s1 Hf1 Hh1 Hc1 Hn1 Hc.
    destruct (discard_summary e s1) as (Hn & Hf & _ & Hh). rewrite Hh1 in Hh.
    destruct Hh as (_ & [[Hh _]|(_ & Hbad & _)]); [|lia].
    exists k. rewrite Hn, Hf, Hf1, Hh. conjs; [exact Hfired | reflexivity | lia |].
    intros Hk. specialize (Hlower Hk). lia. }
  destruct ev as [e|dt|e]; cbn [step] in *.
  - apply Hattempt; easy || lia.
  - destruct (next_timer_armed s d Hhandle) as [Hnext|(r & Hnext & Hr)];
      rewrite Hnext; exists k; cbn [fired calls set_now killProcessTimeoutHandle now due_of];
      (conjs; [exact Hfired | exact Hhandle | lia |]);
      intros Hk; specialize (Hlower Hk); lia.
  - destruct (next_timer_armed s d Hhandle) as [Hnext|(r & Hnext & Hr)];
      rewrite Hnext in *.
    + set (s1 := set_handle _ _) in *.
      destruct (on_timeout_summary e s1) as (Hn & _ & Hh & Hf & _).
      exists (S k). rewrite Hn, Hh, Hf. cbn [fired calls set_handle set_now
        killProcessTimeoutHandle now s1].
      change (fired s1) with (fired s).
      rewrite Hfired. conjs.
      * lia.
      * f_equal. unfold d. lia.
      * unfold d in *. lia.
      * intros _. unfold d in *. lia.
    + apply Hattempt; try easy.
      * cbn. lia.
Qed.

(** The same over any run. *)
Lemma run_on_schedule (evs : list event) (s : state) (t0 : Z) (f0 : nat) :
  on_schedule t0 f0 s ->
  cleared (run evs s) = cleared s ->
  on_schedule t0 f0 (run evs s).
Proof.
  revert s. induction evs as [|ev evs IH]; intros s Hs Hclear; [exact Hs|].
  simpl in *. change (fold_left _ evs (step ev s)) with (run evs (step ev s)) in *.
  assert (Hmono : forall evs' s', (cleared s' <= cleared (run evs' s'))%nat).
  { clear. induction evs' as [|ev' evs' IH']; intros s'; [reflexivity|].
    simpl. change (fold_left _ evs' (step ev' s')) with (run evs' (step ev' s')).
    etransitivity; [apply step_cleared | apply IH']. }
  pose proof (step_cleared ev s) as H1.
  pose proof (Hmono evs (step ev s)) as H2.
  assert (Hstep : cleared (step ev s) = cleared s) by lia.
  apply IH; [now apply step_on_schedule | lia].
Qed.

(** An attempt by the elected, idle coordinator sets the interval exactly
    when none is set. *)
Lemma discard_arms (e : env) (s : state) :
  electable e s -> isDiscarding s = false ->
  let s' := snd (discard e s) in
  match killProcessTimeoutHandle s with
  | None =>
      armed s' = S (armed s)
      /\ (killProcessTimeoutHandle s' = Some (now s + DISCARD_TIMEOUT)
          \/ (killProcessTimeoutHandle s' = None /\ completes e))
  | Some d =>
      armed s' = armed s
      /\ (killProcessTimeoutHandle s' = Some d
          \/ (killProcessTimeoutHandle s' = None /\ completes e))
  end.
Proof.
  intros Hel Hidle. cbv zeta.
  destruct (discard_summary e s) as (_ & _ & _ & Hsum).
  destruct (killProcessTimeoutHandle s) as [d|] eqn:Hh.
  - destruct Hsum as (Ha & [[H _]|(H & _ & Hdone)]); split; auto.
  - destruct Hsum as [(Hnone & Ha & Hc)|(Ha & [[H _]|(H & _ & Hdone)])];
      try (split; auto; fail).
    exfalso. revert Ha. rewrite discard_eq.
    assert (Hlead : LeaderLock.isSupervisionProcess (pidFile e) (pid e) (fs s)
                    = (<[pidFile e := pid e]> (fs s), Resolved true)).
    { destruct Hel as [Hfree|Hown].
      - now apply isSupervisionProcess_free.
      - rewrite (isSupervisionProcess_held _ _ _ _ Hown), Z.eqb_refl.
        now rewrite (insert_id _ _ _ Hown). }
    rewrite Hlead, Hidle, Hh. cbv zeta.
    set (s2 := record (SetInterval DISCARD_TIMEOUT) _).
    destruct (drain_summary e s2) as ((_ & _ & _ & Ha2) & _).
    assert (Hs2 : armed s2 = S (armed s)).
    { unfold armed, s2. cbn. rewrite List.filter_app, length_app. cbn. lia. }
    destruct (drain_and_terminate e s2) as [[[]|err|] s3]; cbn [snd] in *;
      unfold armed in *; cbn; rewrite ?List.filter_app, ?length_app; cbn; lia.
Qed.
End DiscarderSchedule.

Section DiscarderEscalation.
Import InstanceDiscarder.

(** Only an attempt whose drain and terminate went through clears the
    interval. *)
Lemma step_disarms (ev : event) (s : state) (d : Z) :
  killProcessTimeoutHandle s = Some d ->
  killProcessTimeoutHandle (step ev s) = None ->
  exists e, (ev = Call e \/ ev = Timer e) /\ completes e.
Proof.
  intros Hh Hnone. destruct ev as [e|dt|e]; cbn [step] in Hnone.
  - destruct (discard_summary e s) as (_ & _ & _ & Hsum). rewrite Hh in Hsum.
    destruct Hsum as (_ & [[H _]|(_ & _ & Hdone)]); [congruence|].
    exists e. split; [now left | exact Hdone].
  - destruct (next_timer s); cbn in Hnone; congruence.
  - destruct (next_timer_armed s d Hh) as [Hnext|(r & Hnext & Hr)];
      rewrite Hnext in Hnone.
    + set (s1 := set_handle _ _) in Hnone.
      destruct (on_timeout_summary e s1) as (_ & _ & H & _).
      rewrite H in Hnone. discriminate Hnone.
    + set (s1 := set_retries _ _) in Hnone.
      destruct (discard_summary e s1) as (_ & _ & _ & Hsum).
      assert (Hh1 : killProcessTimeoutHandle s1 = Some d) by exact Hh.
      rewrite Hh1 in Hsum.
      destruct Hsum as (_ & [[H _]|(_ & _ & Hdone)]); [congruence|].
      exists e. split; [now right | exact Hdone].
Qed.

(** When the interval is the next timer, the loop runs its callback: it
    goes straight to [terminateInstance], with no call to pm2, and the
    interval stays set, one period further. *)
Lemma interval_fires (e : env) (s : state) (d : Z) :
  next_timer s = Some (TheInterval d) ->
  let s' := step (Timer e) s in
  fired s' = S (fired s)
  /\ killProcessTimeoutHandle s' = Some (d + DISCARD_TIMEOUT)
  /\ cleared s' = cleared s
  /\ exists cs, calls s' = calls s ++ TimeoutFired :: cs
                /\ List.filter is_pm2 cs = [].
Proof.
  intros Hnext. cbv zeta. cbn [step]. rewrite Hnext.
  set (s1 := set_handle _ _).
  destruct (on_timeout_summary e s1) as (_ & _ & Hh & Hf & Hc & _ & cs & Hcalls & Hpm2).
  rewrite Hh, Hf, Hc. conjs; try reflexivity. now exists cs.
Qed.

(** The callback is [terminateInstance] and nothing else: the state after
    a firing is the one [terminateInstance] leaves, whichever way it ends,
    and in production, once the metadata endpoint has answered, the
    firing asks EC2 to terminate this instance. *)
Lemma interval_terminates (e : env) (s : state) (d : Z) :
  next_timer s = Some (TheInterval d) ->
  let s1 := set_handle (Some (d + DISCARD_TIMEOUT)) (set_now (Z.max (now s) d) s) in
  step (Timer e) s = snd (terminateInstance e (record TimeoutFired s1))
  /\ (forall instanceMeta,
        isProduction e = true -> metadata e = Resolved instanceMeta ->
        exists asgNames,
          calls (step (Timer e) s)
          = calls s ++ TimeoutFired :: Metadata
                    :: TerminateInstances [InstanceIpManager.instanceId instanceMeta]
                    :: map (fun asgName =>
                              DetachInstances asgName false
                                [InstanceIpManager.instanceId instanceMeta]) asgNames).
Proof.
  intros Hnext. cbv zeta. cbn [step]. rewrite Hnext.
  set (s1 := set_handle _ _).
  assert (Hstep : snd (on_timeout e s1) = snd (terminateInstance e (record TimeoutFired s1))).
  { unfold on_timeout. rewrite bind_modify. unfold try_catch.
    now destruct (terminateInstance e (record TimeoutFired s1)) as [[[]|err|] s2]. }
  split; [exact Hstep|].
  intros instanceMeta Hprod Hmeta. rewrite Hstep. unfold terminateInstance.
  rewrite Hprod. cbn [negb]. rewrite bind_invoke, Hmeta, bind_invoke.
  set (iid := InstanceIpManager.instanceId instanceMeta).
  assert (Hdetach : forall asgNames, exists o called,
             forall s0, detachAll e iid asgNames s0
                        = (o, add_calls (map (fun asgName =>
                                                DetachInstances asgName false [iid])
                                             called) s0)).
  { induction asgNames as [|asgName names IH].
    - exists (Resolved tt), []. intros s0. cbn. unfold ret. now rewrite add_calls_nil.
    - destruct IH as (o & called & Heq). cbn [detachAll].
      destruct (detachInstances e asgName [iid]) as [[]|err|].
      + exists o, (asgName :: called). intros s0.
        now rewrite bind_invoke, Heq, record_add_calls, add_calls_app.
      + exists (Rejected err), [asgName]. intros s0. now rewrite bind_invoke.
      + exists Pending, [asgName]. intros s0. now rewrite bind_invoke. }
  destruct (terminateInstances e [iid]) as [[]|err|].
  2,3: exists []; cbn [snd calls record set_handle set_now map];
       now rewrite <- !app_assoc.
  destruct (assignedAsgNames e) as [asgNames|].
  - destruct (Hdetach asgNames) as (o & called & Heq).
    exists called. rewrite Heq.
    cbn [snd calls add_calls record set_handle set_now]. now rewrite <- !app_assoc.
  - exists []. unfold ret.
    cbn [snd calls record set_handle set_now map]. now rewrite <- !app_assoc.
Qed.
End DiscarderEscalation.

(** C4, as the claim states it, fails: [pm2.connect] never calls back, so
    the first attempt stays stuck in the drain with the interval set at
    time 0; the loop runs the interval's callback at 600 s, where EC2
    refuses the termination and the [catch] swallows it, and again at
    1200 s. At 1200 s drain and terminate have not completed, the interval
    has never been cleared, and the forced termination has been started
    twice, not once. *)
Lemma C4_fires_again :
  let s := InstanceDiscarder.run [InstanceDiscarder.Call Samples.stuck;
                          InstanceDiscarder.Timer Samples.stuck;
                          InstanceDiscarder.Timer Samples.stuck]
                         (InstanceDiscarder.init ∅) in
  InstanceDiscarder.now s = 2 * InstanceDiscarder.DISCARD_TIMEOUT
  /\ InstanceDiscarder.isDiscarding s = true
  /\ InstanceDiscarder.cleared s = 0%nat
  /\ InstanceDiscarder.fired s = 2%nat
  /\ InstanceDiscarder.fired s <> 1%nat
  /\ InstanceDiscarder.calls s
     = [InstanceDiscarder.SetInterval InstanceDiscarder.DISCARD_TIMEOUT; InstanceDiscarder.Pm2Connect;
        InstanceDiscarder.TimeoutFired; InstanceDiscarder.Metadata;
        InstanceDiscarder.TerminateInstances ["i-0abc"];
        InstanceDiscarder.TimeoutFired; InstanceDiscarder.Metadata;
        InstanceDiscarder.TerminateInstances ["i-0abc"]].
Proof. vm_compute. conjs; try reflexivity. discriminate. Qed.

(** The same with attempts that fail and are retried every 10 s: after
    the first call and 122 timers the clock is at 1200 s, 120 retries have
    run and the interval has fired twice. *)
Lemma escalation_with_retries :
  let s := InstanceDiscarder.run (InstanceDiscarder.Call Samples.unreachable
                          :: repeat (InstanceDiscarder.Timer Samples.unreachable) 122)
                         (InstanceDiscarder.init ∅) in
  InstanceDiscarder.now s = 2 * InstanceDiscarder.DISCARD_TIMEOUT
  /\ InstanceDiscarder.fired s = 2%nat
  /\ InstanceDiscarder.armed s = 1%nat
  /\ InstanceDiscarder.killProcessTimeoutHandle s = Some (3 * InstanceDiscarder.DISCARD_TIMEOUT)
  /\ InstanceDiscarder.retries s = [2 * InstanceDiscarder.DISCARD_TIMEOUT + InstanceDiscarder.RETRY_INTERVAL].
Proof. vm_compute. conjs; reflexivity. Qed.

(** C4 (amended): an attempt by the elected, idle coordinator sets the
    interval, DISCARD_TIMEOUT from now, exactly when none is set, so a
    retry under the same marker does not set it again. From then on, over
    any run of calls, waits and timers in which it is not cleared, the
    interval fires once per period: after [k] firings the clock has
    reached [t0 + k * DISCARD_TIMEOUT], has not passed the next multiple,
    and the interval is due there -- whatever the retries do in between.
    Each firing calls [terminateInstance] directly, with no call to pm2:
    the state it leaves is the one [terminateInstance] leaves, and in
    production, once the metadata endpoint has answered, it asks EC2 to
    terminate this instance and after that only detaches it from groups.
    And the interval is cleared only by an attempt whose drain and
    terminate both came to a normal end. *)
Theorem C4_escalation_interval :
  (forall e s,
      InstanceDiscarder.electable e s -> InstanceDiscarder.isDiscarding s = false ->
      let s' := snd (InstanceDiscarder.discard e s) in
      match InstanceDiscarder.killProcessTimeoutHandle s with
      | None =>
          InstanceDiscarder.armed s' = S (InstanceDiscarder.armed s)
          /\ (InstanceDiscarder.killProcessTimeoutHandle s'
              = Some (InstanceDiscarder.now s + InstanceDiscarder.DISCARD_TIMEOUT)
              \/ (InstanceDiscarder.killProcessTimeoutHandle s' = None
                  /\ InstanceDiscarder.completes e))
      | Some d =>
          InstanceDiscarder.armed s' = InstanceDiscarder.armed s
          /\ (InstanceDiscarder.killProcessTimeoutHandle s' = Some d
              \/ (InstanceDiscarder.killProcessTimeoutHandle s' = None
                  /\ InstanceDiscarder.completes e))
      end)
  /\ (forall evs s t0,
        InstanceDiscarder.killProcessTimeoutHandle s = Some (t0 + InstanceDiscarder.DISCARD_TIMEOUT) ->
        InstanceDiscarder.now s <= t0 + InstanceDiscarder.DISCARD_TIMEOUT ->
        InstanceDiscarder.cleared (InstanceDiscarder.run evs s) = InstanceDiscarder.cleared s ->
        InstanceDiscarder.on_schedule t0 (InstanceDiscarder.fired s) (InstanceDiscarder.run evs s))
  /\ (forall e s d,
        InstanceDiscarder.next_timer s = Some (InstanceDiscarder.TheInterval d) ->
        let s' := InstanceDiscarder.step (InstanceDiscarder.Timer e) s in
        InstanceDiscarder.fired s' = S (InstanceDiscarder.fired s)
        /\ InstanceDiscarder.killProcessTimeoutHandle s' = Some (d + InstanceDiscarder.DISCARD_TIMEOUT)
        /\ InstanceDiscarder.cleared s' = InstanceDiscarder.cleared s
        /\ (exists cs, InstanceDiscarder.calls s' = InstanceDiscarder.calls s ++ InstanceDiscarder.TimeoutFired :: cs
                       /\ List.filter InstanceDiscarder.is_pm2 cs = [])
        /\ s' = snd (InstanceDiscarder.terminateInstance e
                       (InstanceDiscarder.record InstanceDiscarder.TimeoutFired
                          (InstanceDiscarder.set_handle
                             (Some (d + InstanceDiscarder.DISCARD_TIMEOUT))
                             (InstanceDiscarder.set_now
                                (Z.max (InstanceDiscarder.now s) d) s))))
        /\ (forall instanceMeta,
              InstanceDiscarder.isProduction e = true ->
              InstanceDiscarder.metadata e = Resolved instanceMeta ->
              exists asgNames,
                InstanceDiscarder.calls s'
                = InstanceDiscarder.calls s
                  ++ InstanceDiscarder.TimeoutFired :: InstanceDiscarder.Metadata
                     :: InstanceDiscarder.TerminateInstances
                          [InstanceIpManager.instanceId instanceMeta]
                     :: map (fun asgName =>
                               InstanceDiscarder.DetachInstances asgName false
                                 [InstanceIpManager.instanceId instanceMeta])
                            asgNames))
  /\ (forall ev s d,
        InstanceDiscarder.killProcessTimeoutHandle s = Some d ->
        InstanceDiscarder.killProcessTimeoutHandle (InstanceDiscarder.step ev s) = None ->
        exists e, (ev = InstanceDiscarder.Call e \/ ev = InstanceDiscarder.Timer e)
                  /\ InstanceDiscarder.completes e).
Proof.
  conjs.
  - exact discard_arms.
  - intros evs s t0 Hh Hnow Hclear. apply run_on_schedule; [|exact Hclear].
    exists 0%nat. change (Z.of_nat 0 + 1) with 1. rewrite Z.mul_1_l.
    conjs; [lia | exact Hh | exact Hnow | lia].
  - intros e s d Hnext. cbv zeta.
    destruct (interval_fires e s d Hnext) as (Hf & Hh & Hc & Hcalls).
    destruct (interval_terminates e s d Hnext) as (Hstep & Hprod).
    conjs; [exact Hf | exact Hh | exact Hc | exact Hcalls | exact Hstep | exact Hprod].
  - exact step_disarms.
Qed.

Lemma C4_escalation_interval_witness :
  let s0 := InstanceDiscarder.step (InstanceDiscarder.Call Samples.unreachable) (InstanceDiscarder.init ∅) in
  let evs := repeat (InstanceDiscarder.Timer Samples.unreachable) 122 in
  InstanceDiscarder.killProcessTimeoutHandle s0 = Some (0 + InstanceDiscarder.DISCARD_TIMEOUT)
  /\ InstanceDiscarder.cleared (InstanceDiscarder.run evs s0) = InstanceDiscarder.cleared s0
  /\ InstanceDiscarder.on_schedule 0 (InstanceDiscarder.fired s0) (InstanceDiscarder.run evs s0).
Proof.
  split; [reflexivity|]. split; [vm_compute; reflexivity|].
  apply (proj1 (proj2 C4_escalation_interval)
           (repeat (InstanceDiscarder.Timer Samples.unreachable) 122)
           (InstanceDiscarder.step (InstanceDiscarder.Call Samples.unreachable) (InstanceDiscarder.init ∅)) 0).
  - reflexivity.
  - vm_compute. discriminate.
  - vm_compute. reflexivity.
Defined.


(* ================================================================== *)
(** * More on InstanceIpManager *)

Section NetworkInfoFacts.
Import InstanceIpManager IpReadings.

Lemma overwrite_one {B : Type} (bs : list B) (acc : option B) :
  fold_left (fun _ b => Some b) bs acc
  = match last bs with Some b => Some b | None => acc end.
Proof.
  revert acc. induction bs as [|b bs IH]; intros acc; [reflexivity|].
  cbn [fold_left]. rewrite IH, last_cons. now destruct (last bs).
Qed.

(** A loop that overwrites one variable at every element of the lists
    [g a] leaves the last element of their concatenation there. *)
Lemma overwrite_last {A B : Type} (g : A -> list B) (l : list A) (acc : option B) :
  fold_left (fun acc a => fold_left (fun _ b => Some b) (g a) acc) l acc
  = match last (flat_map g l) with Some b => Some b | None => acc end.
Proof.
  revert acc. induction l as [|a l IH]; intros acc; [reflexivity|].
  cbn [fold_left flat_map]. rewrite IH, overwrite_one, last_app.
  now destruct (last (flat_map g l)).
Qed.

Lemma lastNetworkInterface_last (d : DescribeInstancesResult) :
  lastNetworkInterface d = last (interfaces d).
Proof.
  unfold lastNetworkInterface, interfaces.
  set (perInstance := fun instance : Instance => orEmpty (NetworkInterfaces instance)).
  set (perReservation := fun reservation : Reservation =>
                           flat_map perInstance (orEmpty (Instances reservation))).
  assert (H : forall l acc,
             fold_left (fun acc reservation =>
                          fold_left (fun acc instance =>
                                       fold_left (fun _ ninterface => Some ninterface)
                                                 (orEmpty (NetworkInterfaces instance)) acc)
                                    (orEmpty (Instances reservation)) acc) l acc
             = match last (flat_map perReservation l) with
               | Some ni => Some ni
               | None => acc
               end).
  { induction l as [|r l IH]; intros acc; [reflexivity|].
    cbn [fold_left flat_map]. rewrite IH, (overwrite_last perInstance), last_app.
    now destruct (last (flat_map perReservation l)). }
  rewrite H. now destruct (last _).
Qed.

Lemma extractIps_bound (ni : InstanceNetworkInterface) : extractIps ni = bound ni.
Proof.
  unfold extractIps, bound.
  assert (H : forall l acc,
             fold_left (fun ips ip =>
                          match Ipv6Address ip with
                          | Some a => if truthy a then ips ++ [a] else ips
                          | None => ips
                          end) l acc
             = acc ++ flat_map (fun ip => match Ipv6Address ip with
                                         | Some a => if truthy a then [a] else []
                                         | None => []
                                         end) l).
  { induction l as [|ip l IH]; intros acc; cbn [fold_left flat_map].
    - now rewrite app_nil_r.
    - rewrite IH. destruct (Ipv6Address ip) as [a|]; [|reflexivity].
      destruct (truthy a); [now rewrite <- app_assoc | reflexivity]. }
  apply H.
Qed.
End NetworkInfoFacts.

(** X1: [networkInfo] answers with the last interface of the listing, in the
    order reservations, instances and interfaces are listed, and with the
    addresses of that interface that are present and not empty, in their
    order; interfaces listed before the last one play no part. It fails
    when the listing is missing, has no interface at all, or the last
    interface has no (or an empty) id. *)
Theorem networkInfo_picks_last_interface
        (instanceDetail : option InstanceIpManager.DescribeInstancesResult) :
  InstanceIpManager.pickInterface instanceDetail
  = match instanceDetail with
    | None => Rejected NoInstanceDetail
    | Some d =>
        match last (IpReadings.interfaces d) with
        | Some ni =>
            match InstanceIpManager.NetworkInterfaceId ni with
            | Some nid =>
                if truthy nid
                then Resolved {| InstanceIpManager.id := nid;
                                 InstanceIpManager.ips := IpReadings.bound ni |}
                else Rejected NoNetworkInterface
            | None => Rejected NoNetworkInterface
            end
        | None => Rejected NoNetworkInterface
        end
    end.
Proof.
  unfold InstanceIpManager.pickInterface. destruct instanceDetail as [d|]; [|reflexivity].
  rewrite lastNetworkInterface_last.
  destruct (last (IpReadings.interfaces d)) as [ni|]; [|reflexivity].
  now rewrite extractIps_bound.
Qed.

(** On an instance with two interfaces the rotation only ever sees the
    second one: whatever is bound to the first is not in the answer. *)
Lemma two_interfaces_picked (first second : list string) :
  Forall (fun a => a <> "") second ->
  InstanceIpManager.pickInterface (MoreSamples.two_interfaces first second)
  = Resolved {| InstanceIpManager.id := "eni-2"; InstanceIpManager.ips := second |}.
Proof.
  intros Hsecond. unfold InstanceIpManager.pickInterface. cbn. f_equal. f_equal.
  unfold InstanceIpManager.extractIps. cbn.
  assert (H : forall l acc,
             Forall (fun a => a <> "") l ->
             fold_left (fun ips ip =>
                          match InstanceIpManager.Ipv6Address ip with
                          | Some a => if truthy a then ips ++ [a] else ips
                          | None => ips
                          end)
                       (map (fun a => {| InstanceIpManager.Ipv6Address := Some a |}) l) acc
             = acc ++ l).
  { induction l as [|a l IH]; intros acc Hl; cbn [map fold_left].
    - now rewrite app_nil_r.
    - inversion Hl as [|? ? Ha Hl']; subst. cbn.
      unfold truthy. apply String.eqb_neq in Ha. rewrite Ha. cbn.
      rewrite (IH _ Hl'), <- app_assoc. reflexivity. }
  now rewrite H.
Qed.

Section SleepBudget.
Import InstanceIpManager IpReadings.
Variable e : env.

Lemma slept_app (cs cs' : list call) : slept (cs ++ cs') = slept cs + slept cs'.
Proof.
  induction cs as [|c cs IH]; [reflexivity|]. cbn [app slept fold_right].
  fold (slept (cs ++ cs')). fold (slept cs). rewrite IH. destruct c; lia.
Qed.

Lemma lookups_app (cs cs' : list call) :
  lookups (cs ++ cs') = (lookups cs + lookups cs')%nat.
Proof. unfold lookups. now rewrite List.filter_app, length_app. Qed.

(** The loop sleeps after every lookup that did not match, and only
    then. *)
Lemma confirm_slept (newIp : option string) (n i : nat) (s : state) :
  exists b cs,
    confirm e newIp n i s = (Resolved b, add_calls cs s)
    /\ (lookups cs <= n)%nat
    /\ (b = false -> lookups cs = n
                     /\ slept cs = Z.of_nat n * MYIP_CHECK_RETRY_DURATION)
    /\ (b = true -> (1 <= lookups cs)%nat
                    /\ slept cs = (Z.of_nat (lookups cs) - 1) * MYIP_CHECK_RETRY_DURATION
                    /\ last cs = Some (MyIpFromRemote MYIP_CHECK_TIMEOUT)).
Proof.
  revert i s. induction n as [|n IH]; intros i s.
  - exists false, []. unfold add_calls. cbn. unfold ret. rewrite app_nil_r.
    destruct s; cbn. conjs; reflexivity || lia || discriminate.
  - rewrite confirm_S. cbv zeta.
    set (s1 := record (MyIpFromRemote MYIP_CHECK_TIMEOUT) s).
    set (s2 := record (Usleep MYIP_CHECK_RETRY_DURATION) s1).
    assert (Hagain : exists b cs,
               confirm e newIp n (S i) s2 = (Resolved b, add_calls cs s)
               /\ (lookups cs <= S n)%nat
               /\ (b = false -> lookups cs = S n
                                /\ slept cs = Z.of_nat (S n) * MYIP_CHECK_RETRY_DURATION)
               /\ (b = true -> (1 <= lookups cs)%nat
                               /\ slept cs = (Z.of_nat (lookups cs) - 1)
                                             * MYIP_CHECK_RETRY_DURATION
                               /\ last cs = Some (MyIpFromRemote MYIP_CHECK_TIMEOUT))).
    { destruct (IH (S i) s2) as (b & cs & Heq & Hle & Hmiss & Hhit).
      exists b, ([MyIpFromRemote MYIP_CHECK_TIMEOUT; Usleep MYIP_CHECK_RETRY_DURATION] ++ cs).
      rewrite Heq, lookups_app, slept_app.
      change (lookups [MyIpFromRemote MYIP_CHECK_TIMEOUT; Usleep MYIP_CHECK_RETRY_DURATION])
        with 1%nat.
      change (slept [MyIpFromRemote MYIP_CHECK_TIMEOUT; Usleep MYIP_CHECK_RETRY_DURATION])
        with MYIP_CHECK_RETRY_DURATION.
      conjs; [| lia | |].
      { unfold s2, s1, add_calls, record. cbn [fs isWorking calls].
        now rewrite <- !app_assoc. }
      - intros Hb. destruct (Hmiss Hb) as [H1 H2]. split; lia.
      - intros Hb. destruct (Hhit Hb) as (H1 & H2 & H3). conjs; [lia | lia |].
        rewrite last_app, H3. reflexivity. }
    destruct (rp_get e i) as [ip| |]; try exact Hagain.
    destruct (same_ip ip newIp); try exact Hagain.
    exists true, [MyIpFromRemote MYIP_CHECK_TIMEOUT]. unfold s1.
    conjs; [reflexivity | cbn; lia | discriminate |].
    intros _. conjs; [cbn; lia | reflexivity | reflexivity].
Qed.

Lemma rotation_calls_quiet (instanceMeta : EC2MetaDataResponse) (info : NetworkInfo) :
  lookups (rotation_calls instanceMeta info) = 0%nat
  /\ slept (rotation_calls instanceMeta info) = 0.
Proof.
  unfold rotation_calls, lookups. now destruct (length (ips info) =? 0)%nat.
Qed.
End SleepBudget.

Section SleepBudgetTheorem.
Import InstanceIpManager IpReadings.

(** X2: Whatever the collaborators answer, one run of [requestChangeIpV6]
    looks the address up at most 30 times and sleeps at most
    10 s + 30 * 5 s. A run that returns made at least one lookup, the
    last call it made is that lookup, and it slept 10 s plus 5 s for each
    lookup before it; a run that does not return either never got to the
    wait (no lookup, no sleep) or went through all 30 lookups and the
    full 160 s. *)
Theorem requestChangeIpV6_budget (e : env) (s : state) :
  let '(r, s') := InstanceIpManager.requestChangeIpV6 e s in
  exists cs,
    InstanceIpManager.calls s' = InstanceIpManager.calls s ++ cs
    /\ (InstanceIpManager.lookups cs <= InstanceIpManager.MYIP_CHECK_RETRY)%nat
    /\ 0 <= IpReadings.slept cs <= 160000
    /\ match r with
       | Resolved _ =>
           (1 <= InstanceIpManager.lookups cs)%nat
           /\ IpReadings.slept cs
              = InstanceIpManager.IP_CHANGE_LEADTIME
                + (Z.of_nat (InstanceIpManager.lookups cs) - 1)
                  * InstanceIpManager.MYIP_CHECK_RETRY_DURATION
           /\ last cs = Some (InstanceIpManager.MyIpFromRemote
                                InstanceIpManager.MYIP_CHECK_TIMEOUT)
       | _ =>
           (InstanceIpManager.lookups cs = 0%nat /\ IpReadings.slept cs = 0)
           \/ (InstanceIpManager.lookups cs = InstanceIpManager.MYIP_CHECK_RETRY
               /\ IpReadings.slept cs = 160000)
       end.
Proof.
  assert (Hearly : forall cs,
             lookups cs = 0%nat -> slept cs = 0 ->
             exists cs0,
               calls (add_calls cs s) = calls s ++ cs0
               /\ (lookups cs0 <= MYIP_CHECK_RETRY)%nat
               /\ 0 <= slept cs0 <= 160000
               /\ ((lookups cs0 = 0%nat /\ slept cs0 = 0)
                   \/ (lookups cs0 = MYIP_CHECK_RETRY /\ slept cs0 = 160000))).
  { intros cs Hl Hs. exists cs. rewrite Hl, Hs.
    conjs; [reflexivity | lia | lia | lia | now left]. }
  assert (Hrun : forall A B (c : call) (o : outcome A) (k : A -> task state B) s0,
             bind (invoke c o) k s0
             = match o with
               | Resolved a => k a (add_calls [c] s0)
               | Rejected err => (Rejected err, add_calls [c] s0)
               | Pending => (Pending, add_calls [c] s0)
               end).
  { intros A B c o k s0. unfold invoke, bind, modify, await. now destruct o. }
  destruct (metadata e) as [meta| |] eqn:Hmeta.
  2,3: unfold requestChangeIpV6; rewrite Hrun, Hmeta;
       apply Hearly; reflexivity.
  destruct (describeInstances e (instanceId meta)) as [d| |] eqn:Hd.
  2,3: unfold requestChangeIpV6, networkInfo; rewrite Hrun, Hmeta;
       unfold bind at 1; rewrite Hrun, Hd, add_calls_add_calls;
       apply Hearly; reflexivity.
  destruct (pickInterface d) as [info| |] eqn:Hpick.
  2,3: unfold requestChangeIpV6, networkInfo; rewrite Hrun, Hmeta;
       unfold bind at 1; rewrite Hrun, Hd, add_calls_add_calls;
       unfold await; rewrite Hpick;
       apply Hearly; reflexivity.
  destruct (rotation_calls_quiet meta info) as [Hrl Hrs].
  assert (Hcases : (ips info = [] \/
                    unassignIpv6Addresses e (id info) (ips info) = Resolved tt)
                   \/ (ips info <> [] /\
                       unassignIpv6Addresses e (id info) (ips info) <> Resolved tt)).
  { destruct (ips info) as [|a l]; [left; now left|].
    destruct (unassignIpv6Addresses e (id info) (a :: l)) as [[]| |];
      [left; now right | right; split; congruence | right; split; congruence]. }
  destruct Hcases as [Hok|[Hips Hun]].
  - rewrite (request_assign e s meta d info Hmeta Hd Hpick Hok). cbv zeta.
    destruct (assignIpv6Addresses e (id info) 1) as [[[[addrs|]]|]| |];
      try (apply Hearly; [exact Hrl | exact Hrs]).
    destruct (indexOf_found (ips info) (head addrs));
      [apply Hearly; [exact Hrl | exact Hrs]|].
    destruct (confirm_slept e (head addrs) MYIP_CHECK_RETRY 0
                (add_calls [Usleep IP_CHANGE_LEADTIME]
                   (add_calls (rotation_calls meta info) s)))
      as (b & cs & Heq & Hle & Hmiss & Hhit).
    rewrite Heq.
    assert (Hl : lookups (rotation_calls meta info ++ [Usleep IP_CHANGE_LEADTIME] ++ cs)
                 = lookups cs).
    { now rewrite !lookups_app, Hrl. }
    assert (Hs : slept (rotation_calls meta info ++ [Usleep IP_CHANGE_LEADTIME] ++ cs)
                 = IP_CHANGE_LEADTIME + slept cs).
    { rewrite !slept_app, Hrs. reflexivity. }
    assert (H30 : Z.of_nat MYIP_CHECK_RETRY = 30) by reflexivity.
    assert (Hdur : MYIP_CHECK_RETRY_DURATION = 5000) by reflexivity.
    assert (Hlead : IP_CHANGE_LEADTIME = 10000) by reflexivity.
    destruct b; cbv beta iota;
      exists (rotation_calls meta info ++ [Usleep IP_CHANGE_LEADTIME] ++ cs);
      rewrite Hl, Hs.
    + destruct (Hhit eq_refl) as (H1 & H2 & H3).
      conjs; [unfold add_calls; cbn [calls]; now rewrite <- !app_assoc
             | exact Hle | lia | lia | exact H1 | lia |].
      rewrite !last_app, H3. reflexivity.
    + destruct (Hmiss eq_refl) as (H1 & H2).
      conjs; [unfold add_calls; cbn [calls]; now rewrite <- !app_assoc
             | exact Hle | lia | lia |].
      right. split; [exact H1 | lia].
  - rewrite (request_unassign_unsettled e s meta d info Hmeta Hd Hpick Hips Hun).
    destruct (unassignIpv6Addresses e (id info) (ips info)) as [[]|err|];
      [congruence | apply Hearly | apply Hearly]; reflexivity.
Qed.
End SleepBudgetTheorem.

Section LockFacts.
Import InstanceIpManager.
Variable e : env.

(** The marker file system after a call of [changeIpv6] is the one
    before it, with the marker created, or with the marker removed. *)
Lemma changeIpv6_fs (discardIfFailed : bool) (s : state) :
  let fs' := fs (snd (changeIpv6 e discardIfFailed s)) in
  fs' = fs s \/ fs' = <[pidFile e := pid e]> (fs s)
  \/ fs' = delete (pidFile e) (fs s).
Proof.
  cbv zeta.
  destruct (fs s !! pidFile e) as [spid|] eqn:Hmarker.
  - destruct (Z.eqb_spec spid (pid e)) as [->|Hne].
    + destruct (isWorking s) eqn:Hbusy.
      * rewrite (changeIpv6_declined e _ s (pid e) Hmarker (or_intror Hbusy)). now left.
      * rewrite (changeIpv6_run e _ s (or_intror Hmarker) Hbusy).
        destruct (request_frame e (elected e s)) as (cs & Hs1 & _).
        destruct (requestChangeIpV6 e (elected e s)) as [[newIp|err|] s1];
          cbn [snd] in *; subst s1; cbn [fs released add_calls elected].
        3: right; now left.
        all: right; right; unfold LeaderLock.unlinkPidFile, Fs.unlinkSync;
          rewrite lookup_insert_eq; apply delete_insert_eq.
    + rewrite (changeIpv6_declined e _ s spid Hmarker (or_introl Hne)). now left.
  - destruct (isWorking s) eqn:Hbusy.
    + right. left. unfold changeIpv6, isSupervisionProcess, bind, get, ret.
      rewrite (isSupervisionProcess_free _ _ _ Hmarker). cbn. now rewrite Hbusy.
    + rewrite (changeIpv6_run e _ s (or_introl Hmarker) Hbusy).
      destruct (request_frame e (elected e s)) as (cs & Hs1 & _).
      destruct (requestChangeIpV6 e (elected e s)) as [[newIp|err|] s1];
        cbn [snd] in *; subst s1; cbn [fs released add_calls elected].
      3: right; now left.
      all: right; right; unfold LeaderLock.unlinkPidFile, Fs.unlinkSync;
        rewrite lookup_insert_eq; apply delete_insert_eq.
Qed.
End LockFacts.

Section LockTheorems.
Import InstanceIpManager.

(** X3: Whichever way a call of [changeIpv6] ends -- declined, returned,
    thrown or left waiting -- every file other than its own marker is as
    it was before; in particular the marker of the discarder's protocol,
    which lives in the same directory under another name. *)
Theorem changeIpv6_leaves_other_files (e : env) (discardIfFailed : bool) (s : state) :
  (forall path, path <> pidFile e ->
                fs (snd (changeIpv6 e discardIfFailed s)) !! path = fs s !! path)
  /\ (forall e2 : InstanceDiscarder.env,
         tmpdir e = InstanceDiscarder.tmpdir e2 ->
         fs (snd (changeIpv6 e discardIfFailed s)) !! InstanceDiscarder.pidFile e2
         = fs s !! InstanceDiscarder.pidFile e2).
Proof.
  assert (H : forall path, path <> pidFile e ->
                fs (snd (changeIpv6 e discardIfFailed s)) !! path = fs s !! path).
  { intros path Hne.
    destruct (changeIpv6_fs e discardIfFailed s) as [->|[->| ->]].
    - reflexivity.
    - now apply lookup_insert_ne.
    - now apply lookup_delete_ne. }
  split; [exact H|]. intros e2 Htmp. apply H. now apply pidFiles_differ.
Qed.

(** X4: A call that gets past the election and whose rotation settles, either
    way, leaves the file system without the marker and otherwise as it
    was (a marker the caller had left behind earlier goes too), and the
    busy flag clear: the next call is let through again. *)
Theorem changeIpv6_round_trip (e : env) (discardIfFailed : bool) (s : state) :
  electable e s -> isWorking s = false ->
  fst (changeIpv6 e discardIfFailed s) <> Pending ->
  let s' := snd (changeIpv6 e discardIfFailed s) in
  fs s' = delete (pidFile e) (fs s)
  /\ (fs s !! pidFile e = None -> fs s' = fs s)
  /\ isWorking s' = false
  /\ electable e s'.
Proof.
  intros Hel Hidle. cbv zeta. rewrite (changeIpv6_run e _ s Hel Hidle).
  destruct (request_frame e (elected e s)) as (cs & Hs1 & _).
  assert (Hfs : LeaderLock.unlinkPidFile (pidFile e) (<[pidFile e := pid e]> (fs s))
                = delete (pidFile e) (fs s)).
  { unfold LeaderLock.unlinkPidFile, Fs.unlinkSync.
    rewrite lookup_insert_eq. apply delete_insert_eq. }
  destruct (requestChangeIpV6 e (elected e s)) as [[newIp|err|] s1];
    cbn [fst snd] in *; subst s1; cbn [fs isWorking released add_calls elected];
    intros Hsettled; [| |congruence];
    (conjs; [exact Hfs | intros Hfree; rewrite Hfs; now apply delete_id | reflexivity |]);
    left; cbn [fs released add_calls elected]; rewrite Hfs; apply lookup_delete_eq.
Qed.

(** X5: A collaborator that never answers leaves the call waiting for ever
    with the marker in place and the busy flag set, and nothing emitted or
    unlinked; from then on every call of [changeIpv6], by this process or
    by any other process of the host, is declined: it returns [undefined]
    and changes nothing. *)
Theorem hung_run_keeps_lock (e : env) (discardIfFailed : bool) (s : state) :
  electable e s -> isWorking s = false ->
  fst (requestChangeIpV6 e (elected e s)) = Pending ->
  let '(r, s1) := changeIpv6 e discardIfFailed s in
  r = Pending
  /\ fs s1 !! pidFile e = Some (pid e)
  /\ isWorking s1 = true
  /\ List.filter local (calls s1) = List.filter local (calls s)
  /\ (forall d, changeIpv6 e d s1 = (Resolved None, s1))
  /\ (forall e' d s', tmpdir e' = tmpdir e -> pid e' <> pid e -> fs s' = fs s1 ->
                      changeIpv6 e' d s' = (Resolved None, s')).
Proof.
  intros Hel Hidle Hhung. rewrite (changeIpv6_run e _ s Hel Hidle).
  destruct (request_frame e (elected e s)) as (cs & Hs1 & Hquiet).
  destruct (requestChangeIpV6 e (elected e s)) as [[newIp|err|] s1];
    cbn [fst snd] in *; try discriminate Hhung. subst s1.
  assert (Hheld : fs (add_calls cs (elected e s)) !! pidFile e = Some (pid e)).
  { cbn [fs add_calls elected]. apply lookup_insert_eq. }
  conjs.
  - reflexivity.
  - exact Hheld.
  - reflexivity.
  - cbn [calls add_calls elected]. now rewrite List.filter_app, Hquiet, app_nil_r.
  - intros d. apply (changeIpv6_declined e d _ (pid e) Hheld). now right.
  - intros e' d s' Htmp Hpid Hfs.
    apply (changeIpv6_declined e' d s' (pid e)).
    + unfold pidFile in *. rewrite Htmp, Hfs. exact Hheld.
    + left. congruence.
Qed.

Lemma changeIpv6_round_trip_witness :
  let e := Samples.remediation [Samples.A] (Some [Samples.B]) Samples.B in
  let s := init ∅ in
  let s' := snd (changeIpv6 e true s) in
  fs s' = delete (pidFile e) (fs s)
  /\ (fs s !! pidFile e = None -> fs s' = fs s)
  /\ isWorking s' = false
  /\ electable e s'.
Proof.
  apply (changeIpv6_round_trip
           (Samples.remediation [Samples.A] (Some [Samples.B]) Samples.B) true (init ∅)).
  - left. reflexivity.
  - reflexivity.
  - vm_compute. discriminate.
Defined.

Lemma hung_run_keeps_lock_witness :
  let '(r, s1) := changeIpv6 MoreSamples.hanging true (init ∅) in
  r = Pending
  /\ fs s1 !! pidFile MoreSamples.hanging = Some (pid MoreSamples.hanging)
  /\ isWorking s1 = true
  /\ List.filter local (calls s1) = List.filter local (calls (init ∅))
  /\ (forall d, changeIpv6 MoreSamples.hanging d s1 = (Resolved None, s1))
  /\ (forall e' d s', tmpdir e' = tmpdir MoreSamples.hanging ->
                      pid e' <> pid MoreSamples.hanging -> fs s' = fs s1 ->
                      changeIpv6 e' d s' = (Resolved None, s')).
Proof.
  apply (hung_run_keeps_lock MoreSamples.hanging true (init ∅)).
  - left. reflexivity.
  - reflexivity.
  - reflexivity.
Defined.
End LockTheorems.

Section RequestHangs.
Import InstanceIpManager.

Lemma pickInterface_settles (d : option DescribeInstancesResult) :
  pickInterface d <> Pending.
Proof.
  unfold pickInterface. destruct d as [d|]; [|discriminate].
  destruct (lastNetworkInterface d) as [ni|]; [|discriminate].
  destruct (NetworkInterfaceId ni) as [nid|]; [|discriminate].
  destruct (truthy nid); discriminate.
Qed.

(** X6: The echo service cannot hang a rotation: a lookup that fails or never
    answers is cut off by its timer and counts as no match. A run of
    [requestChangeIpV6] stays suspended only if the metadata endpoint or
    one of the three EC2 calls never answers. *)
Theorem request_hangs_only_on_aws (e : env) (s : state) :
  fst (requestChangeIpV6 e s) = Pending ->
  metadata e = Pending
  \/ (exists instanceId, describeInstances e instanceId = Pending)
  \/ (exists nid ips, unassignIpv6Addresses e nid ips = Pending)
  \/ (exists nid count, assignIpv6Addresses e nid count = Pending).
Proof.
  assert (Hrun : forall A B (c : call) (o : outcome A) (k : A -> task state B) s0,
             bind (invoke c o) k s0
             = match o with
               | Resolved a => k a (add_calls [c] s0)
               | Rejected err => (Rejected err, add_calls [c] s0)
               | Pending => (Pending, add_calls [c] s0)
               end).
  { intros A B c o k s0. unfold invoke, bind, modify, await. now destruct o. }
  destruct (metadata e) as [meta|err|] eqn:Hmeta; [| |now left].
  2: { unfold requestChangeIpV6. rewrite Hrun, Hmeta. discriminate. }
  destruct (describeInstances e (instanceId meta)) as [d|err|] eqn:Hd;
    [| |right; left; eauto].
  2: { unfold requestChangeIpV6, networkInfo. rewrite Hrun, Hmeta.
       unfold bind at 1. rewrite Hrun, Hd. discriminate. }
  destruct (pickInterface d) as [info|err|] eqn:Hpick;
    [| |now destruct (pickInterface_settles d)].
  2: { unfold requestChangeIpV6, networkInfo. rewrite Hrun, Hmeta.
       unfold bind at 1. rewrite Hrun, Hd. unfold await. rewrite Hpick. discriminate. }
  assert (Hcases : (ips info = [] \/
                    unassignIpv6Addresses e (id info) (ips info) = Resolved tt)
                   \/ (ips info <> [] /\
                       unassignIpv6Addresses e (id info) (ips info) <> Resolved tt)).
  { destruct (ips info) as [|a l]; [left; now left|].
    destruct (unassignIpv6Addresses e (id info) (a :: l)) as [[]| |];
      [left; now right | right; split; congruence | right; split; congruence]. }
  destruct Hcases as [Hok|[Hips Hun]].
  - rewrite (request_assign e s meta d info Hmeta Hd Hpick Hok). cbv zeta.
    destruct (assignIpv6Addresses e (id info) 1) as [[[[addrs|]]|]| |] eqn:Hassign;
      try discriminate; [|right; right; right; eauto].
    destruct (indexOf_found (ips info) (head addrs)); [discriminate|].
    destruct (confirm_add_calls e (head addrs) MYIP_CHECK_RETRY 0
                (add_calls [Usleep IP_CHANGE_LEADTIME]
                   (add_calls (rotation_calls meta info) s)))
      as (b & cs & Heq & _).
    rewrite Heq. destruct b; discriminate.
  - rewrite (request_unassign_unsettled e s meta d info Hmeta Hd Hpick Hips Hun).
    destruct (unassignIpv6Addresses e (id info) (ips info)) as [[]|err|] eqn:Hu;
      [congruence | discriminate | right; right; left; eauto].
Qed.

Lemma request_hangs_only_on_aws_witness :
  metadata MoreSamples.hanging = Pending
  \/ (exists instanceId, describeInstances MoreSamples.hanging instanceId = Pending)
  \/ (exists nid ips, unassignIpv6Addresses MoreSamples.hanging nid ips = Pending)
  \/ (exists nid count, assignIpv6Addresses MoreSamples.hanging nid count = Pending).
Proof.
  apply (request_hangs_only_on_aws MoreSamples.hanging (init ∅)). reflexivity.
Defined.
End RequestHangs.

(* ================================================================== *)
(** * More on BatchManager *)

Section SchedulerFlags.
Import Scheduler SchedulerReadings.

Ltac runs_simpl :=
  unfold runs_started;
  cbn [out say process_exit fresh with_mgr with_conts with_running suspend incr decr];
  rewrite ?List.filter_app; cbn [List.filter is_run]; rewrite ?app_nil_r.

Lemma held_flags (m m' : BatchManager) : flags m' = flags m -> held m' = held m.
Proof. unfold flags, held. now intros [= -> -> -> _ _]. Qed.

Lemma sticky_flags (m m' : BatchManager) : flags m' = flags m -> sticky m' = sticky m.
Proof. unfold flags, sticky. now intros [= -> -> _ _ _]. Qed.

Lemma sticky_held (m : BatchManager) : sticky m = true -> held m = true.
Proof.
  unfold sticky, held. destruct (isDiscarding m), (needKillProcess m), (isIpChanging m);
    easy.
Qed.

(** A fan-out starts one run per class, in order, with consecutive
    numbers. *)
Lemma start_runs_world (tasks : list jobClass) (w : world) :
  start_runs tasks w
  = (seq (next w) (length tasks),
     {| mgr := mgr w; booked := booked w; conts := conts w;
        running := running w ++ seq (next w) (length tasks);
        next := (next w + length tasks)%nat;
        out := out w ++ fan_out (next w) tasks;
        exited := exited w |}).
Proof.
  revert w. induction tasks as [|task rest IH]; intros w.
  - cbn. rewrite !app_nil_r, Nat.add_0_r. now destruct w.
  - cbn [start_runs start_run]. rewrite IH.
    cbn [next fresh with_running say mgr booked conts running out exited].
    unfold fan_out. cbn [length seq combine map]. rewrite <- !app_assoc. cbn [app].
    replace (S (next w) + length rest)%nat with (next w + S (length rest))%nat by lia.
    reflexivity.
Qed.

Lemma nextTick_runs (w : world) : runs_started (nextTick w) = runs_started w.
Proof. unfold nextTick. destruct (_ && _); [runs_simpl|]; reflexivity. Qed.

Lemma tick_flags (jobName : string) (task : jobClass) (w : world) :
  flags (mgr (tick jobName task w)) = flags (mgr w).
Proof. unfold tick. now destruct (held (mgr w)). Qed.

Lemma iterate_flags (jobName : string) (tasks : jobClass + list jobClass) (w : world) :
  flags (mgr (iterate jobName tasks w)) = flags (mgr w).
Proof.
  unfold iterate. destruct (held (mgr w)); [reflexivity|].
  destruct tasks as [task|tasks]; [reflexivity|]. now rewrite start_runs_world.
Qed.

Lemma iterate_held_runs (jobName : string) (tasks : jobClass + list jobClass) (w : world) :
  held (mgr w) = true -> runs_started (iterate jobName tasks w) = runs_started w.
Proof. intros Hheld. unfold iterate. rewrite Hheld. now runs_simpl. Qed.

Lemma tick_resume_flags (jobName : string) (r : settled) (w : world) :
  flags (mgr (tick_resume jobName r w)) = flags (mgr w).
Proof. unfold tick_resume. rewrite nextTick_mgr. now destruct r. Qed.

Lemma tick_resume_runs (jobName : string) (r : settled) (w : world) :
  runs_started (tick_resume jobName r w) = runs_started w.
Proof. unfold tick_resume. rewrite nextTick_runs. destruct r; now runs_simpl. Qed.

Lemma loop_resume_flags (jobName : string) (tasks : jobClass + list jobClass)
      (r : settled) (w : world) :
  flags (mgr (loop_resume jobName tasks r w)) = flags (mgr w).
Proof.
  unfold loop_resume. destruct (alive _); rewrite ?iterate_flags, nextTick_mgr;
    now destruct r.
Qed.

Lemma loop_resume_held_runs (jobName : string) (tasks : jobClass + list jobClass)
      (r : settled) (w : world) :
  held (mgr w) = true -> runs_started (loop_resume jobName tasks r w) = runs_started w.
Proof.
  intros Hheld. unfold loop_resume.
  set (w1 := match r with
             | Fulfilled => say [Completed jobName] w
             | Thrown e => say [ConsoleError e] w
             end).
  assert (H1 : runs_started (nextTick (decr w1)) = runs_started w).
  { rewrite nextTick_runs. unfold w1. destruct r; now runs_simpl. }
  destruct (alive _); [|exact H1].
  rewrite iterate_held_runs; [exact H1|].
  rewrite <- Hheld. apply held_flags. rewrite nextTick_mgr. unfold w1. now destruct r.
Qed.

Lemma sleep_resume_flags (jobName : string) (tasks : jobClass + list jobClass)
      (w : world) :
  flags (mgr (sleep_resume jobName tasks w)) = flags (mgr w).
Proof.
  unfold sleep_resume. destruct (alive _); now rewrite ?iterate_flags, nextTick_mgr.
Qed.

Lemma sleep_resume_held_runs (jobName : string) (tasks : jobClass + list jobClass)
      (w : world) :
  held (mgr w) = true -> runs_started (sleep_resume jobName tasks w) = runs_started w.
Proof.
  intros Hheld. unfold sleep_resume. destruct (alive _); [|apply nextTick_runs].
  rewrite iterate_held_runs; [apply nextTick_runs|]. now rewrite nextTick_mgr.
Qed.

Lemma settle_flags (j : nat) (r : settled) (w : world) :
  flags (mgr (settle j r w)) = flags (mgr w).
Proof.
  unfold settle. destruct (negb _); [reflexivity|]. cbn [conts with_running].
  destruct (take (waits_on_run j) (conts w)) as [[c rest]|]; [|reflexivity].
  destruct (owner c) as [jobName|jobName tasks]; [now rewrite tick_resume_flags|].
  destruct (waits c) as [j'|js|t]; try now rewrite loop_resume_flags.
  destruct r; [|now rewrite loop_resume_flags].
  destruct (remove_nat j js); [now rewrite loop_resume_flags | reflexivity].
Qed.

Lemma settle_held_runs (j : nat) (r : settled) (w : world) :
  held (mgr w) = true -> runs_started (settle j r w) = runs_started w.
Proof.
  intros Hheld. unfold settle. destruct (negb _); [reflexivity|]. cbn [conts with_running].
  destruct (take (waits_on_run j) (conts w)) as [[c rest]|]; [|reflexivity].
  destruct (owner c) as [jobName|jobName tasks]; [now rewrite tick_resume_runs|].
  destruct (waits c) as [j'|js|t]; try now rewrite loop_resume_held_runs.
  destruct r; [|now rewrite loop_resume_held_runs].
  destruct (remove_nat j js); [now rewrite loop_resume_held_runs | reflexivity].
Qed.

(** Nothing but a signal changes a flag. *)
Lemma step_flags (ev : event) (w : world) :
  is_Signal ev = false -> flags (mgr (step ev w)) = flags (mgr w).
Proof.
  intros Hev. unfold step. destruct (negb (alive w)); [reflexivity|].
  destruct ev as [jobName schedule task|i|jobName tasks|j r|t| |sig];
    try discriminate Hev.
  - reflexivity.
  - destruct (booked w !! i) as [[jobName task]|]; [apply tick_flags | reflexivity].
  - now rewrite iterate_flags.
  - apply settle_flags.
  - destruct (take (waits_on_usleep t) (conts w)) as [[[[jobName|jobName tasks] a] rest]|];
      try reflexivity.
    now rewrite sleep_resume_flags.
  - destruct (take waits_on_nothing (conts w)) as [[[[jobName|jobName tasks] a] rest]|];
      try reflexivity.
    now rewrite loop_resume_flags.
Qed.

Lemma on_signal_runs (sig : signal) (w : world) :
  runs_started (on_signal sig w) = runs_started w.
Proof.
  destruct sig; cbn [on_signal].
  - destruct (enableDiscarder (mgr w)); now runs_simpl.
  - destruct (enableIpManager _); now runs_simpl.
  - now runs_simpl.
  - rewrite nextTick_runs. now runs_simpl.
Qed.

(** While the manager is held no event starts a run. *)
Lemma step_held_runs (ev : event) (w : world) :
  held (mgr w) = true -> runs_started (step ev w) = runs_started w.
Proof.
  intros Hheld. unfold step. destruct (negb (alive w)); [reflexivity|].
  destruct ev as [jobName schedule task|i|jobName tasks|j r|t| |sig].
  - now runs_simpl.
  - destruct (booked w !! i) as [[jobName task]|]; [|reflexivity].
    unfold tick. now rewrite Hheld.
  - rewrite iterate_held_runs; [now runs_simpl | exact Hheld].
  - now apply settle_held_runs.
  - destruct (take (waits_on_usleep t) (conts w)) as [[[[jobName|jobName tasks] a] rest]|];
      try reflexivity.
    now rewrite sleep_resume_held_runs.
  - destruct (take waits_on_nothing (conts w)) as [[[[jobName|jobName tasks] a] rest]|];
      try reflexivity.
    now rewrite loop_resume_held_runs.
  - apply on_signal_runs.
Qed.

Lemma on_signal_sticky (sig : signal) (w : world) :
  sticky (mgr w) = true -> sticky (mgr (on_signal sig w)) = true.
Proof.
  unfold sticky. intros Hs. destruct sig; cbn [on_signal].
  - destruct (enableDiscarder (mgr w)); [reflexivity | exact Hs].
  - destruct (enableIpManager _); exact Hs.
  - exact Hs.
  - rewrite nextTick_mgr. cbn. apply orb_true_r.
Qed.

Lemma step_sticky (ev : event) (w : world) :
  sticky (mgr w) = true -> sticky (mgr (step ev w)) = true.
Proof.
  intros Hs. destruct (is_Signal ev) eqn:Hev.
  - destruct ev; try discriminate Hev. unfold step.
    destruct (negb (alive w)); [exact Hs | now apply on_signal_sticky].
  - rewrite <- Hs. apply sticky_flags. now apply step_flags.
Qed.

Lemma step_held (ev : event) (w : world) :
  is_SIGCONT ev = false -> held (mgr w) = true -> held (mgr (step ev w)) = true.
Proof.
  intros Hev Hheld. destruct (is_Signal ev) eqn:Hsig.
  - destruct ev as [| | | | | |sig]; try discriminate Hsig. unfold step.
    destruct (negb (alive w)); [exact Hheld|].
    unfold held in *. destruct sig; cbn [on_signal]; try discriminate Hev.
    + destruct (enableDiscarder (mgr w)); [reflexivity | exact Hheld].
    + destruct (enableIpManager _); [|exact Hheld]. cbn.
      now rewrite orb_true_r.
    + rewrite nextTick_mgr. cbn. apply orb_true_r.
  - rewrite <- Hheld. apply held_flags. now apply step_flags.
Qed.

(** The kill flag is set by SIGINT and by nothing else. *)
Lemma step_kill (ev : event) (w : world) :
  needKillProcess (mgr (step ev w)) = true ->
  needKillProcess (mgr w) = true \/ is_SIGINT ev = true.
Proof.
  destruct (is_Signal ev) eqn:Hsig.
  - destruct ev as [| | | | | |sig]; try discriminate Hsig. unfold step.
    destruct (negb (alive w)); [now left|].
    destruct sig; cbn [on_signal]; try (now right).
    + destruct (enableDiscarder (mgr w)); now left.
    + destruct (enableIpManager _); now left.
    + now left.
  - pose proof (step_flags ev w Hsig) as H. unfold flags in H.
    injection H as -> _ _ _ _. now left.
Qed.
End SchedulerFlags.

Section SchedulerRuns.
Import Scheduler SchedulerReadings.

Lemma run_cons (ev : event) (evs : list event) (w : world) :
  run (ev :: evs) w = run evs (step ev w).
Proof. reflexivity. Qed.

Lemma step_dead (ev : event) (w : world) : alive w = false -> step ev w = w.
Proof. intros H. unfold step. now rewrite H. Qed.

Lemma run_dead (evs : list event) (w : world) : alive w = false -> run evs w = w.
Proof.
  induction evs as [|ev evs IH]; intros H; [reflexivity|].
  now rewrite run_cons, step_dead, IH.
Qed.

(** A process that is running at the end was running all along. *)
Lemma alive_step_of_run (ev : event) (evs : list event) (w : world) :
  alive (run (ev :: evs) w) = true -> alive (step ev w) = true.
Proof.
  rewrite run_cons. destruct (alive (step ev w)) eqn:E; [reflexivity|].
  now rewrite run_dead, E.
Qed.

Lemma run_flags (evs : list event) (w : world) :
  forallb (fun ev => negb (is_Signal ev)) evs = true ->
  flags (mgr (run evs w)) = flags (mgr w).
Proof.
  revert w. induction evs as [|ev evs IH]; intros w; [reflexivity|].
  cbn [forallb]. intros [Hev Hevs]%andb_prop. apply negb_true_iff in Hev.
  now rewrite run_cons, IH, step_flags.
Qed.

Lemma run_held_runs (evs : list event) (w : world) :
  held (mgr w) = true ->
  forallb (fun ev => negb (is_SIGCONT ev)) evs = true ->
  held (mgr (run evs w)) = true /\ runs_started (run evs w) = runs_started w.
Proof.
  revert w. induction evs as [|ev evs IH]; intros w Hheld; [easy|].
  cbn [forallb]. intros [Hev Hevs]%andb_prop. apply negb_true_iff in Hev.
  rewrite run_cons.
  destruct (IH (step ev w) (step_held ev w Hev Hheld) Hevs) as [H1 H2].
  split; [exact H1|]. now rewrite H2, step_held_runs.
Qed.

Lemma run_sticky_runs (evs : list event) (w : world) :
  sticky (mgr w) = true ->
  sticky (mgr (run evs w)) = true /\ runs_started (run evs w) = runs_started w.
Proof.
  revert w. induction evs as [|ev evs IH]; intros w Hs; [easy|].
  rewrite run_cons.
  destruct (IH (step ev w) (step_sticky ev w Hs)) as [H1 H2].
  split; [exact H1|]. rewrite H2. apply step_held_runs. now apply sticky_held.
Qed.

Lemma run_kill (evs : list event) (w : world) :
  needKillProcess (mgr (run evs w)) = true ->
  needKillProcess (mgr w) = true \/ existsb is_SIGINT evs = true.
Proof.
  revert w. induction evs as [|ev evs IH]; intros w; [now left|].
  rewrite run_cons. intros H. cbn [existsb].
  destruct (IH _ H) as [Hk|Hevs]; [|right; rewrite Hevs; apply orb_true_r].
  destruct (step_kill ev w Hk) as [Hw|Hev]; [now left | right; now rewrite Hev].
Qed.
End SchedulerRuns.

Section SchedulerHoldTheorems.
Import Scheduler SchedulerReadings.

(** X7: Bookings, cron ticks, calls of [infinite], runs that fulfil or throw
    and sleeps that end never touch the flags of the manager: only the
    four signal handlers write them. So whether the manager is held is
    decided by signals alone. *)
Theorem flags_change_only_on_signals (evs : list event) (w : world) :
  forallb (fun ev => negb (is_Signal ev)) evs = true ->
  flags (mgr (run evs w)) = flags (mgr w)
  /\ held (mgr (run evs w)) = held (mgr w).
Proof.
  intros Hevs. pose proof (run_flags evs w Hevs) as H.
  split; [exact H | now apply held_flags].
Qed.

(** X8: A held manager stays held until a SIGCONT arrives, and while it is
    held nothing starts a run: ticks are dropped and the loops of
    [infinite] only sleep. *)
Theorem held_until_SIGCONT (evs : list event) (w : world) :
  held (mgr w) = true ->
  forallb (fun ev => negb (is_SIGCONT ev)) evs = true ->
  held (mgr (run evs w)) = true /\ runs_started (run evs w) = runs_started w.
Proof. apply run_held_runs. Qed.

(** X9: [isDiscarding] and [needKillProcess] are never cleared: once one of
    them is set, whatever follows -- SIGCONT included -- no run is ever
    started again. *)
Theorem no_run_after_discard_or_kill (evs : list event) (w : world) :
  sticky (mgr w) = true ->
  sticky (mgr (run evs w)) = true
  /\ held (mgr (run evs w)) = true
  /\ runs_started (run evs w) = runs_started w.
Proof.
  intros Hs. destruct (run_sticky_runs evs w Hs) as [H1 H2].
  conjs; [exact H1 | now apply sticky_held | exact H2].
Qed.

(** X10: A manager only leaves the process after a SIGINT has been handled,
    with code 0 and no callback between its increment and decrement. *)
Theorem exit_only_after_SIGINT (enableDiscarder enableIpManager : bool)
        (evs : list event) (code : Z) :
  exited (run evs (init enableDiscarder enableIpManager)) = Some code ->
  existsb is_SIGINT evs = true
  /\ code = 0
  /\ nowRunningTask (mgr (run evs (init enableDiscarder enableIpManager))) = 0.
Proof.
  intros Hexit.
  destruct (exit_only_when_idle_and_killed
              evs (init enableDiscarder enableIpManager) code eq_refl Hexit)
    as (Hc & Hz & Hk).
  conjs; [|exact Hc | exact Hz].
  destruct (run_kill evs _ Hk) as [H|H]; [discriminate H | exact H].
Qed.

Lemma flags_change_only_on_signals_witness :
  let evs := [CallBooking "crawl" "*/5 * * * * *" "Crawler"; CronTick 0;
              CallInfinite "index" (inl "Indexer");
              Settle 0%nat (Thrown (External "boom")); Settle 1%nat Fulfilled] in
  let w := step (Signal SIGUSR2) (init true true) in
  flags (mgr (run evs w)) = flags (mgr w)
  /\ held (mgr (run evs w)) = held (mgr w).
Proof.
  apply (flags_change_only_on_signals
           [CallBooking "crawl" "*/5 * * * * *" "Crawler"; CronTick 0;
            CallInfinite "index" (inl "Indexer");
            Settle 0%nat (Thrown (External "boom")); Settle 1%nat Fulfilled]
           (step (Signal SIGUSR2) (init true true))).
  reflexivity.
Defined.

Lemma held_until_SIGCONT_witness :
  let evs := [CallBooking "crawl" "*/5 * * * * *" "Crawler"; CronTick 0;
              CallInfinite "index" (inl "Indexer"); Elapsed 0; Signal SIGUSR1;
              CronTick 0] in
  let w := step (Signal SIGUSR2) (init false true) in
  held (mgr (run evs w)) = true /\ runs_started (run evs w) = runs_started w.
Proof.
  apply (held_until_SIGCONT
           [CallBooking "crawl" "*/5 * * * * *" "Crawler"; CronTick 0;
            CallInfinite "index" (inl "Indexer"); Elapsed 0; Signal SIGUSR1;
            CronTick 0]
           (step (Signal SIGUSR2) (init false true))).
  - reflexivity.
  - reflexivity.
Defined.

Lemma no_run_after_discard_or_kill_witness :
  let evs := [Signal SIGCONT; CronTick 0; Settle 0%nat Fulfilled; CronTick 0] in
  let w := run [CallBooking "crawl" "*/5 * * * * *" "Crawler"; CronTick 0;
                Signal SIGUSR1] (init true true) in
  sticky (mgr (run evs w)) = true
  /\ held (mgr (run evs w)) = true
  /\ runs_started (run evs w) = runs_started w.
Proof.
  apply (no_run_after_discard_or_kill
           [Signal SIGCONT; CronTick 0; Settle 0%nat Fulfilled; CronTick 0]
           (run [CallBooking "crawl" "*/5 * * * * *" "Crawler"; CronTick 0;
                 Signal SIGUSR1] (init true true))).
  reflexivity.
Defined.

Lemma exit_only_after_SIGINT_witness :
  let evs := [CallBooking "crawl" "*/5 * * * * *" "Crawler"; CronTick 0;
              Signal SIGINT; Settle 0%nat Fulfilled] in
  existsb is_SIGINT evs = true
  /\ 0 = 0
  /\ nowRunningTask (mgr (run evs (init true true))) = 0.
Proof.
  apply (exit_only_after_SIGINT true true
           [CallBooking "crawl" "*/5 * * * * *" "Crawler"; CronTick 0;
            Signal SIGINT; Settle 0%nat Fulfilled] 0).
  reflexivity.
Defined.
End SchedulerHoldTheorems.

Section SchedulerAtRest.
Import Scheduler SchedulerReadings.

Lemma held_false_kill (m : BatchManager) : held m = false -> needKillProcess m = false.
Proof. unfold held. now destruct (needKillProcess m), (isDiscarding m), (isIpChanging m). Qed.

Lemma flags_kill (m m' : BatchManager) :
  flags m' = flags m -> needKillProcess m' = needKillProcess m.
Proof. unfold flags. now intros [= -> _ _ _ _]. Qed.

Lemma at_rest_nextTick (w : world) : at_rest (nextTick w).
Proof.
  unfold at_rest, nextTick.
  destruct (Z.eqb_spec (nowRunningTask (mgr w)) 0) as [Hz|Hnz]; cbn [andb].
  - destruct (needKillProcess (mgr w)) eqn:Hk; [discriminate|]. congruence.
  - intros _ _. exact Hnz.
Qed.

Lemma at_rest_same (w w' : world) :
  mgr w' = mgr w -> alive w' = alive w -> at_rest w -> at_rest w'.
Proof. unfold at_rest. intros -> ->. easy. Qed.

Lemma at_rest_tick (jobName : string) (task : jobClass) (w : world) :
  at_rest w -> at_rest (tick jobName task w).
Proof.
  intros Hw. unfold tick. destruct (held (mgr w)) eqn:Hheld; [exact Hw|].
  intros _ Hk. cbn in Hk. rewrite (held_false_kill _ Hheld) in Hk. discriminate Hk.
Qed.

Lemma at_rest_iterate (jobName : string) (tasks : jobClass + list jobClass) (w : world) :
  at_rest w -> at_rest (iterate jobName tasks w).
Proof.
  intros Hw. destruct (held (mgr w)) eqn:Hheld.
  - unfold iterate. rewrite Hheld. revert Hw. now apply at_rest_same.
  - intros _ Hk. rewrite (flags_kill _ _ (iterate_flags jobName tasks w)) in Hk.
    rewrite (held_false_kill _ Hheld) in Hk. discriminate Hk.
Qed.

Lemma at_rest_resumed (jobName : string) (tasks : jobClass + list jobClass) (w : world) :
  at_rest (let w1 := nextTick w in
           if alive w1 then iterate jobName tasks w1 else w1).
Proof.
  cbv zeta. destruct (alive _); [apply at_rest_iterate|]; apply at_rest_nextTick.
Qed.

Lemma at_rest_settle (j : nat) (r : settled) (w : world) :
  at_rest w -> at_rest (settle j r w).
Proof.
  intros Hw. unfold settle. destruct (negb _); [exact Hw|]. cbn [conts with_running].
  destruct (take (waits_on_run j) (conts w)) as [[c rest]|];
    [|revert Hw; now apply at_rest_same].
  destruct (owner c) as [jobName|jobName tasks]; [apply at_rest_nextTick|].
  destruct (waits c) as [j'|js|t]; try apply at_rest_resumed.
  destruct r; [|apply at_rest_resumed].
  destruct (remove_nat j js); [apply at_rest_resumed|].
  revert Hw. now apply at_rest_same.
Qed.

Lemma at_rest_step (ev : event) (w : world) : at_rest w -> at_rest (step ev w).
Proof.
  intros Hw. unfold step. destruct (negb (alive w)); [exact Hw|].
  destruct ev as [jobName schedule task|i|jobName tasks|j r|t| |sig].
  - revert Hw. now apply at_rest_same.
  - destruct (booked w !! i) as [[jobName task]|]; [now apply at_rest_tick | exact Hw].
  - apply at_rest_iterate. revert Hw. now apply at_rest_same.
  - now apply at_rest_settle.
  - destruct (take (waits_on_usleep t) (conts w)) as [[[[jobName|jobName tasks] a] rest]|];
      try exact Hw.
    apply (at_rest_resumed jobName tasks).
  - destruct (take waits_on_nothing (conts w)) as [[[[jobName|jobName tasks] a] rest]|];
      try exact Hw.
    apply (at_rest_resumed jobName tasks).
  - destruct sig; cbn [on_signal].
    + destruct (enableDiscarder (mgr w)); [|exact Hw].
      intros Ha Hk. apply Hw; [exact Ha | exact Hk].
    + destruct (enableIpManager _);
        intros Ha Hk; apply Hw; [exact Ha | exact Hk | exact Ha | exact Hk].
    + intros Ha Hk. apply Hw; [exact Ha | exact Hk].
    + apply at_rest_nextTick.
Qed.

Lemma at_rest_run (evs : list event) (w : world) : at_rest w -> at_rest (run evs w).
Proof.
  revert w. induction evs as [|ev evs IH]; intros w Hw; [exact Hw|].
  rewrite run_cons. now apply IH, at_rest_step.
Qed.

Lemma filter_nonempty {A : Type} (p : A -> bool) (l : list A) :
  (1 <= length (List.filter p l))%nat -> exists x, In x l /\ p x = true.
Proof.
  destruct (List.filter p l) as [|x l'] eqn:E; cbn; [lia|]. intros _.
  exists x. apply List.filter_In. rewrite E. now left.
Qed.
End SchedulerAtRest.

Section SchedulerLoops.
Import Scheduler SchedulerReadings.

Lemma take_filter (q p : cont -> bool) (cs : list cont) (c : cont) (rest : list cont) :
  take p cs = Some (c, rest) ->
  length (List.filter q cs)
  = ((if q c then 1 else 0) + length (List.filter q rest))%nat.
Proof.
  revert rest. induction cs as [|c0 cs IH]; intros rest; cbn [take]; [discriminate|].
  destruct (p c0).
  - intros [= <- <-]. cbn. now destruct (q c0).
  - destruct (take p cs) as [[c' rest']|]; [|discriminate].
    intros [= <- <-]. specialize (IH rest' eq_refl). cbn.
    destruct (q c0), (q c'); cbn in *; lia.
Qed.

Lemma loops_suspend (c : cont) (w : world) :
  loops (suspend c w) = (loops w + (if is_loop c then 1 else 0))%nat.
Proof.
  unfold loops, suspend. cbn [conts with_conts].
  rewrite List.filter_app, length_app. cbn. now destruct (is_loop c).
Qed.

Lemma loops_nextTick (w : world) : loops (nextTick w) = loops w.
Proof. unfold loops. now rewrite nextTick_conts. Qed.

Lemma loops_tick (jobName : string) (task : jobClass) (w : world) :
  loops (tick jobName task w) = loops w.
Proof.
  unfold tick. destruct (held (mgr w)); [reflexivity|].
  cbn [start_run]. rewrite loops_suspend. cbn. unfold loops. cbn. lia.
Qed.

(** Every pass of the loop ends suspended at one of its awaits. *)
Lemma loops_iterate (jobName : string) (tasks : jobClass + list jobClass) (w : world) :
  loops (iterate jobName tasks w) = S (loops w).
Proof.
  unfold iterate. destruct (held (mgr w)).
  - rewrite loops_suspend. cbn. unfold loops. cbn. lia.
  - destruct tasks as [task|tasks].
    + cbn [start_run]. rewrite loops_suspend. cbn. unfold loops. cbn. lia.
    + rewrite start_runs_world, loops_suspend. cbn. unfold loops. cbn. lia.
Qed.

Lemma loops_resumed (jobName : string) (tasks : jobClass + list jobClass) (w : world) :
  alive (if alive (nextTick w) then iterate jobName tasks (nextTick w) else nextTick w)
  = true ->
  loops (if alive (nextTick w) then iterate jobName tasks (nextTick w) else nextTick w)
  = S (loops w).
Proof.
  destruct (alive (nextTick w)) eqn:Ha.
  - intros _. now rewrite loops_iterate, loops_nextTick.
  - rewrite Ha. discriminate.
Qed.

Lemma loops_settle (j : nat) (r : settled) (w : world) :
  alive (settle j r w) = true -> loops (settle j r w) = loops w.
Proof.
  unfold settle. destruct (negb _); [reflexivity|]. cbn [conts with_running].
  destruct (take (waits_on_run j) (conts w)) as [[c rest]|] eqn:Htake; [|reflexivity].
  pose proof (take_filter is_loop _ _ _ _ Htake) as Hlen. fold (loops w) in Hlen.
  set (w1 := with_conts (fun _ => rest) (with_running (remove_nat j) w)).
  assert (Hw1 : loops w1 = length (List.filter is_loop rest)) by reflexivity.
  assert (Hloop : forall jobName tasks r',
             owner c = Infinite jobName tasks ->
             alive (loop_resume jobName tasks r' w1) = true ->
             loops (loop_resume jobName tasks r' w1) = loops w).
  { intros jobName tasks r' Hown Ha. unfold loop_resume in *. cbv zeta in *.
    rewrite (loops_resumed jobName tasks _ Ha).
    assert (Hc : is_loop c = true) by (unfold is_loop; now rewrite Hown).
    rewrite Hc in Hlen. rewrite Hlen.
    destruct r'; unfold loops, w1; cbn; lia. }
  destruct (owner c) as [jobName|jobName tasks] eqn:Hown.
  - intros _. unfold tick_resume. rewrite loops_nextTick.
    assert (Hc : is_loop c = false) by (unfold is_loop; now rewrite Hown).
    rewrite Hc in Hlen. rewrite Hlen.
    destruct r; unfold loops, w1; cbn; lia.
  - destruct (waits c) as [j'|js|t]; try now apply Hloop.
    destruct r; [|now apply Hloop].
    destruct (remove_nat j js); [now apply Hloop|].
    intros _. rewrite loops_suspend, Hw1, Hlen.
    assert (Hc : is_loop c = true) by (unfold is_loop; now rewrite Hown).
    rewrite Hc. unfold is_loop. cbn [owner]. lia.
Qed.

Lemma loops_step (ev : event) (w : world) :
  alive (step ev w) = true ->
  loops (step ev w) = (loops w + (if is_CallInfinite ev then 1 else 0))%nat.
Proof.
  unfold step. destruct (alive w) eqn:Halive; cbn [negb]; [|congruence].
  destruct ev as [jobName schedule task|i|jobName tasks|j r|t| |sig]; cbn [is_CallInfinite];
    rewrite ?Nat.add_0_r.
  - reflexivity.
  - intros _. destruct (booked w !! i) as [[jobName task]|]; [apply loops_tick | reflexivity].
  - intros _. rewrite loops_iterate. unfold loops. cbn. lia.
  - apply loops_settle.
  - destruct (take (waits_on_usleep t) (conts w)) as [[[[jobName|jobName tasks] a] rest]|]
      eqn:Htake; try reflexivity.
    intros Ha. unfold sleep_resume in *. cbv zeta in *. rewrite (loops_resumed jobName tasks _ Ha).
    pose proof (take_filter is_loop _ _ _ _ Htake) as Hlen. fold (loops w) in Hlen.
    rewrite Hlen. reflexivity.
  - destruct (take waits_on_nothing (conts w)) as [[[[jobName|jobName tasks] a] rest]|]
      eqn:Htake; try reflexivity.
    intros Ha. unfold loop_resume in *. cbv zeta in *. rewrite (loops_resumed jobName tasks _ Ha).
    pose proof (take_filter is_loop _ _ _ _ Htake) as Hlen. fold (loops w) in Hlen.
    rewrite Hlen. reflexivity.
  - intros _. destruct sig; cbn [on_signal].
    + now destruct (enableDiscarder (mgr w)).
    + now destruct (enableIpManager _).
    + reflexivity.
    + now rewrite loops_nextTick.
Qed.

Lemma loops_run (evs : list event) (w : world) :
  alive (run evs w) = true ->
  loops (run evs w) = (loops w + length (List.filter is_CallInfinite evs))%nat.
Proof.
  revert w. induction evs as [|ev evs IH]; intros w Ha; [cbn; lia|].
  pose proof (alive_step_of_run ev evs w Ha) as Hstep.
  rewrite run_cons in *. rewrite (IH _ Ha), (loops_step ev w Hstep).
  cbn [List.filter]. destruct (is_CallInfinite ev); cbn [length]; lia.
Qed.

(** A tick of a manager that is not held, as one record. *)
Lemma tick_free (jobName : string) (task : jobClass) (w : world) :
  held (mgr w) = false ->
  tick jobName task w
  = {| mgr := set_count (nowRunningTask (mgr w) + 1) (mgr w);
       booked := booked w;
       conts := conts w ++ [{| owner := Booking jobName; waits := AwaitRun (next w) |}];
       running := running w ++ [next w];
       next := S (next w);
       out := out w ++ [CheckIn jobName; Run (next w) task];
       exited := exited w |}.
Proof.
  intros Hfree. unfold tick. rewrite Hfree.
  unfold start_run, suspend, fresh, with_running, with_conts, say, incr, with_mgr.
  cbn [mgr booked conts running next out exited]. now rewrite <- app_assoc.
Qed.
End SchedulerLoops.

Section SchedulerMoreTheorems.
Import Scheduler SchedulerReadings.

(** X11: Once SIGINT has been handled and the process is still running, at
    least one callback sits between its increment and its decrement: a
    SIGINT that finds the counter at 0 leaves at once, and otherwise the
    exit comes with the very callback that brings the counter back to 0.
    So in a state the manager can be in the guard of [nextTick] is false;
    the call of [nextTick] after the sleep of a held loop never leaves. *)
Theorem kill_pending_means_busy (enableDiscarder enableIpManager : bool)
        (evs : list event) :
  let w := run evs (init enableDiscarder enableIpManager) in
  alive w = true -> needKillProcess (mgr w) = true ->
  1 <= nowRunningTask (mgr w)
  /\ (exists c, In c (conts w) /\ counted c = true)
  /\ nextTick w = w
  /\ (forall t, exited (step (Elapsed t) w) = None).
Proof.
  intros w Halive Hkill.
  assert (Hrest : at_rest w).
  { apply at_rest_run. intros _ Hk. discriminate Hk. }
  assert (Hbal : balance w = 0) by (unfold w; now rewrite run_balance).
  unfold balance in Hbal. specialize (Hrest Halive Hkill).
  assert (Hone : 1 <= nowRunningTask (mgr w)) by lia.
  assert (Hnext : forall w0, mgr w0 = mgr w -> nextTick w0 = w0).
  { intros w0 Hm. unfold nextTick. rewrite Hm.
    destruct (Z.eqb_spec (nowRunningTask (mgr w)) 0); [lia | reflexivity]. }
  conjs.
  - exact Hone.
  - apply filter_nonempty. lia.
  - now apply Hnext.
  - intros t. unfold step. rewrite Halive. cbn [negb].
    assert (Hex : exited w = None) by (unfold alive in Halive; now destruct (exited w)).
    destruct (take (waits_on_usleep t) (conts w)) as [[[[jobName|jobName tasks] a] rest]|];
      try exact Hex.
    unfold sleep_resume. cbv zeta. rewrite (Hnext (with_conts (fun _ => rest) w) eq_refl).
    assert (Ha : alive (with_conts (fun _ => rest) w) = true) by exact Halive.
    rewrite Ha, iterate_exited. exact Hex.
Qed.

(** X12: As long as the process runs, no call of [infinite] ever ends: each one
    is suspended at an await of its loop, whether its runs fulfilled or
    threw and whether the manager is held or not. *)
Theorem infinite_loops_never_end (enableDiscarder enableIpManager : bool)
        (evs : list event) :
  alive (run evs (init enableDiscarder enableIpManager)) = true ->
  loops (run evs (init enableDiscarder enableIpManager))
  = length (List.filter is_CallInfinite evs).
Proof. intros Ha. now rewrite (loops_run evs _ Ha). Qed.

(** X13: Ticks do not wait for one another: [n] ticks of a booking on a manager
    that is not held, with no run settling in between, start [n] runs of
    the same job side by side and add [n] to the counter. *)
Theorem ticks_overlap (n i : nat) (jobName : string) (task : jobClass) (w : world) :
  alive w = true -> held (mgr w) = false ->
  booked w !! i = Some (jobName, task) ->
  let w' := run (repeat (CronTick i) n) w in
  nowRunningTask (mgr w') = nowRunningTask (mgr w) + Z.of_nat n
  /\ running w' = running w ++ seq (next w) n
  /\ runs_started w' = (runs_started w + n)%nat
  /\ conts w'
     = conts w ++ map (fun j => {| owner := Booking jobName; waits := AwaitRun j |})
                      (seq (next w) n).
Proof.
  revert w. induction n as [|n IH]; intros w Halive Hfree Hbooked; cbv zeta.
  - cbn. rewrite !app_nil_r. conjs; reflexivity || lia.
  - cbn [repeat]. rewrite run_cons.
    assert (Hstep : step (CronTick i) w = tick jobName task w).
    { unfold step. now rewrite Halive, Hbooked. }
    rewrite Hstep, (tick_free jobName task w Hfree).
    set (w1 := {| mgr := set_count (nowRunningTask (mgr w) + 1) (mgr w);
                  booked := booked w; conts := _; running := _; next := S (next w);
                  out := _; exited := exited w |}).
    destruct (IH w1) as (H1 & H2 & H3 & H4); try easy.
    rewrite H1, H2, H3, H4. unfold w1, runs_started.
    cbn [mgr running conts out next nowRunningTask set_count seq map].
    rewrite <- !app_assoc, List.filter_app, length_app. cbn.
    conjs; reflexivity || lia.
Qed.

(** X14: A pass of [infinite] over a list of job classes, on a manager that is
    not held, starts one run for every class of the list, in the order of
    the list, adds one to the counter however long the list is, and waits
    for all the runs together. *)
Theorem infinite_fans_out (jobName : string) (tasks : list jobClass) (w : world) :
  alive w = true -> held (mgr w) = false ->
  let w' := step (CallInfinite jobName (inr tasks)) w in
  out w' = out w ++ Registered jobName :: Start jobName :: fan_out (next w) tasks
  /\ runs_started w' = (runs_started w + length tasks)%nat
  /\ running w' = running w ++ seq (next w) (length tasks)
  /\ nowRunningTask (mgr w') = nowRunningTask (mgr w) + 1
  /\ conts w' = conts w ++ [{| owner := Infinite jobName (inr tasks);
                               waits := AwaitAll (seq (next w) (length tasks)) |}].
Proof.
  intros Halive Hfree. cbv zeta. unfold step. rewrite Halive. cbn [negb].
  unfold iterate. cbn [mgr say]. rewrite Hfree, start_runs_world.
  unfold runs_started.
  cbn [suspend with_conts mgr booked conts running next out exited say incr with_mgr
       nowRunningTask set_count].
  rewrite <- !app_assoc. cbn [app].
  conjs; try reflexivity.
  rewrite List.filter_app, length_app. f_equal. cbn [List.filter is_run length].
  unfold fan_out. generalize (next w). induction tasks as [|task rest IH]; intros j.
  - reflexivity.
  - cbn. f_equal. apply IH.
Qed.

Lemma kill_pending_means_busy_witness :
  let w := run [CallBooking "crawl" "*/5 * * * * *" "Crawler"; CronTick 0;
                CallInfinite "index" (inl "Indexer"); Signal SIGINT; Elapsed 2;
                Settle 0%nat Fulfilled]
               (init true true) in
  1 <= nowRunningTask (mgr w)
  /\ (exists c, In c (conts w) /\ counted c = true)
  /\ nextTick w = w
  /\ (forall t, exited (step (Elapsed t) w) = None).
Proof.
  apply (kill_pending_means_busy true true
           [CallBooking "crawl" "*/5 * * * * *" "Crawler"; CronTick 0;
            CallInfinite "index" (inl "Indexer"); Signal SIGINT; Elapsed 2;
            Settle 0%nat Fulfilled]).
  - reflexivity.
  - reflexivity.
Defined.

Lemma infinite_loops_never_end_witness :
  let evs := [CallInfinite "crawl" (inr ["Crawler"; "Indexer"]);
              CallInfinite "index" (inl "Indexer");
              Settle 0%nat (Thrown (External "boom")); Signal SIGUSR2;
              Settle 2%nat Fulfilled; Elapsed 4; Signal SIGCONT; Elapsed 5] in
  loops (run evs (init true true)) = length (List.filter is_CallInfinite evs).
Proof.
  apply (infinite_loops_never_end true true
           [CallInfinite "crawl" (inr ["Crawler"; "Indexer"]);
            CallInfinite "index" (inl "Indexer");
            Settle 0%nat (Thrown (External "boom")); Signal SIGUSR2;
            Settle 2%nat Fulfilled; Elapsed 4; Signal SIGCONT; Elapsed 5]).
  reflexivity.
Defined.

Lemma ticks_overlap_witness :
  let w := step (CallBooking "crawl" "* * * * * *" "Crawler") (init true true) in
  let w' := run (repeat (CronTick 0) 3) w in
  nowRunningTask (mgr w') = nowRunningTask (mgr w) + Z.of_nat 3
  /\ running w' = running w ++ seq (next w) 3
  /\ runs_started w' = (runs_started w + 3)%nat
  /\ conts w'
     = conts w ++ map (fun j => {| owner := Booking "crawl"; waits := AwaitRun j |})
                      (seq (next w) 3).
Proof.
  apply (ticks_overlap 3 0 "crawl" "Crawler"
           (step (CallBooking "crawl" "* * * * * *" "Crawler") (init true true))).
  - reflexivity.
  - reflexivity.
  - reflexivity.
Defined.

Lemma infinite_fans_out_witness :
  let w := init true true in
  let w' := step (CallInfinite "crawl" (inr ["Crawler"; "Indexer"])) w in
  out w' = out w ++ Registered "crawl" :: Start "crawl"
                 :: fan_out (next w) ["Crawler"; "Indexer"]
  /\ runs_started w' = (runs_started w + 2)%nat
  /\ running w' = running w ++ seq (next w) 2
  /\ nowRunningTask (mgr w') = nowRunningTask (mgr w) + 1
  /\ conts w' = conts w ++ [{| owner := Infinite "crawl" (inr ["Crawler"; "Indexer"]);
                               waits := AwaitAll (seq (next w) 2) |}].
Proof.
  apply (infinite_fans_out "crawl" ["Crawler"; "Indexer"] (init true true)).
  - reflexivity.
  - reflexivity.
Defined.
End SchedulerMoreTheorems.

Section DiscardInstance.
Import Scheduler SchedulerReadings.

(** X15: A job calls [discardInstance]: with the discarder enabled the
    manager's SIGUSR1 listener sets [isDiscarding] and calls [discard];
    nothing ever clears the flag, so from then on no event starts a run.
    With the discarder disabled the listener returns at once and the
    manager is exactly as before. *)
Theorem discardInstance_stops_scheduling (w : world) (evs : list event) :
  alive w = true ->
  let w1 := step (Signal BatchJob.discardInstance) w in
  if enableDiscarder (mgr w)
  then isDiscarding (mgr w1) = true
       /\ out w1 = out w ++ [Discard]
       /\ held (mgr (run evs w1)) = true
       /\ runs_started (run evs w1) = runs_started w
  else w1 = w.
Proof.
  intros Halive. cbv zeta. unfold step, BatchJob.discardInstance. rewrite Halive.
  cbn [negb on_signal]. destruct (enableDiscarder (mgr w)); [|reflexivity].
  set (w1 := say [Discard] (with_mgr (set_discarding true) w)).
  assert (Hs : sticky (mgr w1) = true) by reflexivity.
  destruct (run_sticky_runs evs w1 Hs) as [H1 H2].
  conjs; [reflexivity | reflexivity | now apply sticky_held |].
  rewrite H2. unfold w1, runs_started. cbn. rewrite List.filter_app. cbn.
  now rewrite app_nil_r.
Qed.

Lemma discardInstance_stops_scheduling_witness :
  let w := run [CallBooking "crawl" "* * * * * *" "Crawler"; CronTick 0]
               (init true true) in
  let evs := [CronTick 0; Signal SIGCONT; Settle 0%nat Fulfilled; CronTick 0;
              CallInfinite "index" (inl "Indexer"); Elapsed 1] in
  let w1 := step (Signal BatchJob.discardInstance) w in
  isDiscarding (mgr w1) = true
  /\ out w1 = out w ++ [Discard]
  /\ held (mgr (run evs w1)) = true
  /\ runs_started (run evs w1) = runs_started w.
Proof.
  apply (discardInstance_stops_scheduling
           (run [CallBooking "crawl" "* * * * * *" "Crawler"; CronTick 0] (init true true))
           [CronTick 0; Signal SIGCONT; Settle 0%nat Fulfilled; CronTick 0;
            CallInfinite "index" (inl "Indexer"); Elapsed 1]).
  reflexivity.
Defined.
End DiscardInstance.

(* ================================================================== *)
(** * More on InstanceDiscarder *)

Section DiscarderMore.
Import InstanceDiscarder DiscarderReadings.
Variable e : env.

(** The loop over the groups detaches a prefix of them, in order, and
    stops at the first call that does not resolve: every call before the
    last one made resolved; if the loop returns, every group was detached;
    if not, the last call made is the one that did not resolve, and the
    loop ends as that call did. *)
Lemma detachAll_stops (instanceId : string) (asgNames : list string) :
  exists o k,
    (k <= length asgNames)%nat
    /\ (forall s, detachAll e instanceId asgNames s
                  = (o, add_calls (map (detach instanceId) (firstn k asgNames)) s))
    /\ (forall i asgName,
          nth_error asgNames i = Some asgName -> (S i < k)%nat ->
          detachInstances e asgName [instanceId] = Resolved tt)
    /\ (o = Resolved tt ->
        k = length asgNames
        /\ forall asgName, In asgName asgNames ->
                           detachInstances e asgName [instanceId] = Resolved tt)
    /\ (o <> Resolved tt ->
        exists asgName, (1 <= k)%nat
                        /\ nth_error asgNames (k - 1) = Some asgName
                        /\ detachInstances e asgName [instanceId] = o).
Proof.
  induction asgNames as [|asgName rest IH].
  - exists (Resolved tt), 0%nat. conjs; [reflexivity | | | | congruence].
    + intros s. cbn. unfold ret. now rewrite add_calls_nil.
    + intros i name _ Hi. lia.
    + intros _. split; [reflexivity | intros name []].
  - destruct IH as (o & k & Hk & Heq & Hbefore & Hall & Hstop). cbn [detachAll].
    destruct (detachInstances e asgName [instanceId]) as [[]|err|] eqn:Hd.
    + exists o, (S k). conjs.
      * cbn. lia.
      * intros s. rewrite bind_invoke, Heq, record_add_calls, add_calls_app.
        reflexivity.
      * intros [|i] name Hnth Hi; cbn in Hnth.
        -- injection Hnth as <-. exact Hd.
        -- apply (Hbefore i name Hnth). lia.
      * intros Ho. destruct (Hall Ho) as [Hlen Hin]. split; [cbn; now rewrite Hlen|].
        intros name [<-|Hname]; [exact Hd | now apply Hin].
      * intros Ho. destruct (Hstop Ho) as (name & Hone & Hnth & Hname).
        exists name. conjs; [lia | | exact Hname].
        replace (S k - 1)%nat with (S (k - 1)) by lia. exact Hnth.
    + exists (Rejected err), 1%nat. conjs; [cbn; lia | | | discriminate |].
      * intros s. now rewrite bind_invoke.
      * intros i name _ Hi. lia.
      * intros _. exists asgName. now conjs.
    + exists Pending, 1%nat. conjs; [cbn; lia | | | discriminate |].
      * intros s. now rewrite bind_invoke.
      * intros i name _ Hi. lia.
      * intros _. exists asgName. now conjs.
Qed.

(** The coordinator's own pm2 id is the one of the last listed entry
    that carries its pid. *)
Lemma scan_own_id (processList : list ProcessDescription) (sup : option Z)
      (tasks : list Z) :
  fst (scan e processList sup tasks)
  = match last (own_ids e processList) with
    | Some pmId => Some pmId
    | None => sup
    end.
Proof.
  revert sup tasks. induction processList as [|proc rest IH]; intros sup tasks.
  - reflexivity.
  - cbn [scan own_ids flat_map]. fold (own_ids e rest).
    destruct (pm_id proc) as [pmId|]; [|apply IH].
    destruct (pm2_env proc) as [env2|]; [|apply IH].
    destruct (is_pid e proc).
    + rewrite IH. cbn [app]. rewrite last_cons. now destruct (last (own_ids e rest)).
    + destruct (active env2); apply IH.
Qed.

(** The [try] block removes the marker only after the drain and the
    termination have come to a normal end; until then it only adds calls
    and cannot have resolved. *)
Lemma drain_fs (s : state) :
  (fs (snd (drain_and_terminate e s)) = fs s
   /\ (~ completes e ->
       fst (drain_and_terminate e s) <> Resolved tt
       /\ exists cs, snd (drain_and_terminate e s) = add_calls cs s))
  \/ (fs (snd (drain_and_terminate e s)) = LeaderLock.unlinkPidFile (pidFile e) (fs s)
      /\ completes e).
Proof.
  assert (Hquiet : forall (o : outcome unit) cs,
             o <> Resolved tt ->
             fs (snd (o, add_calls cs s)) = fs s
             /\ (~ completes e ->
                 fst (o, add_calls cs s) <> Resolved tt
                 /\ exists cs0, snd (o, add_calls cs s) = add_calls cs0 s)).
  { intros o cs Ho. split; [reflexivity|]. intros _. split; [exact Ho | now exists cs]. }
  rewrite drain_eq.
  destruct (pm2_connect e) as [[]|err|] eqn:Hconnect; try (left; now apply Hquiet).
  destruct (pm2_list e) as [processList|err|] eqn:Hlist; try (left; now apply Hquiet).
  destruct (scan e processList None []) as [sup tasks] eqn:Hscan.
  destruct (promise_all _) as [[]|err|] eqn:Hall; try (left; now apply Hquiet).
  unfold bind. destruct (terminateInstance_frame e) as (o & cs & Heq & _).
  rewrite Heq, add_calls_app.
  destruct o as [[]|err|]; try (left; now apply Hquiet).
  assert (Hcompletes : completes e).
  { unfold completes. conjs; [exact Hconnect | | intros s0; now rewrite Heq].
    exists processList. rewrite Hscan. now split. }
  right. split; [|exact Hcompletes].
  rewrite cleanup_eq. cbv zeta. cbn [killProcessTimeoutHandle add_calls fs].
  destruct (killProcessTimeoutHandle s); destruct sup as [pmId|];
    try destruct (pm2_stop e pmId) as [[]|err|];
    try destruct (usleep_Infinity e) as [[]|err|]; reflexivity.
Qed.

Lemma discard_fs (s : state) :
  let fs' := fs (snd (discard e s)) in
  fs' = fs s \/ fs' = <[pidFile e := pid e]> (fs s)
  \/ fs' = delete (pidFile e) (fs s).
Proof.
  cbv zeta. rewrite discard_eq.
  assert (Hcases : forall s2,
             fs s2 = <[pidFile e := pid e]> (fs s) ->
             let s' := snd (match drain_and_terminate e s2 with
                            | (Rejected _, s3) =>
                                (Resolved tt,
                                 record (SetTimeout RETRY_INTERVAL)
                                   (set_retries (retries s3 ++ [now s3 + RETRY_INTERVAL])
                                      (set_isDiscarding false s3)))
                            | r => r
                            end) in
             fs s' = <[pidFile e := pid e]> (fs s)
             \/ fs s' = delete (pidFile e) (fs s)).
  { intros s2 Hs2. cbv zeta.
    assert (Hun : LeaderLock.unlinkPidFile (pidFile e) (fs s2) = delete (pidFile e) (fs s)).
    { rewrite Hs2. unfold LeaderLock.unlinkPidFile, Fs.unlinkSync.
      rewrite lookup_insert_eq. apply delete_insert_eq. }
    destruct (drain_fs s2) as [[H _]|[H _]]; rewrite ?Hun, ?Hs2 in H;
      destruct (drain_and_terminate e s2) as [[[]|err|] s3]; cbn [snd fs record
        set_retries set_isDiscarding] in *; auto. }
  destruct (fs s !! pidFile e) as [spid|] eqn:Hmarker.
  - rewrite (isSupervisionProcess_held _ _ _ _ Hmarker).
    destruct (Z.eqb_spec spid (pid e)) as [->|Hne]; [|now left].
    destruct (isDiscarding s); [now left|]. cbv zeta.
    right. apply Hcases.
    rewrite (insert_id _ _ _ Hmarker). now destruct (killProcessTimeoutHandle s).
  - rewrite (isSupervisionProcess_free _ _ _ Hmarker).
    destruct (isDiscarding s); [right; now left|]. cbv zeta.
    right. apply Hcases. now destruct (killProcessTimeoutHandle s).
Qed.

(** On a marker of another process, or while an attempt of this process
    is under way, [discard] returns at once and changes nothing. *)
Lemma discard_declined_eq (s : state) (spid : Z) :
  fs s !! pidFile e = Some spid ->
  spid <> pid e \/ isDiscarding s = true ->
  discard e s = (Resolved tt, s).
Proof.
  intros Hheld Hwhy. rewrite discard_eq, (isSupervisionProcess_held _ _ _ _ Hheld).
  assert (Hs : set_fs (fs s) s = s) by now destruct s.
  destruct (Z.eqb_spec spid (pid e)) as [->|Hne]; rewrite Hs.
  - destruct Hwhy as [Hne|Hbusy]; [congruence | now rewrite Hbusy].
  - reflexivity.
Qed.

Lemma discard_elected (s : state) :
  electable e s ->
  LeaderLock.isSupervisionProcess (pidFile e) (pid e) (fs s)
  = (<[pidFile e := pid e]> (fs s), Resolved true).
Proof.
  intros [Hfree|Hown].
  - now apply isSupervisionProcess_free.
  - rewrite (isSupervisionProcess_held _ _ _ _ Hown), Z.eqb_refl.
    now rewrite (insert_id _ _ _ Hown).
Qed.
End DiscarderMore.

Section DiscarderMoreTheorems.
Import InstanceDiscarder DiscarderReadings.

(** X16: In production, once the metadata endpoint has answered,
    [terminateInstance] asks EC2 to terminate this one instance and then
    detaches it from the groups, one call per group in the order given
    and never asking to decrement the desired capacity. The first call
    that does not resolve ends it, and [terminateInstance] ends as that
    call did: a termination that does not resolve means no group is
    detached; otherwise every detach call before the last one made
    resolved, and either [terminateInstance] returns, and then every
    group was detached by a call that resolved, or the last call made is
    the one that did not resolve and no later group is touched. *)
Theorem terminateInstance_in_production
        (e : env) (s : state) (instanceMeta : InstanceIpManager.EC2MetaDataResponse) :
  isProduction e = true -> metadata e = Resolved instanceMeta ->
  let instanceId := InstanceIpManager.instanceId instanceMeta in
  let asgNames := match assignedAsgNames e with Some l => l | None => [] end in
  let '(r, s') := terminateInstance e s in
  exists k,
    (k <= length asgNames)%nat
    /\ s' = add_calls (Metadata :: TerminateInstances [instanceId]
                       :: map (detach instanceId) (firstn k asgNames)) s
    /\ (terminateInstances e [instanceId] <> Resolved tt ->
        k = 0%nat /\ r <> Resolved tt /\ r = terminateInstances e [instanceId])
    /\ (forall i asgName,
          nth_error asgNames i = Some asgName -> (S i < k)%nat ->
          detachInstances e asgName [instanceId] = Resolved tt)
    /\ (r = Resolved tt ->
        terminateInstances e [instanceId] = Resolved tt /\ k = length asgNames
        /\ forall asgName, In asgName asgNames ->
                           detachInstances e asgName [instanceId] = Resolved tt)
    /\ (terminateInstances e [instanceId] = Resolved tt -> r <> Resolved tt ->
        exists asgName, (1 <= k)%nat
                        /\ nth_error asgNames (k - 1) = Some asgName
                        /\ detachInstances e asgName [instanceId] = r).
Proof.
  intros Hprod Hmeta. cbv zeta. unfold terminateInstance.
  rewrite Hprod. cbn [negb]. rewrite bind_invoke, Hmeta, bind_invoke.
  set (iid := InstanceIpManager.instanceId instanceMeta).
  destruct (terminateInstances e [iid]) as [[]|err|] eqn:Hterm.
  2,3: exists 0%nat; cbn [firstn map];
       rewrite !record_add_calls, add_calls_app;
       (conjs; [lia | reflexivity
               | intros _; conjs; [reflexivity | discriminate | reflexivity]
               | intros i asgName _ Hi; lia
               | discriminate
               | discriminate]).
  destruct (assignedAsgNames e) as [asgNames|].
  - destruct (detachAll_stops e iid asgNames)
      as (o & k & Hk & Heq & Hbefore & Hall & Hstop).
    rewrite Heq, !record_add_calls, !add_calls_app. cbn [app].
    exists k. conjs; [exact Hk | reflexivity | congruence | exact Hbefore | |].
    + intros Ho. destruct (Hall Ho) as [Hlen Hin]. now conjs.
    + intros _ Ho. exact (Hstop Ho).
  - exists 0%nat. unfold ret. rewrite !record_add_calls, add_calls_app. cbn.
    conjs; [lia | reflexivity | congruence | intros i asgName _ Hi; lia | | congruence].
    intros _. conjs; [reflexivity | reflexivity | intros asgName []].
Qed.

(** X17: The coordinator stops itself exactly when pm2 lists an entry with its
    pid (and with an id and an environment), and then under the id of the
    last such entry; it does so only after every other call of the
    clean-up. *)
Theorem coordinator_stops_itself_last (e : env) (processList : list ProcessDescription)
        (s : state) :
  let sup := fst (scan e processList None []) in
  sup = last (own_ids e processList)
  /\ exists cs,
       calls (snd (cleanup e sup s)) = calls s ++ cs
       /\ List.filter is_pm2 cs
          = match last (own_ids e processList) with
            | Some pmId => [Pm2Stop pmId]
            | None => []
            end
       /\ (forall pmId, sup = Some pmId ->
             exists before after,
               cs = before ++ Pm2Stop pmId :: after
               /\ In UnlinkPidFile before
               /\ (after = [] \/ after = [UsleepInfinity])).
Proof.
  cbv zeta. rewrite scan_own_id.
  assert (Hsup : match last (own_ids e processList) with
                 | Some pmId => Some pmId
                 | None => None
                 end = last (own_ids e processList)) by now destruct (last _).
  rewrite Hsup. split; [reflexivity|].
  rewrite cleanup_eq. cbv zeta.
  destruct (killProcessTimeoutHandle s); destruct (last (own_ids e processList)) as [pmId|];
    try destruct (pm2_stop e pmId) as [[]|err|];
    try destruct (usleep_Infinity e) as [[]|err|];
    cbn [snd calls record set_handle set_fs set_isDiscarding];
    rewrite <- ?app_assoc; cbn [app];
    (eexists; conjs; [reflexivity | reflexivity |]);
    intros pmId0 [= <-] || (intros pmId0 Hnone; discriminate Hnone).
  all: first
    [ exists [UnlinkPidFile; ClearInterval], [UsleepInfinity];
      conjs; [reflexivity | now left | now right]
    | exists [UnlinkPidFile; ClearInterval], [];
      conjs; [reflexivity | now left | now left]
    | exists [UnlinkPidFile], [UsleepInfinity];
      conjs; [reflexivity | now left | now right]
    | exists [UnlinkPidFile], [];
      conjs; [reflexivity | now left | now left] ].
Qed.

(** X19: Whichever way a call of [discard] ends, every file other than its own
    marker is as it was, the marker of the address protocol included; and
    the callback of the interval does not touch the file system at all. *)
Theorem discard_leaves_other_files (e : env) (s : state) :
  (forall path, path <> pidFile e ->
                fs (snd (discard e s)) !! path = fs s !! path)
  /\ (forall e1 : InstanceIpManager.env,
         InstanceIpManager.tmpdir e1 = tmpdir e ->
         fs (snd (discard e s)) !! InstanceIpManager.pidFile e1
         = fs s !! InstanceIpManager.pidFile e1)
  /\ fs (snd (on_timeout e s)) = fs s.
Proof.
  assert (H : forall path, path <> pidFile e ->
                fs (snd (discard e s)) !! path = fs s !! path).
  { intros path Hne. destruct (discard_fs e s) as [->|[->| ->]].
    - reflexivity.
    - now apply lookup_insert_ne.
    - now apply lookup_delete_ne. }
  conjs; [exact H | |].
  - intros e1 Htmp. apply H. intros Heq. now apply (pidFiles_differ e1 e Htmp).
  - destruct (on_timeout_eq e) as (cs & _ & Heq). now rewrite Heq.
Qed.

(** X20: An attempt that got past the election and did not come through
    (pm2, EC2 or autoscaling failed or never answered before the
    clean-up) never rejects and leaves the marker in place under the
    coordinator's pid. If it failed, the busy flag is clear and a retry is
    due in 10 s, which will pass the election again; if it hangs, the busy
    flag stays set. Either way every other process of the host that calls
    [discard] is turned away. *)
Theorem incomplete_attempt_keeps_marker (e : env) (s : state) :
  electable e s -> isDiscarding s = false -> ~ completes e ->
  let '(r, s') := discard e s in
  fs s' !! pidFile e = Some (pid e)
  /\ match r with
     | Resolved _ =>
         isDiscarding s' = false
         /\ retries s' = retries s ++ [now s + RETRY_INTERVAL]
         /\ last (calls s') = Some (SetTimeout RETRY_INTERVAL)
         /\ electable e s'
     | Pending => isDiscarding s' = true /\ retries s' = retries s
     | Rejected _ => False
     end
  /\ (forall e' s'', tmpdir e' = tmpdir e -> pid e' <> pid e -> fs s'' = fs s' ->
                     discard e' s'' = (Resolved tt, s'')).
Proof.
  intros Hel Hidle Hnot.
  rewrite discard_eq, (discard_elected e s Hel), Hidle. cbv zeta.
  set (s2 := match killProcessTimeoutHandle s with
             | Some _ => _
             | None => _
             end).
  assert (Hs2 : fs s2 = <[pidFile e := pid e]> (fs s) /\ retries s2 = retries s
                /\ now s2 = now s /\ isDiscarding s2 = true).
  { unfold s2. now destruct (killProcessTimeoutHandle s). }
  destruct Hs2 as (Hfs2 & Hret2 & Hnow2 & Hbusy2).
  destruct (drain_fs e s2) as [[Hfs Hinc]|[_ Hdone]]; [|contradiction].
  destruct (Hinc Hnot) as (Hres & cs & Hs3).
  assert (Hrival : forall s', fs s' !! pidFile e = Some (pid e) ->
             forall e' s'', tmpdir e' = tmpdir e -> pid e' <> pid e -> fs s'' = fs s' ->
                            discard e' s'' = (Resolved tt, s'')).
  { intros s' Hheld e' s'' Htmp Hpid Heq.
    apply (discard_declined_eq e' s'' (pid e)).
    - unfold pidFile in *. rewrite Htmp, Heq. exact Hheld.
    - left. congruence. }
  destruct (drain_and_terminate e s2) as [[[]|err|] s3]; cbn [fst snd] in *;
    [congruence | |]; subst s3.
  - assert (Hheld : fs (record (SetTimeout RETRY_INTERVAL)
                          (set_retries (retries (add_calls cs s2)
                                        ++ [now (add_calls cs s2) + RETRY_INTERVAL])
                             (set_isDiscarding false (add_calls cs s2))))
                    !! pidFile e = Some (pid e)).
    { cbn [fs record set_retries set_isDiscarding add_calls]. rewrite Hfs2.
      apply lookup_insert_eq. }
    conjs; [exact Hheld | reflexivity | | apply last_snoc | now right | now apply Hrival].
    cbn [retries record set_retries set_isDiscarding add_calls now].
    now rewrite Hret2, Hnow2.
  - assert (Hheld : fs (add_calls cs s2) !! pidFile e = Some (pid e)).
    { cbn [fs add_calls]. rewrite Hfs2. apply lookup_insert_eq. }
    conjs; [exact Hheld | exact Hbusy2 | exact Hret2 | now apply Hrival].
Qed.

(** X21: An attempt that gets past the election and whose drain and
    termination come to a normal end makes its calls in this order: the
    interval is set if none was, pm2 is connected to and listed, the stops
    are requested, the cloud calls of [terminateInstance] are made, the
    marker is unlinked and the interval is cleared; only then, if pm2
    listed the coordinator itself, comes its own stop. Afterwards no
    interval is set and the marker is gone. *)
Theorem decommission_order (e : env) (s : state) :
  electable e s -> isDiscarding s = false -> completes e ->
  let '(r, s') := discard e s in
  exists processList cloud tail,
    pm2_list e = Resolved processList
    /\ forallb is_cloud cloud = true
    /\ calls s'
       = calls s
         ++ (match killProcessTimeoutHandle s with
             | None => [SetInterval DISCARD_TIMEOUT]
             | Some _ => []
             end)
         ++ Pm2Connect :: Pm2List
            :: map Pm2Stop (snd (scan e processList None []))
         ++ cloud ++ UnlinkPidFile :: ClearInterval :: tail
    /\ killProcessTimeoutHandle s' = None
    /\ fs s' !! pidFile e = None
    /\ match fst (scan e processList None []) with
       | None => tail = [] /\ r = Resolved tt /\ isDiscarding s' = false
       | Some pmId =>
           exists rest, tail = Pm2Stop pmId :: rest
                        /\ List.filter is_pm2 rest = []
                        /\ List.filter is_cloud rest = []
       end.
Proof.
  intros Hel Hidle (Hconnect & (processList & Hlist & Hstops) & Hterm).
  rewrite discard_eq, (discard_elected e s Hel), Hidle. cbv zeta.
  rewrite drain_eq, Hconnect, Hlist.
  destruct (scan e processList None []) as [sup tasks] eqn:Hscan.
  cbn [snd] in Hstops. rewrite Hstops. unfold bind.
  destruct (terminateInstance_frame e) as (o & cloud & Heq & Hcloud).
  rewrite Heq. specialize (Hterm s). rewrite Heq in Hterm. cbn [fst] in Hterm. subst o.
  rewrite cleanup_eq. cbv zeta.
  assert (Hgone : forall f, LeaderLock.unlinkPidFile (pidFile e) f !! pidFile e = None)
    by apply unlinkPidFile_gone.
  destruct (killProcessTimeoutHandle s) as [d|] eqn:Hh; destruct sup as [pmId|];
    try destruct (pm2_stop e pmId) as [[]|err|];
    try destruct (usleep_Infinity e) as [[]|err|];
    cbv beta iota;
    exists processList, cloud; rewrite Hscan; cbn [fst snd];
    cbn [fst snd calls fs killProcessTimeoutHandle isDiscarding record set_handle set_fs
         set_isDiscarding set_retries add_calls];
    rewrite ?Hh; cbn [fst snd calls fs killProcessTimeoutHandle isDiscarding record
                      set_handle set_fs set_isDiscarding set_retries add_calls];
    rewrite <- ?app_assoc; cbn [app];
    eexists;
    (conjs; [reflexivity | exact Hcloud | reflexivity | reflexivity | apply Hgone | ..]);
    try reflexivity;
    (eexists; conjs; reflexivity).
Qed.

Lemma terminateInstance_in_production_witness :
  let e := MoreSamples.half_detached in
  let asgNames := ["crawlers"; "indexers"; "mailers"] in
  let '(r, s') := terminateInstance e (init ∅) in
  exists k,
    (k <= length asgNames)%nat
    /\ s' = add_calls (Metadata :: TerminateInstances ["i-0abc"]
                       :: map (detach "i-0abc") (firstn k asgNames)) (init ∅)
    /\ (terminateInstances e ["i-0abc"] <> Resolved tt ->
        k = 0%nat /\ r <> Resolved tt /\ r = terminateInstances e ["i-0abc"])
    /\ (forall i asgName,
          nth_error asgNames i = Some asgName -> (S i < k)%nat ->
          detachInstances e asgName ["i-0abc"] = Resolved tt)
    /\ (r = Resolved tt ->
        terminateInstances e ["i-0abc"] = Resolved tt /\ k = length asgNames
        /\ forall asgName, In asgName asgNames ->
                           detachInstances e asgName ["i-0abc"] = Resolved tt)
    /\ (terminateInstances e ["i-0abc"] = Resolved tt -> r <> Resolved tt ->
        exists asgName, (1 <= k)%nat
                        /\ nth_error asgNames (k - 1) = Some asgName
                        /\ detachInstances e asgName ["i-0abc"] = r).
Proof.
  apply (terminateInstance_in_production MoreSamples.half_detached (init ∅) Samples.meta).
  - reflexivity.
  - reflexivity.
Defined.

(** On that instance the loop stops at the second group: the third is
    never detached, and [terminateInstance] throws what autoscaling
    answered. *)
Lemma half_detached_stops :
  terminateInstance MoreSamples.half_detached (init ∅)
  = (Rejected (External "ValidationError"),
     add_calls [Metadata; TerminateInstances ["i-0abc"];
                detach "i-0abc" "crawlers"; detach "i-0abc" "indexers"] (init ∅)).
Proof. reflexivity. Qed.

Lemma incomplete_attempt_keeps_marker_witness :
  let '(r, s') := discard Samples.unreachable (init ∅) in
  fs s' !! pidFile Samples.unreachable = Some (pid Samples.unreachable)
  /\ match r with
     | Resolved _ =>
         isDiscarding s' = false
         /\ retries s' = retries (init ∅) ++ [now (init ∅) + RETRY_INTERVAL]
         /\ last (calls s') = Some (SetTimeout RETRY_INTERVAL)
         /\ electable Samples.unreachable s'
     | Pending => isDiscarding s' = true /\ retries s' = retries (init ∅)
     | Rejected _ => False
     end
  /\ (forall e' s'', tmpdir e' = tmpdir Samples.unreachable ->
                     pid e' <> pid Samples.unreachable -> fs s'' = fs s' ->
                     discard e' s'' = (Resolved tt, s'')).
Proof.
  apply (incomplete_attempt_keeps_marker Samples.unreachable (init ∅)).
  - left. reflexivity.
  - reflexivity.
  - intros [Hconnect _]. discriminate Hconnect.
Defined.

Lemma decommission_order_witness :
  let e := MoreSamples.smooth in
  let '(r, s') := discard e (init ∅) in
  exists processList cloud tail,
    pm2_list e = Resolved processList
    /\ forallb is_cloud cloud = true
    /\ calls s'
       = calls (init ∅)
         ++ [SetInterval DISCARD_TIMEOUT]
         ++ Pm2Connect :: Pm2List
            :: map Pm2Stop (snd (scan e processList None []))
         ++ cloud ++ UnlinkPidFile :: ClearInterval :: tail
    /\ killProcessTimeoutHandle s' = None
    /\ fs s' !! pidFile e = None
    /\ match fst (scan e processList None []) with
       | None => tail = [] /\ r = Resolved tt /\ isDiscarding s' = false
       | Some pmId =>
           exists rest, tail = Pm2Stop pmId :: rest
                        /\ List.filter is_pm2 rest = []
                        /\ List.filter is_cloud rest = []
       end.
Proof.
  apply (decommission_order MoreSamples.smooth (init ∅)).
  - left. reflexivity.
  - reflexivity.
  - unfold completes. conjs.
    + reflexivity.
    + exists Samples.processList. split; reflexivity.
    + intros s. reflexivity.
Defined.
End DiscarderMoreTheorems.

Section UnreliableFacts.
Import InstanceDiscarder.

(** With nothing going wrong the election is the one of [LeaderLock]. *)
Lemma isSupervisionProcess_none (path : string) (pid : Z) (fs : gmap string Z) :
  Unreliable.isSupervisionProcess Unreliable.none path pid fs
  = LeaderLock.isSupervisionProcess path pid fs.
Proof.
  unfold Unreliable.isSupervisionProcess, Unreliable.writeFileSync_wx,
    LeaderLock.isSupervisionProcess.
  cbn [Unreliable.create_fails Unreliable.unlinked_meanwhile Unreliable.none].
  now destruct (Fs.writeFileSync_wx path pid fs).
Qed.

(** And [discard] is its election followed by [attempt]. *)
Lemma discard_none (e : env) (s : state) :
  Unreliable.discard Unreliable.none e s = discard e s.
Proof.
  unfold Unreliable.discard, discard, isSupervisionProcess, bind.
  now rewrite isSupervisionProcess_none.
Qed.

(** The election throws exactly when the create failed and the marker is
    not there at the read. *)
Lemma isSupervisionProcess_throws (f : Unreliable.faults) (path : string) (pid : Z)
      (fs : gmap string Z) (err : error) :
  snd (Unreliable.isSupervisionProcess f path pid fs) = Rejected err
  <-> err = ENOENT
      /\ ((Unreliable.create_fails f = true /\ fs !! path = None)
          \/ (Unreliable.unlinked_meanwhile f = true /\ is_Some (fs !! path))).
Proof.
  unfold Unreliable.isSupervisionProcess, Unreliable.writeFileSync_wx,
    Fs.writeFileSync_wx, Fs.readFileSync.
  pose proof (unlinkPidFile_gone path fs) as Hgone.
  assert (Hmiss : fs !! path = None -> LeaderLock.unlinkPidFile path fs !! path = None)
    by (intros _; exact Hgone).
  destruct (Unreliable.create_fails f), (Unreliable.unlinked_meanwhile f),
    (fs !! path) as [spid|] eqn:Hmarker; cbn [snd];
    rewrite ?Hgone, ?Hmarker; cbn [snd];
    (split;
     [ intros H; try discriminate H; injection H as <-;
       (split; [reflexivity|]); first [ left; now split | right; split; eauto ]
     | intros [-> [[H1 H2]|[H1 [x H2]]]]; try discriminate; reflexivity ]).
Qed.

(** The body of [discard] for the leader, case by case. *)
Lemma attempt_eq (e : env) (s : state) :
  Unreliable.attempt e true s
  = if isDiscarding s then (Resolved tt, s)
    else
      let s1 := set_isDiscarding true s in
      let s2 := match killProcessTimeoutHandle s with
                | None => record (SetInterval DISCARD_TIMEOUT)
                            (set_handle (Some (now s + DISCARD_TIMEOUT)) s1)
                | Some _ => s1
                end in
      match drain_and_terminate e s2 with
      | (Rejected _, s3) =>
          (Resolved tt,
           record (SetTimeout RETRY_INTERVAL)
             (set_retries (retries s3 ++ [now s3 + RETRY_INTERVAL])
                (set_isDiscarding false s3)))
      | r => r
      end.
Proof.
  unfold Unreliable.attempt. cbn [negb]. unfold bind at 1, get at 1.
  destruct (isDiscarding s); [reflexivity|].
  rewrite bind_modify.
  destruct (killProcessTimeoutHandle s).
  - rewrite bind_ret. unfold try_catch.
    destruct (drain_and_terminate e _) as [[[]|err|] s3]; reflexivity.
  - rewrite bind_modify. unfold try_catch.
    cbn [now set_isDiscarding].
    destruct (drain_and_terminate e _) as [[[]|err|] s3]; reflexivity.
Qed.

(** Past the election nothing is thrown: what fails in the [try] is
    swallowed by the [catch]. *)
Lemma attempt_never_rejects (e : env) (leader : bool) (s : state) :
  fst (Unreliable.attempt e leader s) = Resolved tt
  \/ fst (Unreliable.attempt e leader s) = Pending.
Proof.
  destruct leader; [|now left]. rewrite attempt_eq.
  destruct (isDiscarding s); [now left|]. cbv zeta.
  destruct (drain_and_terminate e _) as [[[]|err|] s3];
    [now left | now left | now right].
Qed.
End UnreliableFacts.

Section UnreliableTheorems.
Import InstanceDiscarder.

(** X18: [discard] rejects exactly when its election throws, and with
    that error: the election sits before the [try], and what fails inside
    the [try] is swallowed by the [catch], which schedules the retry. The
    election throws exactly when the exclusive create failed and the
    marker is not there at the read: the create failed for a cause other
    than the marker being there, or the holder unlinked the marker in
    between. A call that rejects this way has made no call, armed
    nothing and left the busy flag alone. With neither fault the election
    always answers, [discard] is the one of the claims, and it does not
    reject. *)
Theorem discard_rejects_only_in_election (f : Unreliable.faults) (e : env) (s : state) :
  let election := Unreliable.isSupervisionProcess f (pidFile e) (pid e) (fs s) in
  Unreliable.discard Unreliable.none e s = discard e s
  /\ (forall err,
        fst (Unreliable.discard f e s) = Rejected err <-> snd election = Rejected err)
  /\ (forall err,
        snd election = Rejected err
        <-> err = ENOENT
            /\ ((Unreliable.create_fails f = true /\ fs s !! pidFile e = None)
                \/ (Unreliable.unlinked_meanwhile f = true
                    /\ is_Some (fs s !! pidFile e))))
  /\ (forall err,
        snd election = Rejected err ->
        Unreliable.discard f e s = (Rejected err, set_fs (fst election) s))
  /\ (forall leader,
        snd election = Resolved leader ->
        fst (Unreliable.discard f e s) = Resolved tt
        \/ fst (Unreliable.discard f e s) = Pending)
  /\ (fst (Unreliable.discard Unreliable.none e s) = Resolved tt
      \/ fst (Unreliable.discard Unreliable.none e s) = Pending).
Proof.
  cbv zeta. unfold Unreliable.discard, bind.
  conjs.
  - apply discard_none.
  - intros err.
    destruct (Unreliable.isSupervisionProcess f (pidFile e) (pid e) (fs s))
      as [fs' [leader|err'|]]; cbn [fst snd];
      [|split; intros [= ->]; reflexivity | split; discriminate].
    split; [|discriminate].
    destruct (attempt_never_rejects e leader (set_fs fs' s)) as [H|H]; rewrite H;
      discriminate.
  - intros err. apply isSupervisionProcess_throws.
  - intros err.
    destruct (Unreliable.isSupervisionProcess f (pidFile e) (pid e) (fs s))
      as [fs' [leader|err'|]]; cbn [fst snd]; congruence.
  - intros leader.
    destruct (Unreliable.isSupervisionProcess f (pidFile e) (pid e) (fs s))
      as [fs' [leader'|err'|]]; cbn [fst snd]; try discriminate.
    intros _. apply attempt_never_rejects.
  - rewrite isSupervisionProcess_none.
    destruct (isSupervisionProcess_answers (pidFile e) (pid e) (fs s)) as [b Hb].
    destruct (LeaderLock.isSupervisionProcess (pidFile e) (pid e) (fs s)) as [fs' r].
    cbn [snd] in Hb. subst r. apply attempt_never_rejects.
Qed.

(** The create fails on a directory without the marker: the read throws
    and so does [discard]. *)
Lemma discard_rejects_only_in_election_witness :
  let f := {| Unreliable.create_fails := true; Unreliable.unlinked_meanwhile := false |} in
  fst (Unreliable.discard f MoreSamples.smooth (init ∅)) = Rejected ENOENT.
Proof.
  apply (proj2 (proj1 (proj2
           (discard_rejects_only_in_election
              {| Unreliable.create_fails := true;
                 Unreliable.unlinked_meanwhile := false |}
              MoreSamples.smooth (init ∅))) ENOENT)).
  reflexivity.
Defined.

(** The holder (pid 99) unlinks its marker between the failed create and
    the read of pid 4242: the read throws, [discard] rejects, and the
    marker is gone. *)
Lemma discard_rejects_on_unlink :
  let f := {| Unreliable.create_fails := false; Unreliable.unlinked_meanwhile := true |} in
  let s := init {[ "/tmp/instance-discarder.pid" := 99 ]} in
  Unreliable.discard f MoreSamples.smooth s = (Rejected ENOENT, set_fs ∅ s).
Proof. vm_compute. reflexivity. Qed.
End UnreliableTheorems.

Section DiscarderCloud.
Import InstanceDiscarder.
Variable e : env.

Lemma filter_all (p : call -> bool) (cs : list call) :
  forallb p cs = true -> List.filter p cs = cs.
Proof.
  induction cs as [|c cs IH]; [reflexivity|]. cbn.
  intros [Hc Hcs]%andb_prop. now rewrite Hc, IH.
Qed.

Lemma stops_not_cloud (tasks : list Z) : List.filter is_cloud (map Pm2Stop tasks) = [].
Proof. induction tasks as [|t l IH]; [reflexivity | exact IH]. Qed.

(** The only calls an attempt makes to the cloud are those of
    [terminateInstance]. *)
Lemma drain_cloud (s : state) :
  exists cs,
    calls (snd (drain_and_terminate e s)) = calls s ++ cs
    /\ (List.filter is_cloud cs = []
        \/ exists o cloud,
             (forall s0, terminateInstance e s0 = (o, add_calls cloud s0))
             /\ List.filter is_cloud cs = cloud).
Proof.
  rewrite drain_eq.
  destruct (pm2_connect e) as [[]|err|];
    try (exists [Pm2Connect]; split; [reflexivity | now left]).
  destruct (pm2_list e) as [processList|err|];
    try (exists [Pm2Connect; Pm2List]; split; [reflexivity | now left]).
  destruct (scan e processList None []) as [sup tasks].
  set (pre := Pm2Connect :: Pm2List :: map Pm2Stop tasks).
  assert (Hpre : List.filter is_cloud pre = []) by apply stops_not_cloud.
  destruct (promise_all _) as [[]|err|];
    try (exists pre; split; [reflexivity | now left]).
  unfold bind. destruct (terminateInstance_frame e) as (o & cloud & Heq & Hcloud).
  rewrite Heq, add_calls_app.
  assert (Hboth : forall tail, List.filter is_cloud tail = [] ->
             List.filter is_cloud ((pre ++ cloud) ++ tail) = cloud).
  { intros tail Htail.
    now rewrite !List.filter_app, Hpre, Htail, app_nil_r, (filter_all _ _ Hcloud). }
  assert (Hright : forall tail, List.filter is_cloud tail = [] ->
             List.filter is_cloud ((pre ++ cloud) ++ tail) = []
             \/ exists o0 cloud0,
                  (forall s0, terminateInstance e s0 = (o0, add_calls cloud0 s0))
                  /\ List.filter is_cloud ((pre ++ cloud) ++ tail) = cloud0).
  { intros tail Htail. right. exists o, cloud. split; [exact Heq | now apply Hboth]. }
  destruct o as [[]|err|].
  2,3: exists ((pre ++ cloud) ++ []); split;
       [now rewrite app_nil_r | now apply Hright].
  rewrite cleanup_eq. cbv zeta. cbn [killProcessTimeoutHandle add_calls fs].
  destruct (killProcessTimeoutHandle s); destruct sup as [pmId|];
    try destruct (pm2_stop e pmId) as [[]|err|];
    try destruct (usleep_Infinity e) as [[]|err|];
    cbn [snd calls record set_handle set_fs set_isDiscarding add_calls];
    rewrite <- ?app_assoc; cbn [app];
    (eexists; split;
     [ rewrite (app_assoc pre cloud); reflexivity | now apply Hright ]).
Qed.

Lemma discard_cloud (s : state) :
  exists cs,
    calls (snd (discard e s)) = calls s ++ cs
    /\ (List.filter is_cloud cs = []
        \/ exists o cloud,
             (forall s0, terminateInstance e s0 = (o, add_calls cloud s0))
             /\ List.filter is_cloud cs = cloud).
Proof.
  rewrite discard_eq.
  destruct (LeaderLock.isSupervisionProcess (pidFile e) (pid e) (fs s))
    as [fs' [[|]|err|]];
    try (exists []; split; [cbn; now rewrite app_nil_r | now left]).
  destruct (isDiscarding s);
    [exists []; split; [cbn; now rewrite app_nil_r | now left]|].
  cbv zeta.
  set (s2 := match killProcessTimeoutHandle s with
             | Some _ => _
             | None => _
             end).
  assert (Hs2 : exists pre, calls s2 = calls s ++ pre /\ List.filter is_cloud pre = []).
  { unfold s2. destruct (killProcessTimeoutHandle s).
    - exists []. split; [cbn; now rewrite app_nil_r | reflexivity].
    - exists [SetInterval DISCARD_TIMEOUT]. now split. }
  destruct Hs2 as (pre & Hcalls2 & Hpre).
  destruct (drain_cloud s2) as (cs & Hcs & Hcloud).
  assert (Hshape : forall tail, List.filter is_cloud tail = [] ->
             List.filter is_cloud ((pre ++ cs) ++ tail) = List.filter is_cloud cs).
  { intros tail Htail. now rewrite !List.filter_app, Hpre, Htail, app_nil_r. }
  destruct (drain_and_terminate e s2) as [[[]|err|] s3]; cbn [snd] in *.
  - exists ((pre ++ cs) ++ []). split.
    + now rewrite Hcs, Hcalls2, app_nil_r, <- app_assoc.
    + now rewrite Hshape.
  - exists ((pre ++ cs) ++ [SetTimeout RETRY_INTERVAL]). split.
    + cbn [calls record set_retries set_isDiscarding].
      now rewrite Hcs, Hcalls2, <- !app_assoc.
    + now rewrite Hshape.
  - exists ((pre ++ cs) ++ []). split.
    + now rewrite Hcs, Hcalls2, app_nil_r, <- app_assoc.
    + now rewrite Hshape.
Qed.

Lemma terminateInstance_quiet (o : outcome unit) (cloud : list call) :
  isProduction e = false ->
  (forall s0, terminateInstance e s0 = (o, add_calls cloud s0)) -> cloud = [].
Proof.
  intros Hprod Heq. specialize (Heq (init ∅)).
  unfold terminateInstance in Heq. rewrite Hprod in Heq. cbn in Heq.
  injection Heq as _ Hcalls. now destruct cloud.
Qed.
End DiscarderCloud.

Section DiscarderCloudTheorems.
Import InstanceDiscarder.

(** X22: Outside production nothing the discarder does reaches EC2,
    autoscaling or the metadata endpoint: [terminateInstance] returns
    without a call, so neither an attempt of [discard], first or retried,
    nor a firing of the escalation interval makes one -- while the worker
    processes are stopped all the same. *)
Theorem no_cloud_call_outside_production (evs : list event) (s : state) :
  Forall (fun ev => match ev with
                    | Call e | Timer e => isProduction e = false
                    | Wait _ => True
                    end) evs ->
  List.filter is_cloud (calls (run evs s)) = List.filter is_cloud (calls s).
Proof.
  intros Hevs. revert s. induction Hevs as [|ev evs Hev Hevs IH]; intros s; [reflexivity|].
  cbn [run fold_left]. change (fold_left _ evs (step ev s)) with (run evs (step ev s)).
  rewrite IH. clear IH Hevs.
  assert (Hattempt : forall e s1, isProduction e = false ->
             List.filter is_cloud (calls (snd (discard e s1)))
             = List.filter is_cloud (calls s1)).
  { intros e s1 Hprod. destruct (discard_cloud e s1) as (cs & Hcs & Hcloud).
    rewrite Hcs, List.filter_app.
    destruct Hcloud as [->|(o & cloud & Heq & ->)]; [apply app_nil_r|].
    rewrite (terminateInstance_quiet e o cloud Hprod Heq). apply app_nil_r. }
  destruct ev as [e|dt|e]; cbn [step].
  - now apply Hattempt.
  - now destruct (next_timer s).
  - destruct (next_timer s) as [[d|d]|]; [| |reflexivity].
    + unfold on_timeout, terminateInstance. rewrite Hev. cbn.
      rewrite List.filter_app. cbn. apply app_nil_r.
    + now rewrite Hattempt.
Qed.

Lemma no_cloud_call_outside_production_witness :
  let e := {| pid := 4242; tmpdir := "/tmp"; assignedAsgNames := Some ["crawlers"];
              isProduction := false; pm2_connect := Resolved tt;
              pm2_list := Resolved Samples.processList;
              pm2_stop := fun pmId => if Z.eqb pmId 3
                                      then Rejected (External "process not found")
                                      else Resolved tt;
              metadata := Resolved Samples.meta;
              terminateInstances := fun _ => Resolved tt;
              detachInstances := fun _ _ => Resolved tt;
              usleep_Infinity := Pending |} in
  let evs := [Call e; Timer e; Wait 600000; Timer e] in
  List.filter is_cloud (calls (run evs (init ∅))) = List.filter is_cloud (calls (init ∅)).
Proof.
  apply (no_cloud_call_outside_production
           (let e := {| pid := 4242; tmpdir := "/tmp"; assignedAsgNames := Some ["crawlers"];
                        isProduction := false; pm2_connect := Resolved tt;
                        pm2_list := Resolved Samples.processList;
                        pm2_stop := fun pmId => if Z.eqb pmId 3
                                                then Rejected (External "process not found")
                                                else Resolved tt;
                        metadata := Resolved Samples.meta;
                        terminateInstances := fun _ => Resolved tt;
                        detachInstances := fun _ _ => Resolved tt;
                        usleep_Infinity := Pending |} in
            [Call e; Timer e; Wait 600000; Timer e])
           (init ∅)).
  repeat constructor.
Defined.
End DiscarderCloudTheorems.

(* ================================================================== *)
(** * BatchJob, BatchManager and InstanceIpManager together *)

Section WiringFacts.
Import Wiring.

Lemma emitted_app (cs cs' : list InstanceIpManager.call) :
  emitted (cs ++ cs') = emitted cs ++ emitted cs'.
Proof. unfold emitted. apply flat_map_app. Qed.

Lemma emitted_quiet (cs : list InstanceIpManager.call) :
  List.filter InstanceIpManager.local cs = [] -> emitted cs = [].
Proof.
  unfold emitted. induction cs as [|c cs IH]; [reflexivity|]. cbn [List.filter].
  destruct c; cbn; try discriminate; exact IH.
Qed.

(** The signals a run of [changeIpv6] that got past the election hands to
    the listeners. *)
Lemma emitted_run (e : InstanceIpManager.env) (discardIfFailed : bool)
      (s : InstanceIpManager.state) :
  InstanceIpManager.electable e s -> InstanceIpManager.isWorking s = false ->
  let '(r, s') := InstanceIpManager.changeIpv6 e discardIfFailed s in
  emitted (drop (length (InstanceIpManager.calls s)) (InstanceIpManager.calls s'))
  = match r with
    | Resolved _ => [SIGCONT]
    | Rejected _ => if discardIfFailed then [SIGUSR1] else []
    | Pending => []
    end.
Proof.
  intros Hel Hidle. rewrite (changeIpv6_run e _ s Hel Hidle).
  destruct (request_frame e (InstanceIpManager.elected e s)) as (cs & Hs1 & Hquiet).
  destruct (InstanceIpManager.requestChangeIpV6 e (InstanceIpManager.elected e s))
    as [[newIp|err|] s1]; cbn [snd] in Hs1; subst s1;
    cbn [InstanceIpManager.calls InstanceIpManager.released InstanceIpManager.add_calls
         InstanceIpManager.elected];
    rewrite <- ?app_assoc, drop_app_length, ?emitted_app, (emitted_quiet cs Hquiet).
  - reflexivity.
  - cbn [app]. change (InstanceIpManager.UnlinkPidFile :: ?l)
      with ([InstanceIpManager.UnlinkPidFile] ++ l).
    destruct discardIfFailed; reflexivity.
  - reflexivity.
Qed.

Lemma step_SIGUSR2 (w : Scheduler.world) :
  Scheduler.alive w = true -> Scheduler.enableIpManager (Scheduler.mgr w) = true ->
  Scheduler.step (Scheduler.Signal SIGUSR2) w
  = Scheduler.say [Scheduler.ChangeIpv6 true]
      (Scheduler.with_mgr (Scheduler.set_ipChanging true)
         (Scheduler.say [Scheduler.Received SIGUSR2] w)).
Proof.
  intros Ha Hen. unfold Scheduler.step. rewrite Ha. cbn [negb Scheduler.on_signal].
  cbn [Scheduler.mgr Scheduler.say]. now rewrite Hen.
Qed.
End WiringFacts.

Section WiringTheorems.
Import Wiring.

(** X23: A job calls [revivalIpBlockedCrawler]: the manager's SIGUSR2 listener
    sets [isIpChanging] and calls [changeIpv6({ discardIfFailed: true })].
    When that run gets past the election: if it returns, its SIGCONT
    clears [isIpChanging] again, so the manager is held afterwards only
    if it was discarding or asked to leave; if it throws, its SIGUSR1
    makes the manager set [isDiscarding] and call [discard], provided the
    discarder is enabled, and [isIpChanging] is never cleared, so the
    manager stays held either way; if it hangs, the manager stays held
    too. *)
Theorem revival_resumes_or_discards (e : InstanceIpManager.env) (p : process) :
  Scheduler.alive (manager p) = true ->
  Scheduler.enableIpManager (Scheduler.mgr (manager p)) = true ->
  InstanceIpManager.electable e (ipManager p) ->
  InstanceIpManager.isWorking (ipManager p) = false ->
  let '(p', r) := emit_SIGUSR2 e p in
  let m := Scheduler.mgr (manager p) in
  let m' := Scheduler.mgr (manager p') in
  Scheduler.alive (manager p') = true
  /\ Scheduler.needKillProcess m' = Scheduler.needKillProcess m
  /\ Scheduler.nowRunningTask m' = Scheduler.nowRunningTask m
  /\ match r with
     | Resolved _ =>
         Scheduler.isIpChanging m' = false
         /\ Scheduler.isDiscarding m' = Scheduler.isDiscarding m
         /\ Scheduler.held m' = SchedulerReadings.sticky m
         /\ last (Scheduler.out (manager p')) = Some (Scheduler.Received SIGCONT)
     | Rejected _ =>
         Scheduler.isIpChanging m' = true
         /\ Scheduler.isDiscarding m'
            = Scheduler.isDiscarding m || Scheduler.enableDiscarder m
         /\ Scheduler.held m' = true
         /\ last (Scheduler.out (manager p'))
            = Some (if Scheduler.enableDiscarder m then Scheduler.Discard
                    else Scheduler.ChangeIpv6 true)
     | Pending =>
         Scheduler.isIpChanging m' = true
         /\ Scheduler.isDiscarding m' = Scheduler.isDiscarding m
         /\ Scheduler.held m' = true
         /\ last (Scheduler.out (manager p')) = Some (Scheduler.ChangeIpv6 true)
     end.
Proof.
  intros Halive Hen Hel Hidle. unfold emit_SIGUSR2, BatchJob.revivalIpBlockedCrawler.
  rewrite Halive, Hen. cbn [andb].
  pose proof (emitted_run e true (ipManager p) Hel Hidle) as Hsigs.
  destruct (InstanceIpManager.changeIpv6 e true (ipManager p)) as [r s'].
  rewrite Hsigs, (step_SIGUSR2 _ Halive Hen). cbv zeta.
  unfold Scheduler.alive in *.
  destruct r as [newIp|err|]; cbn [manager deliver fold_left].
  - unfold Scheduler.step, Scheduler.alive.
    cbn [Scheduler.exited Scheduler.say Scheduler.with_mgr]. rewrite Halive.
    cbn [negb Scheduler.on_signal Scheduler.mgr Scheduler.say Scheduler.with_mgr
         Scheduler.exited Scheduler.out Scheduler.set_ipChanging
         Scheduler.needKillProcess Scheduler.nowRunningTask Scheduler.isIpChanging
         Scheduler.isDiscarding].
    rewrite Halive. unfold Scheduler.held, SchedulerReadings.sticky.
    cbn [Scheduler.needKillProcess Scheduler.isIpChanging Scheduler.isDiscarding].
    conjs; try reflexivity.
    + now rewrite orb_false_r.
    + apply last_snoc.
  - unfold Scheduler.step, Scheduler.alive.
    cbn [Scheduler.exited Scheduler.say Scheduler.with_mgr]. rewrite Halive.
    cbn [negb Scheduler.on_signal Scheduler.mgr Scheduler.say Scheduler.with_mgr
         Scheduler.set_ipChanging Scheduler.enableDiscarder].
    destruct (Scheduler.enableDiscarder (Scheduler.mgr (manager p)));
      cbn [Scheduler.mgr Scheduler.say Scheduler.with_mgr
           Scheduler.exited Scheduler.out Scheduler.set_ipChanging
           Scheduler.set_discarding
           Scheduler.needKillProcess Scheduler.nowRunningTask Scheduler.isIpChanging
           Scheduler.isDiscarding];
      rewrite Halive; unfold Scheduler.held;
      cbn [Scheduler.needKillProcess Scheduler.isIpChanging Scheduler.isDiscarding];
      (conjs; try reflexivity);
      rewrite ?orb_true_r, ?orb_false_r; try reflexivity; apply last_snoc.
  - cbn [Scheduler.mgr Scheduler.say Scheduler.with_mgr
         Scheduler.exited Scheduler.out Scheduler.set_ipChanging
         Scheduler.needKillProcess Scheduler.nowRunningTask Scheduler.isIpChanging
         Scheduler.isDiscarding].
    rewrite Halive. unfold Scheduler.held.
    cbn [Scheduler.needKillProcess Scheduler.isIpChanging Scheduler.isDiscarding].
    conjs; try reflexivity; rewrite ?orb_true_r; try reflexivity; apply last_snoc.
Qed.

(** X24: When the call of [changeIpv6] is declined -- another process holds
    the marker, or this one is already at work -- nothing is emitted: the
    manager has set [isIpChanging] and nobody in this process clears it.
    From then on, until a SIGCONT is delivered from somewhere else, no
    event starts a run. *)
Theorem declined_revival_stays_held (e : InstanceIpManager.env) (p : process)
        (spid : Z) (evs : list Scheduler.event) :
  Scheduler.alive (manager p) = true ->
  Scheduler.enableIpManager (Scheduler.mgr (manager p)) = true ->
  InstanceIpManager.fs (ipManager p) !! InstanceIpManager.pidFile e = Some spid ->
  spid <> InstanceIpManager.pid e \/ InstanceIpManager.isWorking (ipManager p) = true ->
  forallb (fun ev => negb (SchedulerReadings.is_SIGCONT ev)) evs = true ->
  let '(p', r) := emit_SIGUSR2 e p in
  r = Resolved None
  /\ ipManager p' = ipManager p
  /\ Scheduler.isIpChanging (Scheduler.mgr (manager p')) = true
  /\ Scheduler.out (manager p')
     = Scheduler.out (manager p)
       ++ [Scheduler.Received SIGUSR2; Scheduler.ChangeIpv6 true]
  /\ Scheduler.held (Scheduler.mgr (Scheduler.run evs (manager p'))) = true
  /\ SchedulerReadings.runs_started (Scheduler.run evs (manager p'))
     = SchedulerReadings.runs_started (manager p).
Proof.
  intros Halive Hen Hheld Hwhy Hevs. unfold emit_SIGUSR2, BatchJob.revivalIpBlockedCrawler.
  rewrite Halive, Hen. cbn [andb].
  rewrite (changeIpv6_declined e true (ipManager p) spid Hheld Hwhy).
  rewrite drop_all. cbn [emitted flat_map deliver fold_left manager ipManager].
  rewrite (step_SIGUSR2 _ Halive Hen).
  set (w1 := Scheduler.say _ _).
  assert (Hw1 : Scheduler.held (Scheduler.mgr w1) = true).
  { unfold w1, Scheduler.held. cbn. now rewrite orb_true_r. }
  destruct (run_held_runs evs w1 Hw1 Hevs) as [H1 H2].
  conjs; try reflexivity.
  - unfold w1. cbn. now rewrite <- app_assoc.
  - exact H1.
  - rewrite H2. unfold w1, SchedulerReadings.runs_started. cbn.
    rewrite !List.filter_app. cbn. now rewrite !app_nil_r.
Qed.

Lemma revival_resumes_or_discards_witness :
  let e := Samples.remediation [Samples.A] (Some [Samples.B]) Samples.B in
  let p := {| manager := Scheduler.init true true;
              ipManager := InstanceIpManager.init ∅ |} in
  let '(p', r) := emit_SIGUSR2 e p in
  r = Resolved (Some Samples.B)
  /\ Scheduler.isIpChanging (Scheduler.mgr (manager p')) = false
  /\ Scheduler.held (Scheduler.mgr (manager p')) = false.
Proof.
  pose proof (revival_resumes_or_discards
                (Samples.remediation [Samples.A] (Some [Samples.B]) Samples.B)
                {| manager := Scheduler.init true true;
                   ipManager := InstanceIpManager.init ∅ |}
                eq_refl eq_refl (or_introl eq_refl) eq_refl) as H.
  cbv zeta.
  destruct (emit_SIGUSR2 _ _) as [p' r] eqn:E.
  assert (Hr : r = Resolved (Some Samples.B)).
  { apply (f_equal snd) in E. cbn [snd] in E. rewrite <- E. vm_compute. reflexivity. }
  rewrite Hr in H. cbv zeta in H. destruct H as (_ & _ & _ & H1 & _ & H3 & _).
  conjs; [exact Hr | exact H1 | exact H3].
Defined.

Lemma declined_revival_stays_held_witness :
  let e := MoreSamples.rival in
  let p := {| manager := Scheduler.step (Scheduler.CallBooking "crawl" "* * * * * *" "Crawler")
                                        (Scheduler.init true true);
              ipManager := InstanceIpManager.init {[ "/tmp/instance-ip-manager.pid" := 4242 ]} |} in
  let evs := [Scheduler.CronTick 0; Scheduler.Signal SIGUSR1; Scheduler.CronTick 0] in
  let '(p', r) := emit_SIGUSR2 e p in
  r = Resolved None
  /\ ipManager p' = ipManager p
  /\ Scheduler.isIpChanging (Scheduler.mgr (manager p')) = true
  /\ Scheduler.out (manager p')
     = Scheduler.out (manager p)
       ++ [Scheduler.Received SIGUSR2; Scheduler.ChangeIpv6 true]
  /\ Scheduler.held (Scheduler.mgr (Scheduler.run evs (manager p'))) = true
  /\ SchedulerReadings.runs_started (Scheduler.run evs (manager p'))
     = SchedulerReadings.runs_started (manager p).
Proof.
  apply (declined_revival_stays_held MoreSamples.rival
           {| manager := Scheduler.step (Scheduler.CallBooking "crawl" "* * * * * *" "Crawler")
                                        (Scheduler.init true true);
              ipManager := InstanceIpManager.init {[ "/tmp/instance-ip-manager.pid" := 4242 ]} |}
           4242
           [Scheduler.CronTick 0; Scheduler.Signal SIGUSR1; Scheduler.CronTick 0]).
  - reflexivity.
  - reflexivity.
  - vm_compute. reflexivity.
  - left. vm_compute. discriminate.
  - reflexivity.
Defined.
End WiringTheorems.
